(** * Sentinel: a shallow embedding of the scanner's client and harness code

    The development follows the repository's files:

    - [Text]: the string operations the Python harness relies on
      ([in], [str.lower], slicing, [re.search]);
    - [Wire]: the event record exchanged over the socket transport;
    - [Report]: the severity grouping of the report page
      (frontend/src/app/runs/[id]/report/page.tsx);
    - [WsClient]: the state reducer of the [useWebSocket] hook;
    - [LiveView]: the change-feed and polling handlers of [RunDetails]
      (frontend/src/app/runs/[id]/page.tsx);
    - [Orchestrator]: [AgentOrchestrator.startScan] / [stopScan];
    - [Harness]: [SecurityAgent] of agents/agent_harness.py;
    - [Url], [Props]: what the specification talks about and the code has
      no function for (the host of an address, the properties as
      predicates);
    - [Demo], [Fixtures]: a concrete site, model and client states on
      which the statements are exercised.

    Definitions come first; the statements proved about them follow. *)

From Stdlib Require Import ZArith Ascii String List Sorted Permutation Lia.
From stdpp Require Import base option list gmap strings pretty sorting.

Local Open Scope string_scope.
Local Open Scope list_scope.
Local Open Scope Z_scope.

(* ===================================================================== *)
(** ** Text: Python string operations                                     *)
(* ===================================================================== *)

Module Text.

(** [needle in hay] on Python strings. *)
Fixpoint contains (needle hay : string) : bool :=
  if String.prefix needle hay then true
  else match hay with
       | EmptyString => false
       | String _ rest => contains needle rest
       end.

(** [any(x in s for x in xs)]. *)
Definition any_in (xs : list string) (s : string) : bool :=
  existsb (fun x => contains x s) xs.

(** [str.lower] as it acts on ASCII text: the letters A to Z are lowered.
    Strings hold UTF-8 text; on text outside ASCII [str.lower] follows
    the Unicode case mapping of the interpreter, which the harness takes
    from its environment ([Harness.str_lower]).  The ASCII function
    serves the sample pages, which are ASCII. *)
Definition lower_ascii (c : ascii) : ascii :=
  let n := nat_of_ascii c in
  if ((65 <=? n) && (n <=? 90))%nat then ascii_of_nat (n + 32) else c.

Fixpoint lower (s : string) : string :=
  match s with
  | EmptyString => EmptyString
  | String c rest => String (lower_ascii c) (lower rest)
  end.

(** A byte that continues a UTF-8 sequence ([10xxxxxx]). *)
Definition is_continuation (c : ascii) : bool :=
  let n := nat_of_ascii c in ((128 <=? n) && (n <? 192))%nat.

(** [s[:n]]: the first [n] characters (code points) of UTF-8 text, each
    with the bytes that continue it. *)
Fixpoint str_take (n : nat) (s : string) : string :=
  match s with
  | EmptyString => EmptyString
  | String c rest =>
      if is_continuation c then String c (str_take n rest)
      else match n with
           | O => EmptyString
           | S n' => String c (str_take n' rest)
           end
  end.

(** The text after its first [n] bytes. *)
Fixpoint str_drop (n : nat) (s : string) : string :=
  match n, s with
  | O, _ => s
  | S n', String _ rest => str_drop n' rest
  | S _, EmptyString => EmptyString
  end.

(** The class [\d] as it acts on ASCII text: the text starts with one of
    0 to 9. *)
Definition ascii_digit_head (s : string) : bool :=
  match s with
  | String c _ =>
      let n := nat_of_ascii c in ((48 <=? n) && (n <=? 57))%nat
  | EmptyString => false
  end.

(** The tail of a match of [[^{}]*\}]: everything up to and including
    the first closing brace, provided no opening brace comes first. *)
Fixpoint brace_body (s : string) : option string :=
  match s with
  | EmptyString => None
  | String c rest =>
      if Ascii.eqb c "}" then Some (String c EmptyString)
      else if Ascii.eqb c "{" then None
      else option_map (String c) (brace_body rest)
  end.

(** [re.search(r'\{[^{}]*\}', s, re.DOTALL)] followed by [.group()]:
    the leftmost brace-free object literal, [None] when there is none. *)
Fixpoint re_search_object (s : string) : option string :=
  match s with
  | EmptyString => None
  | String c rest =>
      if Ascii.eqb c "{" then
        match brace_body rest with
        | Some body => Some (String c body)
        | None => re_search_object rest
        end
      else re_search_object rest
  end.

End Text.

(* ===================================================================== *)
(** ** Wire: the socket event shape                                       *)
(* ===================================================================== *)

Module Wire.

(** A vulnerability dictionary as built by [check_for_vulnerability].
    Keys that only some roles set are optional; [cvss_score] is kept in
    tenths (9.8 is 98). *)
Record Vuln := {
  v_type : string;
  v_severity : string;
  v_location : string;
  v_field : option string;
  v_payload : option string;
  v_method : option string;
  v_form : option string;
  v_evidence : string;
  v_cwe : string;
  v_cvss_tenths : Z;
}.

(** [event.data]: a [Record<string, any>]; every key the harness writes
    or the dashboard reads is an optional field. *)
Record EventData := {
  d_role : option string;
  d_target : option string;
  d_status : option string;
  d_thought : option string;
  d_iteration : option Z;
  d_total : option Z;
  d_decision : option (gmap string string);
  d_action : option string;
  d_selector : option string;
  d_value : option string;
  d_reasoning : option string;
  d_label : option string;
  d_screenshot : option string;
  d_url : option string;
  d_findings : option (list Vuln);
  d_iterations_completed : option Z;
  d_message : option string;
  d_error : option string;
  d_vulnerability : option Vuln;
}.

Definition no_data : EventData :=
  {| d_role := None; d_target := None; d_status := None; d_thought := None;
     d_iteration := None; d_total := None; d_decision := None;
     d_action := None; d_selector := None; d_value := None;
     d_reasoning := None; d_label := None; d_screenshot := None;
     d_url := None; d_findings := None; d_iterations_completed := None;
     d_message := None; d_error := None; d_vulnerability := None |}.

(** [{ type, agentId, role, scanId, data }]; the timestamp is not read
    by any handler and is left out. *)
Record AgentEvent := {
  e_type : string;
  e_agentId : Z;
  e_role : string;
  e_scanId : string;
  e_data : EventData;
}.

End Wire.

(* ===================================================================== *)
(** ** Report: severity grouping of the report page                       *)
(* ===================================================================== *)

Module Report.

(** ["CRITICAL" | "HIGH" | "MEDIUM" | "LOW"]. *)
Inductive Severity := CRITICAL | HIGH | MEDIUM | LOW.

Definition severity_eqb (a b : Severity) : bool :=
  match a, b with
  | CRITICAL, CRITICAL | HIGH, HIGH | MEDIUM, MEDIUM | LOW, LOW => true
  | _, _ => false
  end.

Record ReportFinding := {
  id : string;
  severity : Severity;
  title : string;
  evidence : string;
  recommendation : string;
  agent_type : string;
}.

(** The literal [(["CRITICAL", "HIGH", "MEDIUM", "LOW"] as const)]. *)
Definition severity_order : list Severity := [CRITICAL; HIGH; MEDIUM; LOW].

(** [findings.filter(f => f.severity === sev)]. *)
Definition group (findings : list ReportFinding) (sev : Severity) : list ReportFinding :=
  List.filter (fun f => severity_eqb (severity f) sev) findings.

(** The "Detailed Vulnerability Findings" block: one group per severity
    of [severity_order]; an empty group renders [null], a non-empty one
    renders one card per member.  React flattens the nested arrays, so
    the cards appear in the order of the concatenation. *)
Definition detailed_findings (findings : list ReportFinding) : list ReportFinding :=
  List.concat (List.map (fun sev =>
    let g := group findings sev in
    match g with
    | [] => []
    | _ => g
    end) severity_order).

(** Position of a severity in [severity_order]. *)
Definition rank (s : Severity) : nat :=
  match s with CRITICAL => 0 | HIGH => 1 | MEDIUM => 2 | LOW => 3 end.

End Report.

(* ===================================================================== *)
(** ** WsClient: the reducer of the useWebSocket hook                     *)
(* ===================================================================== *)

Module WsClient.
Import Wire.

Inductive Status := idle | started | thinking | acting | complete | error.
Inductive ScanStatus := running | completed | stopped | scan_error.

(** Entries of the [any[]] finding arrays: [event.data?.vulnerability ||
    event.data] is either the vulnerability object or the data object. *)
Inductive AnyVuln := OfVuln (v : Vuln) | OfData (d : EventData).

Record AgentState := {
  id : Z;
  role : string;
  name : string;
  status : Status;
  iteration : Z;
  totalIterations : Z;
  currentAction : string;
  reasoning : string;
  screenshot : string;
  a_findings : list AnyVuln;
}.

(** [{ ...vuln, agentId, role: agent.role }]. *)
Record TaggedFinding := {
  t_vuln : AnyVuln;
  t_agentId : Z;
  t_role : string;
}.

Record ScanWsState := {
  connected : bool;
  scanStatus : ScanStatus;
  agents : gmap Z AgentState;
  events : list AgentEvent;
  findings : list TaggedFinding;
  networkRequests : list EventData;
}.

(** JavaScript [a || b] on an optional string / number: [undefined], the
    empty string and [0] are falsy. *)
Definition str_or (o : option string) (d : string) : string :=
  match o with
  | Some s => if String.eqb s "" then d else s
  | None => d
  end.

Definition num_or (o : option Z) (d : Z) : Z :=
  match o with
  | Some n => if Z.eqb n 0 then d else n
  | None => d
  end.

(** Interpolation [${x}] of a possibly missing string. *)
Definition interp (o : option string) : string :=
  match o with Some s => s | None => "undefined" end.

Definition AGENT_NAMES (r : string) : option string :=
  if String.eqb r "sqli" then Some "SQL Injection"
  else if String.eqb r "xss" then Some "XSS"
  else if String.eqb r "auth" then Some "Auth Bypass"
  else if String.eqb r "idor" then Some "IDOR"
  else if String.eqb r "csrf" then Some "CSRF"
  else None.

Definition roles : list (Z * string) :=
  [(1, "sqli"); (2, "xss"); (3, "auth"); (4, "idor"); (5, "csrf")].

Definition defaultAgents : gmap Z AgentState :=
  List.fold_left (fun agents (r : Z * string) =>
    <[ fst r := {| id := fst r; role := snd r;
                   name := str_or (AGENT_NAMES (snd r)) (snd r);
                   status := idle; iteration := 0; totalIterations := 20;
                   currentAction := ""; reasoning := ""; screenshot := "";
                   a_findings := [] |} ]> agents) roles ∅.

Definition initial : ScanWsState :=
  {| connected := false; scanStatus := running; agents := defaultAgents;
     events := []; findings := []; networkRequests := [] |}.

(** Field assignments on the copied agent. *)
Definition set_status (v : Status) (a : AgentState) : AgentState :=
  {| id := id a; role := role a; name := name a; status := v;
     iteration := iteration a; totalIterations := totalIterations a;
     currentAction := currentAction a; reasoning := reasoning a;
     screenshot := screenshot a; a_findings := a_findings a |}.
Definition set_iteration (v : Z) (a : AgentState) : AgentState :=
  {| id := id a; role := role a; name := name a; status := status a;
     iteration := v; totalIterations := totalIterations a;
     currentAction := currentAction a; reasoning := reasoning a;
     screenshot := screenshot a; a_findings := a_findings a |}.
Definition set_totalIterations (v : Z) (a : AgentState) : AgentState :=
  {| id := id a; role := role a; name := name a; status := status a;
     iteration := iteration a; totalIterations := v;
     currentAction := currentAction a; reasoning := reasoning a;
     screenshot := screenshot a; a_findings := a_findings a |}.
Definition set_currentAction (v : string) (a : AgentState) : AgentState :=
  {| id := id a; role := role a; name := name a; status := status a;
     iteration := iteration a; totalIterations := totalIterations a;
     currentAction := v; reasoning := reasoning a;
     screenshot := screenshot a; a_findings := a_findings a |}.
Definition set_reasoning (v : string) (a : AgentState) : AgentState :=
  {| id := id a; role := role a; name := name a; status := status a;
     iteration := iteration a; totalIterations := totalIterations a;
     currentAction := currentAction a; reasoning := v;
     screenshot := screenshot a; a_findings := a_findings a |}.
Definition set_screenshot (v : string) (a : AgentState) : AgentState :=
  {| id := id a; role := role a; name := name a; status := status a;
     iteration := iteration a; totalIterations := totalIterations a;
     currentAction := currentAction a; reasoning := reasoning a;
     screenshot := v; a_findings := a_findings a |}.
Definition set_findings (v : list AnyVuln) (a : AgentState) : AgentState :=
  {| id := id a; role := role a; name := name a; status := status a;
     iteration := iteration a; totalIterations := totalIterations a;
     currentAction := currentAction a; reasoning := reasoning a;
     screenshot := screenshot a; a_findings := v |}.

(** [arr.slice(-n)]: the last [n] elements (all of them when shorter). *)
Definition slice_last {A} (n : nat) (l : list A) : list A :=
  drop (length l - n)%nat l.

(** The [switch (event.type)] inside the agent branch, on the copied
    agent; it also yields the aggregate finding list and the request
    log, which two of the cases replace. *)
Definition agent_case (prev : ScanWsState) (event : AgentEvent) (agent : AgentState)
  : AgentState * list TaggedFinding * list EventData :=
  let data := e_data event in
  let t := e_type event in
  let keep a := (a, findings prev, networkRequests prev) in
  if String.eqb t "agent.started" then keep (set_status started agent)
  else if String.eqb t "agent.thinking" then
    keep (set_currentAction (str_or (d_status data) "Thinking...")
           (set_status thinking agent))
  else if String.eqb t "agent.thought" then
    keep (set_reasoning (str_or (d_thought data) "") agent)
  else if String.eqb t "agent.decision" then
    let a1 := set_iteration (num_or (d_iteration data) (iteration agent))
                (set_status acting agent) in
    keep match d_decision data with
         | Some d =>
             set_reasoning (str_or (d !! "reasoning") "")
               (set_currentAction
                  (interp (d !! "action") +:+ ": " +:+
                   str_or (d !! "selector") (str_or (d !! "value") "")) a1)
         | None => a1
         end
  else if String.eqb t "agent.action" then
    keep (set_reasoning (str_or (d_reasoning data) (reasoning agent))
           (set_currentAction
              (interp (d_action data) +:+ ": " +:+ str_or (d_selector data) "")
              (set_status acting agent)))
  else if String.eqb t "agent.iteration" then
    keep (set_totalIterations (num_or (d_total data) 10)
           (set_iteration (num_or (d_iteration data) (iteration agent)) agent))
  else if String.eqb t "agent.screenshot" then
    keep (set_screenshot (str_or (d_screenshot data) "") agent)
  else if String.eqb t "agent.complete" then
    keep (set_findings (default [] (List.map OfVuln <$> d_findings data))
           (set_status complete agent))
  else if String.eqb t "agent.error" then
    keep (set_currentAction
            (str_or (d_message data) (str_or (d_error data) "Error"))
            (set_status error agent))
  else if String.eqb t "vulnerability.found" then
    let vuln := match d_vulnerability data with
                | Some v => OfVuln v
                | None => OfData data
                end in
    (set_findings (a_findings agent ++ [vuln]) agent,
     findings prev ++ [{| t_vuln := vuln; t_agentId := e_agentId event;
                          t_role := role agent |}],
     networkRequests prev)
  else if String.eqb t "network.request" then
    (agent, findings prev, slice_last 100 (networkRequests prev) ++ [data])
  else keep agent.

(** [handleEvent]: the state update passed to [setState]. *)
Definition handleEvent (event : AgentEvent) (prev : ScanWsState) : ScanWsState :=
  let events' := events prev ++ [event] in
  let agentId := e_agentId event in
  let '(agents', findings', net') :=
    match (if Z.eqb agentId 0 then None else agents prev !! agentId) with
    | Some agent0 =>
        let '(agent, fs, net) := agent_case prev event agent0 in
        (<[agentId := agent]> (agents prev), fs, net)
    | None => (agents prev, findings prev, networkRequests prev)
    end in
  let scanStatus' :=
    if String.eqb (e_type event) "scan.complete" then completed
    else if String.eqb (e_type event) "scan.stopped" then stopped
    else scanStatus prev in
  {| connected := connected prev; scanStatus := scanStatus';
     agents := agents'; events := events'; findings := findings';
     networkRequests := net' |}.

(** [{ ...prev, connected: b }]. *)
Definition set_connected (b : bool) (prev : ScanWsState) : ScanWsState :=
  {| connected := b; scanStatus := scanStatus prev; agents := agents prev;
     events := events prev; findings := findings prev;
     networkRequests := networkRequests prev |}.

Definition onopen : ScanWsState -> ScanWsState := set_connected true.
Definition onerror : ScanWsState -> ScanWsState := set_connected false.
Definition onclose : ScanWsState -> ScanWsState := set_connected false.

(** [ws.onmessage]: a frame that does not parse is ignored.  [parse]
    stands for [JSON.parse]. *)
Definition onmessage (parse : string -> option AgentEvent)
    (frame : string) (prev : ScanWsState) : ScanWsState :=
  match parse frame with
  | Some event => handleEvent event prev
  | None => prev
  end.

(** The socket callbacks, as inputs of the hook's state machine. *)
Inductive SocketSignal := SigOpen | SigError | SigClose.

Definition on_signal (s : SocketSignal) : ScanWsState -> ScanWsState :=
  match s with
  | SigOpen => onopen
  | SigError => onerror
  | SigClose => onclose
  end.

(** The panel header text [{agent.iteration}/{agent.totalIterations}],
    as the pair of numbers it prints. *)
Definition iteration_counter (a : AgentState) : Z * Z :=
  (iteration a, totalIterations a).

End WsClient.

(* ===================================================================== *)
(** ** LiveView: change-feed and polling handlers of RunDetails           *)
(* ===================================================================== *)

Module LiveView.

Record SecurityRun := {
  r_id : string;
  r_target_url : string;
  r_status : string;
}.

Record AgentSession := {
  s_id : string;
  s_run_id : string;
  s_agent_type : string;
  s_status : string;
  s_progress : Z;
}.

Record RunEvent := {
  ev_id : string;
  ev_run_id : string;
  ev_agent_type : string;
  ev_event_type : string;
  ev_message : string;
  ev_created_at : Z;
}.

Record Finding := {
  f_id : string;
  f_run_id : string;
  f_agent_type : string;
  f_severity : string;
  f_title : string;
}.

(** The four [useState] cells of the component. *)
Record ViewState := {
  run : option SecurityRun;
  sessions : list AgentSession;
  events : list RunEvent;
  findings : list Finding;
}.

Definition initial : ViewState :=
  {| run := None; sessions := []; events := []; findings := [] |}.

(** What one round of [fetchData] obtained; a query without [data]
    leaves its cell alone.  The four assignments of a round are taken as
    one step. *)
Record FetchResult := {
  runRes : option SecurityRun;
  sessRes : option (list AgentSession);
  eventRes : option (list RunEvent);
  findRes : option (list Finding);
}.

Definition fetchData (res : FetchResult) (st : ViewState) : ViewState :=
  {| run := match runRes res with Some r => Some r | None => run st end;
     sessions := default (sessions st) (sessRes res);
     events := default (events st) (eventRes res);
     findings := default (findings st) (findRes res) |}.

(** [prev.findIndex(s => s.id === newSession.id)], [None] for [-1]. *)
Definition findIndex (newSession : AgentSession) (prev : list AgentSession) : option nat :=
  fst <$> list_find (fun s => s_id s = s_id newSession) prev.

(** The [agent_sessions] callback applied to the session list. *)
Definition merge_session (newSession : AgentSession) (prev : list AgentSession)
  : list AgentSession :=
  match findIndex newSession prev with
  | None => prev ++ [newSession]
  | Some idx => <[idx := newSession]> prev
  end.

(** The [run_events] callback: [[payload.new, ...prev].slice(0, 50)]. *)
Definition push_event (e : RunEvent) (prev : list RunEvent) : list RunEvent :=
  take 50 (e :: prev).

(** The [findings] callback: [[...prev, payload.new]]. *)
Definition push_finding (f : Finding) (prev : list Finding) : list Finding :=
  prev ++ [f].

(** Everything that can be delivered to the component. *)
Inductive Delivery :=
| RunChange (new : option SecurityRun)
| SessionChange (new : AgentSession)
| EventInsert (new : RunEvent)
| FindingInsert (new : Finding)
| Poll (res : FetchResult).

Definition deliver (d : Delivery) (st : ViewState) : ViewState :=
  match d with
  | RunChange new =>
      {| run := match new with Some r => Some r | None => run st end;
         sessions := sessions st; events := events st; findings := findings st |}
  | SessionChange new =>
      {| run := run st; sessions := merge_session new (sessions st);
         events := events st; findings := findings st |}
  | EventInsert new =>
      {| run := run st; sessions := sessions st;
         events := push_event new (events st); findings := findings st |}
  | FindingInsert new =>
      {| run := run st; sessions := sessions st; events := events st;
         findings := push_finding new (findings st) |}
  | Poll res => fetchData res st
  end.


End LiveView.

(* ===================================================================== *)
(** ** Orchestrator: AgentOrchestrator                                    *)
(* ===================================================================== *)

Module Orchestrator.

(** A spawned child process, with the two properties set on it. *)
Record Proc := {
  agentId : Z;
  role : string;
  p_scan : string;
  p_target : string;
}.

(** [this.activeAgents] together with the process-level effects of the
    class: the children spawned so far and the [kill] calls issued. *)
Record State := {
  activeAgents : gmap string (list Proc);
  spawned : list Proc;
  killed : list Proc;
}.

Definition agents_roster : list (Z * string) :=
  [(1, "sqli"); (2, "xss"); (3, "auth"); (4, "idor"); (5, "csrf")].

Definition spawnAgent (scanId : string) (agent : Z * string) (targetUrl : string) : Proc :=
  {| agentId := fst agent; role := snd agent; p_scan := scanId; p_target := targetUrl |}.

(** [startScan]: returns [{ scanId, agentsSpawned }] and the new state. *)
Definition startScan (scanId targetUrl : string) (st : State) : (string * nat) * State :=
  let agentProcesses := List.map (fun a => spawnAgent scanId a targetUrl) agents_roster in
  ((scanId, length agents_roster),
   {| activeAgents := <[scanId := agentProcesses]> (activeAgents st);
      spawned := spawned st ++ agentProcesses;
      killed := killed st |}).

(** [stopScan]: an early [return] when no entry is registered;
    otherwise every child is sent [kill] and the entry is deleted.  The
    method has no throwing path, so it is a total function of the state. *)
Definition stopScan (scanId : string) (st : State) : State :=
  match activeAgents st !! scanId with
  | None => st
  | Some agents =>
      {| activeAgents := delete scanId (activeAgents st);
         spawned := spawned st;
         killed := killed st ++ agents |}
  end.


End Orchestrator.

(* ===================================================================== *)
(** ** Harness: SecurityAgent of agents/agent_harness.py                  *)
(* ===================================================================== *)

Module Harness.
Import Text Wire.

(** The Playwright page as the agent uses it.  A call that raises
    returns the exception text next to the page it leaves behind. *)
Record Browser := {
  Page : Type;
  url : Page -> string;
  title : Page -> string;
  content : Page -> string;
  cookies : Page -> list string;
  localStorage_keys : Page -> list string;
  goto : string -> Page -> Page * option string;
  fill : string -> string -> Page -> Page * option string;
  click : string -> Page -> Page * option string;
  screenshot : Page -> option string;
}.

(** The dictionary returned by [capture_state]. *)
Record Snapshot := {
  st_url : string;
  st_title : string;
  st_html : string;
  st_cookies : list string;
  st_localStorage : list string;
}.

(** What lies outside the script: the browser, the model behind
    [client.messages.create] (given the iteration, the role, the
    snapshot and the number of findings that the prompt is built from;
    [None] when the call or the extraction of the text raises) and
    [json.loads] ([None] when it raises).  Decisions are dictionaries
    with string values, as the prompt asks for.  Two functions of the
    interpreter's Unicode tables are left uninterpreted: [str_lower] is
    [str.lower()], and [re_digit s] tells whether [\d] matches a
    character at the start of [s] (for a [str] pattern, any Unicode
    decimal digit). *)
Record Env := {
  browser : Browser;
  claude : nat -> string -> Snapshot -> nat -> option string;
  json_loads : string -> option (gmap string string);
  str_lower : string -> string;
  re_digit : string -> bool;
}.

(** The constructor arguments. *)
Record Config := {
  agent_id : Z;
  role : string;
  target_url : string;
  scan_id : string;
}.

(** A browser call issued by [execute_action] or [run]. *)
Inductive BrowserCall :=
| Fill (selector value : string)
| Click (selector : string)
| Goto (target : string).

(** The mutable part: the fields [findings] and [iteration_count], the
    messages handed to [ws.send], the page, and the browser calls issued
    so far.  [sent] holds the messages of the agent's own control flow.
    The network.request and network.response messages are sent by the
    listeners registered with [page.on], at moments the browser
    chooses; they are not part of [sent], and statements about what a
    dashboard receives take them in on the receiving side
    ([RunTypes.on_the_wire]). *)
Record Agent (B : Browser) := {
  findings : list Vuln;
  iteration_count : Z;
  sent : list AgentEvent;
  page : Page B;
  calls : list BrowserCall;
}.
Arguments findings {B}.
Arguments iteration_count {B}.
Arguments sent {B}.
Arguments page {B}.
Arguments calls {B}.

(** The outcome of [run]: it returns, or an exception leaves it. *)
Inductive Outcome (B : Browser) :=
| Returned (a : Agent B)
| Raised (msg : string) (a : Agent B).
Arguments Returned {B}.
Arguments Raised {B}.

Section Agent.
Context (env : Env) (cfg : Config).
Local Abbreviation B := (browser env).

Definition send_event (event_type : string) (data : EventData) (a : Agent B) : Agent B :=
  {| findings := findings a; iteration_count := iteration_count a;
     sent := sent a ++ [{| e_type := event_type; e_agentId := agent_id cfg;
                           e_role := role cfg; e_scanId := scan_id cfg;
                           e_data := data |}];
     page := page a; calls := calls a |}.

Definition capture_state (p : Page B) : Snapshot :=
  {| st_url := url B p; st_title := title B p;
     st_html := str_take 2000 (content B p);
     st_cookies := cookies B p;
     st_localStorage := localStorage_keys B p |}.

Definition required_fields : list string :=
  ["action"; "selector"; "value"; "reasoning"].

(** [all(field in decision for field in required_fields)]. *)
Definition has_required (decision : gmap string string) : bool :=
  forallb (fun field => bool_decide (is_Some (decision !! field))) required_fields.

(** The part of [get_next_action] after the model has answered. *)
Definition parse_decision (response_text : string) : option (gmap string string) :=
  match re_search_object response_text with
  | None => None
  | Some json_match =>
      match json_loads env json_match with
      | None => None
      | Some decision => if has_required decision then Some decision else None
      end
  end.

Definition get_next_action (iteration : nat) (state : Snapshot) (a : Agent B)
  : option (gmap string string) * Agent B :=
  let a1 := send_event "agent.thinking"
              {| d_role := None; d_target := None;
                 d_status := Some "Asking Claude for next action...";
                 d_thought := None; d_iteration := None; d_total := None;
                 d_decision := None; d_action := None; d_selector := None;
                 d_value := None; d_reasoning := None; d_label := None;
                 d_screenshot := None; d_url := None; d_findings := None;
                 d_iterations_completed := None; d_message := None;
                 d_error := None; d_vulnerability := None |} a in
  match claude env iteration (role cfg) state (length (findings a)) with
  | None => (None, a1)
  | Some response_text =>
      let a2 := send_event "agent.thought"
                  {| d_role := None; d_target := None; d_status := None;
                     d_thought := Some (str_take 200 response_text);
                     d_iteration := None; d_total := None;
                     d_decision := None; d_action := None; d_selector := None;
                     d_value := None; d_reasoning := None; d_label := None;
                     d_screenshot := None; d_url := None; d_findings := None;
                     d_iterations_completed := None; d_message := None;
                     d_error := None; d_vulnerability := None |} a1 in
      (parse_decision response_text, a2)
  end.

(** [decision[k]] on a validated decision, [decision.get(k, '')]
    otherwise: both read the key, and [run] only passes dictionaries
    that hold the four required keys. *)
Definition getitem (decision : gmap string string) (k : string) : string :=
  default EmptyString (decision !! k).

(** One Playwright call: the page it leaves, the call recorded. *)
Definition issue (c : BrowserCall) (a : Agent B) : Agent B * option string :=
  let '(p, exn) := match c with
                   | Fill selector value => fill B selector value (page a)
                   | Click selector => click B selector (page a)
                   | Goto target => goto B target (page a)
                   end in
  ({| findings := findings a; iteration_count := iteration_count a;
      sent := sent a; page := p; calls := calls a ++ [c] |}, exn).

Definition execute_action (decision : gmap string string) (a : Agent B) : Agent B :=
  let action := getitem decision "action" in
  let selector := getitem decision "selector" in
  let value := getitem decision "value" in
  let a1 := send_event "agent.action"
              {| d_role := None; d_target := None; d_status := None;
                 d_thought := None; d_iteration := None; d_total := None;
                 d_decision := None; d_action := Some action;
                 d_selector := Some selector; d_value := Some value;
                 d_reasoning := Some (getitem decision "reasoning");
                 d_label := None; d_screenshot := None; d_url := None;
                 d_findings := None; d_iterations_completed := None;
                 d_message := None; d_error := None;
                 d_vulnerability := None |} a in
  let attempt :=
    if String.eqb action "fill" then Some (Fill selector value)
    else if String.eqb action "click" then Some (Click selector)
    else if String.eqb action "navigate" then Some (Goto value)
    else None in
  match attempt with
  | None => a1
  | Some c =>
      match issue c a1 with
      | (a2, None) => a2
      | (a2, Some e) =>
          send_event "agent.error"
            {| d_role := None; d_target := None; d_status := None;
               d_thought := None; d_iteration := None; d_total := None;
               d_decision := None; d_action := Some action;
               d_selector := None; d_value := None; d_reasoning := None;
               d_label := None; d_screenshot := None; d_url := None;
               d_findings := None; d_iterations_completed := None;
               d_message := None; d_error := Some e;
               d_vulnerability := None |} a2
      end
  end.

(** A vulnerability dictionary with the keys every role sets. *)
Definition vuln (type severity location evidence cwe : string) (cvss : Z)
    (field payload method form : option string) : Vuln :=
  {| v_type := type; v_severity := severity; v_location := location;
     v_field := field; v_payload := payload; v_method := method;
     v_form := form; v_evidence := evidence; v_cwe := cwe;
     v_cvss_tenths := cvss |}.

Definition sql_indicators : list string :=
  ["sql syntax"; "mysql"; "postgresql"; "sqlite"; "database error";
   "you have an error in your sql"; "warning: mysql";
   "unclosed quotation mark"].

(** The one-character string holding a double quote. *)
Definition dquote : string := String (ascii_of_nat 34) EmptyString.

(** The list of the test [any(char in payload for char in ...)]. *)
Definition sql_syntax : list string := ["'"; dquote; "--"; ";"; "UNION"].

Definition auth_indicators : list string :=
  ["welcome"; "dashboard"; "logout"; "admin panel"].

Definition xss_tags : list string :=
  ["<script"; "<img"; "<svg"; "onerror"; "onload"].

(** Some occurrence of [p] in [s] is followed by a character that
    [\d] matches. *)
Fixpoint then_digit (p s : string) : bool :=
  (String.prefix p s && re_digit env (str_drop (String.length p) s))
  || match s with
     | EmptyString => false
     | String _ rest => then_digit p rest
     end.

(** [re.search(r'/(users?|accounts?|profiles?)/\d+', current_url)]. *)
Definition idor_path (current_url : string) : bool :=
  existsb (fun p => then_digit p current_url)
    ["/user/"; "/users/"; "/account/"; "/accounts/"; "/profile/"; "/profiles/"].

(** [check_for_vulnerability(page, decision, previous_state)]. *)
Definition check_for_vulnerability (p : Page B) (decision : gmap string string)
    (previous_state : Snapshot) : option Vuln :=
  let current_content := content B p in
  let current_url := url B p in
  if String.eqb (role cfg) "sqli" then
    let payload := getitem decision "value" in
    if any_in sql_syntax payload then
      let bypass :=
        if any_in auth_indicators (str_lower env current_content) then
          if negb (String.eqb (st_url previous_state) current_url)
             || negb (contains "login" (str_lower env current_url))
          then Some (vuln "SQL Injection - Authentication Bypass" "CRITICAL"
                       current_url
                       "Authentication bypassed with SQL injection payload"
                       "CWE-89" 98 (decision !! "selector") (Some payload)
                       None None)
          else None
        else None in
      match bypass with
      | Some v => Some v
      | None =>
          if any_in sql_indicators (str_lower env current_content)
          then Some (vuln "SQL Injection - Error-Based" "HIGH" current_url
                       ("Database error exposed: " +:+ str_take 200 current_content)
                       "CWE-89" 75 (decision !! "selector") (Some payload)
                       None None)
          else None
      end
    else None
  else if String.eqb (role cfg) "xss" then
    let payload := getitem decision "value" in
    if any_in xss_tags payload then
      if contains payload current_content
      then Some (vuln "Reflected XSS" "HIGH" current_url
                   "Payload reflected unsanitized in response" "CWE-79" 71
                   (decision !! "selector") (Some payload) None None)
      else None
    else None
  else if String.eqb (role cfg) "auth" then
    if any_in ["admin"; "dashboard"; "welcome"; "logout"] (str_lower env current_content)
    then if contains "admin" (str_lower env current_url)
            || contains "dashboard" (str_lower env current_url)
         then Some (vuln "Authentication Bypass" "CRITICAL" current_url
                      "Accessed privileged area without authentication"
                      "CWE-287" 91 None None (decision !! "reasoning") None)
         else None
    else None
  else if String.eqb (role cfg) "idor" then
    if String.eqb (getitem decision "action") "navigate" then
      if any_in ["email"; "phone"; "address"; "ssn"; "credit card"]
           (str_lower env current_content)
      then if idor_path current_url
           then Some (vuln "Insecure Direct Object Reference (IDOR)" "HIGH"
                        current_url
                        "Accessed user data by manipulating ID parameter"
                        "CWE-639" 81 None None None None)
           else None
      else None
    else None
  else if String.eqb (role cfg) "csrf" then
    if String.eqb (getitem decision "action") "fill" then
      if negb (contains "csrf" (str_lower env current_content))
         && negb (contains "token" (str_lower env current_content))
      then Some (vuln "Missing CSRF Protection" "MEDIUM" current_url
                   "State-changing form lacks CSRF token" "CWE-352" 65
                   None None None (decision !! "selector"))
      else None
    else None
  else None.

(** [take_screenshot]: a failing capture is only printed. *)
Definition take_screenshot (label : string) (a : Agent B) : Agent B :=
  match screenshot B (page a) with
  | None => a
  | Some screenshot_b64 =>
      send_event "agent.screenshot"
        {| d_role := None; d_target := None; d_status := None;
           d_thought := None; d_iteration := None; d_total := None;
           d_decision := None; d_action := None; d_selector := None;
           d_value := None; d_reasoning := None; d_label := Some label;
           d_screenshot := Some screenshot_b64;
           d_url := Some (url B (page a)); d_findings := None;
           d_iterations_completed := None; d_message := None;
           d_error := None; d_vulnerability := None |} a
  end.

Definition set_iteration_count (n : Z) (a : Agent B) : Agent B :=
  {| findings := findings a; iteration_count := n; sent := sent a;
     page := page a; calls := calls a |}.

Definition add_finding (v : Vuln) (a : Agent B) : Agent B :=
  {| findings := findings a ++ [v]; iteration_count := iteration_count a;
     sent := sent a; page := page a; calls := calls a |}.

(** The part of the loop body after a decision was obtained. *)
Definition act_on (decision : gmap string string) (state : Snapshot) (a : Agent B)
  : Agent B :=
  let a1 := send_event "agent.decision"
              {| d_role := None; d_target := None; d_status := None;
                 d_thought := None; d_iteration := Some (iteration_count a);
                 d_total := None; d_decision := Some decision;
                 d_action := None; d_selector := None; d_value := None;
                 d_reasoning := None; d_label := None; d_screenshot := None;
                 d_url := None; d_findings := None;
                 d_iterations_completed := None; d_message := None;
                 d_error := None; d_vulnerability := None |} a in
  let a2 := execute_action decision a1 in
  let a3 := match check_for_vulnerability (page a2) decision state with
            | Some vulnerability =>
                send_event "vulnerability.found"
                  {| d_role := None; d_target := None; d_status := None;
                     d_thought := None; d_iteration := None; d_total := None;
                     d_decision := None; d_action := None; d_selector := None;
                     d_value := None; d_reasoning := None; d_label := None;
                     d_screenshot := None; d_url := None; d_findings := None;
                     d_iterations_completed := None; d_message := None;
                     d_error := None; d_vulnerability := Some vulnerability |}
                  (add_finding vulnerability a2)
            | None => a2
            end in
  take_screenshot ("iteration_" +:+ pretty (iteration_count a)) a3.

(** The body of [for iteration in range(10)].  [if not decision] holds
    for [None] and for an empty dictionary.  [capture_state] and
    [check_for_vulnerability] are called outside any [try]: the body is
    given for the iterations in which these calls return, which are all
    the iterations of a run that returns. *)
Definition loop_body (iteration : nat) (a : Agent B) : Agent B :=
  let a1 := set_iteration_count (Z.of_nat iteration + 1) a in
  let state := capture_state (page a1) in
  match get_next_action iteration state a1 with
  | (None, a2) => a2
  | (Some decision, a2) =>
      if bool_decide (decision = ∅) then a2 else act_on decision state a2
  end.

(** [range(10)]. *)
Definition iterations : list nat := seq 0 10.

(** The loop over a list of iteration indices, left to right. *)
Definition loop_over (its : list nat) (a : Agent B) : Agent B :=
  List.fold_left (fun acc iteration => loop_body iteration acc) its a.

Definition main_loop (a : Agent B) : Agent B := loop_over iterations a.

(** [run]: the first [page.goto] is outside any [try], and [Raised] is
    the run that this call ends; [Returned] is the run in which it and
    the calls of the loop return. *)
Definition run (a : Agent B) : Outcome B :=
  let a1 := send_event "agent.started"
              {| d_role := Some (role cfg); d_target := Some (target_url cfg);
                 d_status := None; d_thought := None; d_iteration := None;
                 d_total := None; d_decision := None; d_action := None;
                 d_selector := None; d_value := None; d_reasoning := None;
                 d_label := None; d_screenshot := None; d_url := None;
                 d_findings := None; d_iterations_completed := None;
                 d_message := None; d_error := None;
                 d_vulnerability := None |} a in
  match issue (Goto (target_url cfg)) a1 with
  | (a2, Some e) => Raised e a2
  | (a2, None) =>
      let a3 := main_loop (take_screenshot "initial_load" a2) in
      Returned
        (send_event "agent.complete"
           {| d_role := None; d_target := None; d_status := None;
              d_thought := None; d_iteration := None; d_total := None;
              d_decision := None; d_action := None; d_selector := None;
              d_value := None; d_reasoning := None; d_label := None;
              d_screenshot := None; d_url := None;
              d_findings := Some (findings a3);
              d_iterations_completed := Some (iteration_count a3);
              d_message := None; d_error := None;
              d_vulnerability := None |} a3)
  end.

End Agent.

(** [SecurityAgent.__init__]: no findings, iteration 0, nothing sent;
    [run] opens the page. *)
Definition init (B : Browser) (blank : Page B) : Agent B :=
  {| findings := []; iteration_count := 0; sent := []; page := blank;
     calls := [] |}.

End Harness.

(* ===================================================================== *)
(** ** Url: the host of an address                                        *)
(* ===================================================================== *)

Module Url.

(** What follows the scheme separator, the whole text when there is none. *)
Definition strip_scheme (u : string) : string :=
  match String.index 0 "://" u with
  | Some i => String.substring (i + 3) (String.length u) u
  | None => u
  end.

Definition is_delimiter (c : ascii) : bool :=
  Ascii.eqb c "/" || Ascii.eqb c "?" || Ascii.eqb c "#" || Ascii.eqb c ":".

Fixpoint until_delimiter (s : string) : string :=
  match s with
  | EmptyString => EmptyString
  | String c rest => if is_delimiter c then EmptyString
                     else String c (until_delimiter rest)
  end.

(** The host of an absolute URL.  The harness has no such function; it
    serves to state what a domain guard would compare. *)
Definition host_of (u : string) : string := until_delimiter (strip_scheme u).

End Url.

(* ===================================================================== *)
(** ** Demo: a concrete site, model and agent                             *)
(* ===================================================================== *)

Module Demo.
Import Text Wire Harness.

Record SimplePage := { sp_url : string; sp_html : string }.

(** A site serving [html u] at every address [u]; filling and clicking
    leave the page as it is, and no call raises. *)
Definition static_site (html : string -> string) : Browser :=
  {| Page := SimplePage;
     url := sp_url;
     title := fun _ => "Shop";
     content := sp_html;
     cookies := fun _ => [];
     localStorage_keys := fun _ => [];
     goto := fun u _ => ({| sp_url := u; sp_html := html u |}, None);
     fill := fun _ _ p => (p, None);
     click := fun _ p => (p, None);
     screenshot := fun _ => Some "iVBORw0KGgo=" |}.

Definition quoted (s : string) : string := dquote +:+ s +:+ dquote.

Definition member (k v : string) : string := quoted k +:+ ": " +:+ quoted v.

(** The answer of the model: one JSON object asking to leave the site. *)
Definition navigate_reply : string :=
  "{" +:+ member "action" "navigate" +:+ ", "
      +:+ member "selector" "https://evil.test/steal" +:+ ", "
      +:+ member "value" "https://evil.test/steal" +:+ ", "
      +:+ member "reasoning" "follow the link" +:+ "}".

Definition navigate_decision : gmap string string :=
  {[ "action" := "navigate";
     "selector" := "https://evil.test/steal";
     "value" := "https://evil.test/steal";
     "reasoning" := "follow the link" ]}.

(** [json.loads] restricted to the one text this model produces. *)
Definition table_loads (text : string) : option (gmap string string) :=
  if String.eqb text navigate_reply then Some navigate_decision else None.

(** The sample texts are ASCII, where [str.lower()] lowers the letters
    A to Z and [\d] matches 0 to 9: these are the two functions the
    sample environments give for the interpreter's tables. *)
Definition env : Env :=
  {| browser := static_site (fun _ => "<html><body>hello</body></html>");
     claude := fun _ _ _ _ => Some navigate_reply;
     json_loads := table_loads;
     str_lower := lower;
     re_digit := ascii_digit_head |}.

(** A model that answers in prose, without any object. *)
Definition chatty_env : Env :=
  {| browser := static_site (fun _ => "<html><body>hello</body></html>");
     claude := fun _ _ _ _ => Some "I would try the login form first.";
     json_loads := table_loads;
     str_lower := lower;
     re_digit := ascii_digit_head |}.

Definition cfg : Config :=
  {| agent_id := 1; role := "sqli";
     target_url := "https://shop.example/login"; scan_id := "scan-1" |}.

Definition xss_cfg : Config :=
  {| agent_id := 2; role := "xss";
     target_url := "https://shop.example/search"; scan_id := "scan-1" |}.

Definition login_page : SimplePage :=
  {| sp_url := "https://shop.example/login";
     sp_html := "<html><body>hello</body></html>" |}.

Definition blank_page : SimplePage :=
  {| sp_url := "about:blank"; sp_html := EmptyString |}.

(** Decisions and pages for the role heuristics. *)
Definition tautology_decision : gmap string string :=
  {[ "action" := "fill";
     "selector" := "input[name=user]";
     "value" := "' OR '1'='1'--";
     "reasoning" := "try a tautology" ]}.

Definition xss_decision : gmap string string :=
  {[ "action" := "fill";
     "selector" := "input[name=q]";
     "value" := "<script>alert(1)</script>";
     "reasoning" := "try a script tag" ]}.

Definition snapshot_at (u : string) : Snapshot :=
  {| st_url := u; st_title := "Shop"; st_html := EmptyString;
     st_cookies := []; st_localStorage := [] |}.

(** An account page that greets the user and leaks a driver warning. *)
Definition account_page : SimplePage :=
  {| sp_url := "https://shop.example/account";
     sp_html := "<h1>Welcome back</h1><pre>Warning: mysql_fetch_array()</pre>" |}.

(** A public home page that greets every visitor. *)
Definition home_page : SimplePage :=
  {| sp_url := "https://shop.example/home";
     sp_html := "<h1>Welcome to the shop</h1>" |}.

(** The login page answering with a database error. *)
Definition error_page : SimplePage :=
  {| sp_url := "https://shop.example/login";
     sp_html := "You have an error in your SQL syntax near line 1" |}.

(** A result page that echoes the query as it was typed. *)
Definition reflecting_page : SimplePage :=
  {| sp_url := "https://shop.example/search";
     sp_html := "<p>Results for <script>alert(1)</script></p>" |}.

End Demo.

(* ===================================================================== *)
(** ** Props: the specified properties, as predicates                    *)
(* ===================================================================== *)

Module Props.
Import Text Wire Harness.

(** A decision that asks to navigate to an address whose host differs
    from the host of the target. *)
Definition off_domain (cfg : Config) (decision : gmap string string) : Prop :=
  getitem decision "action" = "navigate"
  /\ Url.host_of (getitem decision "value") <> Url.host_of (target_url cfg).

(** The domain guard on one executed decision: the address is not handed
    to the browser, the page stays on the target's host, and some event
    other than the announcement of the action records the rejection. *)
Definition domain_guard (env : Env) (cfg : Config)
    (decision : gmap string string) (a : Agent (browser env)) : Prop :=
  off_domain cfg decision ->
  (Goto (getitem decision "value")
     ∉ drop (length (calls a)) (calls (execute_action env cfg decision a)))
  /\ Url.host_of (url (browser env) (page (execute_action env cfg decision a)))
     = Url.host_of (target_url cfg)
  /\ exists e,
       (e ∈ drop (length (sent a)) (sent (execute_action env cfg decision a)))
       /\ e_type e <> "agent.action".

(** "A finding of this severity is reported". *)
Definition reports (env : Env) (cfg : Config) (p : Page (browser env))
    (decision : gmap string string) (previous_state : Snapshot)
    (severity : string) : Prop :=
  exists v, check_for_vulnerability env cfg p decision previous_state = Some v
            /\ v_severity v = severity.

(** The SQL-injection heuristics as two independent equivalences: HIGH
    exactly for an error signature after a payload with SQL syntax,
    CRITICAL exactly for an authenticated-looking page after such a
    payload when the previous page was a login page. *)
Definition sqli_high_exactly (env : Env) (cfg : Config) (p : Page (browser env))
    (decision : gmap string string) (previous_state : Snapshot) : Prop :=
  reports env cfg p decision previous_state "HIGH"
  <-> any_in sql_syntax (getitem decision "value") = true
      /\ any_in sql_indicators (str_lower env (content (browser env) p)) = true.

Definition sqli_critical_exactly (env : Env) (cfg : Config)
    (p : Page (browser env)) (decision : gmap string string)
    (previous_state : Snapshot) : Prop :=
  reports env cfg p decision previous_state "CRITICAL"
  <-> any_in sql_syntax (getitem decision "value") = true
      /\ any_in auth_indicators (str_lower env (content (browser env) p)) = true
      /\ contains "login" (str_lower env (st_url previous_state)) = true.

(** [needle] occurs in [hay] verbatim. *)
Definition occurs (needle hay : string) : Prop :=
  exists pre post, hay = pre +:+ needle +:+ post.


(** A delivery removes nothing from the event log or the finding list. *)
Definition keeps_history (d : LiveView.Delivery) (st : LiveView.ViewState) : Prop :=
  (forall e, e ∈ LiveView.events st -> e ∈ LiveView.events (LiveView.deliver d st))
  /\ (forall f, f ∈ LiveView.findings st ->
                f ∈ LiveView.findings (LiveView.deliver d st)).



(** A reply of the model from which no decision can be taken: no object
    in the text, an object that does not load, or a loaded object that
    lacks a required field. *)
Definition invalid_reply (env : Env) (response_text : string) : Prop :=
  match re_search_object response_text with
  | None => True
  | Some json_match =>
      match json_loads env json_match with
      | None => True
      | Some decision =>
          exists field, In field required_fields /\ decision !! field = None
      end
  end.

(** How many events of a type a list holds. *)
Definition count_type (t : string) (l : list AgentEvent) : nat :=
  length (List.filter (fun e => String.eqb (e_type e) t) l).

(** From [a] to [a'] the agent sent [k] agent.thinking events and no
    agent.iteration event, and kept its iteration counter. *)
Definition emits {B : Browser} (k : nat) (a a' : Agent B) : Prop :=
  iteration_count a' = iteration_count a
  /\ exists tail, sent a' = sent a ++ tail
                  /\ count_type "agent.thinking" tail = k
                  /\ count_type "agent.iteration" tail = 0%nat.

(** The dashboard state after a list of socket events, from the
    initial state of the hook. *)
Definition dashboard_after (l : list AgentEvent) : WsClient.ScanWsState :=
  List.fold_left (fun st e => WsClient.handleEvent e st) l WsClient.initial.

(** No brace occurs in the text. *)
Fixpoint brace_free (s : string) : bool :=
  match s with
  | EmptyString => true
  | String c rest =>
      negb (Ascii.eqb c "{") && negb (Ascii.eqb c "}") && brace_free rest
  end.

(** The text holds no object literal in the sense of the harness's
    pattern: nowhere an opening brace, a stretch without braces and a
    closing brace. *)
Definition no_object (text : string) : Prop :=
  ~ exists pre body post,
      text = pre +:+ "{" +:+ body +:+ "}" +:+ post /\ brace_free body = true.

End Props.

(* ===================================================================== *)
(** ** Fixtures for the live view and the orchestrator                    *)
(* ===================================================================== *)

Module Fixtures.
Import LiveView.

#[global] Instance RunEvent_eq_dec : EqDecision RunEvent.
Proof. solve_decision. Defined.

Definition numbered_event (i : nat) : RunEvent :=
  {| ev_id := "ev-" +:+ pretty i; ev_run_id := "run-1";
     ev_agent_type := "spider"; ev_event_type := "INFO";
     ev_message := "page crawled"; ev_created_at := Z.of_nat i |}.

(** A view whose log is full: fifty events, newest first. *)
Definition full_log : ViewState :=
  {| run := None; sessions := [];
     events := List.map numbered_event (rev (seq 0 50)); findings := [] |}.


Definition a_session : AgentSession :=
  {| s_id := "s-1"; s_run_id := "run-1"; s_agent_type := "spider";
     s_status := "RUNNING"; s_progress := 40 |}.



End Fixtures.

(* ===================================================================== *)
(** ** ScanPage: values derived by the scan-progress page                 *)
(* ===================================================================== *)

Module ScanPage.
Import Wire WsClient.

Definition id_le (a b : AgentState) : Prop := id a <= id b.

#[global] Instance id_le_dec (a b : AgentState) : Decision (id_le a b).
Proof. unfold id_le. apply _. Defined.

(** [Object.values(ws.agents).sort((a, b) => a.id - b.id)]. *)
Definition agentsArray (ws : ScanWsState) : list AgentState :=
  merge_sort id_le (snd <$> map_to_list (agents ws)).

Definition is_complete (a : AgentState) : bool :=
  match status a with complete => true | _ => false end.

(** [agentsArray.filter(a => a.status === "complete").length]. *)
Definition agentsComplete (ws : ScanWsState) : nat :=
  length (List.filter is_complete (agentsArray ws)).

(** The types the console shows. *)
Definition console_types : list string :=
  ["agent.started"; "agent.action"; "agent.decision"; "agent.error";
   "agent.log"; "agent.complete"; "vulnerability.found"; "agent.thought";
   "agent.thinking"; "agent.iteration"; "scan.complete"; "scan.stopped"].

(** [ws.events.filter(e => [...].includes(e.type))]. *)
Definition consoleEvents (ws : ScanWsState) : list AgentEvent :=
  List.filter (fun e => existsb (String.eqb (e_type e)) console_types) (events ws).

(** An event that [handleEvent] routes to a panel of [ws]: its agent id
    is truthy and a key of the agent map. *)
Definition addressed (ws : ScanWsState) (e : AgentEvent) : bool :=
  negb (Z.eqb (e_agentId e) 0) && bool_decide (is_Some (agents ws !! e_agentId e)).

(** The events of a list that report a vulnerability to a panel. *)
Definition vulnerability_events (ws : ScanWsState) (l : list AgentEvent)
  : list AgentEvent :=
  List.filter (fun e => String.eqb (e_type e) "vulnerability.found"
                        && addressed ws e) l.

(** The state after a list of socket events, from any state. *)
Definition after (l : list AgentEvent) (ws : ScanWsState) : ScanWsState :=
  List.fold_left (fun st e => handleEvent e st) l ws.

(** [String(n).padStart(2, "0")]. *)
Definition pad2 (n : nat) : string :=
  let s := pretty n in
  if (String.length s <? 2)%nat
  then String.concat EmptyString (replicate (2 - String.length s) "0") +:+ s
  else s.

(** [formatTime]: minutes and seconds, each padded to two digits. *)
Definition formatTime (s : nat) : string :=
  pad2 (s / 60) +:+ ":" +:+ pad2 (s mod 60).

End ScanPage.

(* ===================================================================== *)
(** ** Probe events for the socket client                                 *)
(* ===================================================================== *)

Module Probe.
Import Wire.

(** A network.request event of agent 1 carrying [d]. *)
Definition request_event (d : EventData) : AgentEvent :=
  {| e_type := "network.request"; e_agentId := 1; e_role := "sqli";
     e_scanId := "scan-1"; e_data := d |}.

(** A vulnerability.found event sent under an agent id. *)
Definition vulnerability_event (agent : Z) (v : Vuln) : AgentEvent :=
  {| e_type := "vulnerability.found"; e_agentId := agent; e_role := "sqli";
     e_scanId := "scan-1";
     e_data := {| d_role := None; d_target := None; d_status := None;
                  d_thought := None; d_iteration := None; d_total := None;
                  d_decision := None; d_action := None; d_selector := None;
                  d_value := None; d_reasoning := None; d_label := None;
                  d_screenshot := None; d_url := None; d_findings := None;
                  d_iterations_completed := None; d_message := None;
                  d_error := None; d_vulnerability := Some v |} |}.

Definition scan_event (t : string) : AgentEvent :=
  {| e_type := t; e_agentId := 0; e_role := EmptyString;
     e_scanId := "scan-1"; e_data := no_data |}.

Definition a_vuln : Vuln :=
  {| v_type := "Reflected XSS"; v_severity := "HIGH";
     v_location := "https://shop.example/search"; v_field := None;
     v_payload := None; v_method := None; v_form := None;
     v_evidence := "Payload reflected unsanitized in response";
     v_cwe := "CWE-79"; v_cvss_tenths := 71 |}.

End Probe.

(* ===================================================================== *)
(** ** RunProps: what a stretch of a harness run has done                 *)
(* ===================================================================== *)

Module RunProps.
Import Text Wire Harness.

(** [v] is a dictionary that [check_for_vulnerability] returns for some
    page, decision and previous state. *)
Definition checked (env : Env) (cfg : Config) (v : Vuln) : Prop :=
  exists p decision previous_state,
    check_for_vulnerability env cfg p decision previous_state = Some v.

(** From [a] to [a'] the agent only added messages, findings and
    browser calls: at most [kf] findings, each returned by the check and
    each announced by one vulnerability.found message, at most [kc]
    calls, no agent.complete message, and every message under the
    agent's own id. *)
Definition progress (env : Env) (cfg : Config) (kf kc : nat)
    (a a' : Agent (browser env)) : Prop :=
  exists tail newf newc,
    sent a' = sent a ++ tail
    /\ findings a' = findings a ++ newf
    /\ calls a' = calls a ++ newc
    /\ Props.count_type "vulnerability.found" tail = length newf
    /\ Props.count_type "agent.complete" tail = 0%nat
    /\ Forall (fun e => e_agentId e = agent_id cfg) tail
    /\ Forall (checked env cfg) newf
    /\ (length newf <= kf)%nat
    /\ (length newc <= kc)%nat.


(** The prefixes of the IDOR pattern before its digits. *)
Definition idor_prefixes : list string :=
  ["/user/"; "/users/"; "/account/"; "/accounts/"; "/profile/"; "/profiles/"].

End RunProps.

(* ===================================================================== *)
(** ** Cases: pages and decisions for the remaining roles                 *)
(* ===================================================================== *)

Module Cases.
Import Text Wire Harness Demo.

Definition auth_cfg : Config :=
  {| agent_id := 3; role := "auth";
     target_url := "https://shop.example/login"; scan_id := "scan-1" |}.

Definition idor_cfg : Config :=
  {| agent_id := 4; role := "idor";
     target_url := "https://shop.example/"; scan_id := "scan-1" |}.

Definition csrf_cfg : Config :=
  {| agent_id := 5; role := "csrf";
     target_url := "https://shop.example/profile"; scan_id := "scan-1" |}.

(** A configuration with a role the harness has no heuristic for. *)
Definition recon_cfg : Config :=
  {| agent_id := 6; role := "recon";
     target_url := "https://shop.example/"; scan_id := "scan-1" |}.

Definition admin_page : SimplePage :=
  {| sp_url := "https://shop.example/admin";
     sp_html := "<h1>Admin</h1><a href=/logout>Logout</a>" |}.

Definition user_page : SimplePage :=
  {| sp_url := "https://shop.example/api/users/2";
     sp_html := "{ name: Bob, Email: bob@shop.example }" |}.

Definition form_page : SimplePage :=
  {| sp_url := "https://shop.example/profile";
     sp_html := "<form method=post><input name=nick></form>" |}.

Definition visit_decision : gmap string string :=
  {[ "action" := "navigate";
     "selector" := "https://shop.example/api/users/2";
     "value" := "https://shop.example/api/users/2";
     "reasoning" := "try the next user id" ]}.

Definition hover_decision : gmap string string :=
  {[ "action" := "hover";
     "selector" := "#menu";
     "value" := EmptyString;
     "reasoning" := "open the menu" ]}.

(** A site whose pages never load: every navigation raises. *)
Definition unreachable_site : Browser :=
  {| Page := SimplePage;
     url := sp_url;
     title := fun _ => EmptyString;
     content := sp_html;
     cookies := fun _ => [];
     localStorage_keys := fun _ => [];
     goto := fun _ p => (p, Some "net::ERR_CONNECTION_REFUSED");
     fill := fun _ _ p => (p, Some "Timeout 5000ms exceeded");
     click := fun _ p => (p, Some "Timeout 5000ms exceeded");
     screenshot := fun _ => None |}.

Definition unreachable_env : Env :=
  {| browser := unreachable_site;
     claude := fun _ _ _ _ => Some navigate_reply;
     json_loads := table_loads;
     str_lower := lower;
     re_digit := ascii_digit_head |}.

End Cases.

(* ===================================================================== *)
(** ** RunEnd: the agent a run leaves behind                              *)
(* ===================================================================== *)

Module RunEnd.
Import Harness.

(** The agent when [run] has returned or raised. *)
Definition final {B : Browser} (o : Outcome B) : Agent B :=
  match o with
  | Returned a => a
  | Raised _ a => a
  end.

End RunEnd.

(* ===================================================================== *)
(** ** RunView: values derived by RunDetails and AgentLane                *)
(* ===================================================================== *)

Module RunView.
Import LiveView.

(** The event notifications of a list, delivered in order. *)
Definition notify_all (es : list RunEvent) (log : list RunEvent) : list RunEvent :=
  List.fold_left (fun acc e => push_event e acc) es log.

Definition is_summary (e : RunEvent) : bool :=
  String.eqb (ev_message e) "EXECUTIVE SUMMARY GENERATED".

(** [events.find(e => e.message === "EXECUTIVE SUMMARY GENERATED")]: the
    event whose presence shows the summary panel. *)
Definition executive_summary (log : list RunEvent) : option RunEvent :=
  List.find is_summary log.

(** [['QUEUED', 'RUNNING'].includes(s.status)]. *)
Definition is_active (s : AgentSession) : bool :=
  existsb (String.eqb (s_status s)) ["QUEUED"; "RUNNING"].

(** [['COMPLETED', 'FAILED'].includes(s.status)]. *)
Definition is_finished (s : AgentSession) : bool :=
  existsb (String.eqb (s_status s)) ["COMPLETED"; "FAILED"].

(** The lanes of the "Active Operations" grid. *)
Definition active_sessions (st : ViewState) : list AgentSession :=
  List.filter is_active (sessions st).

(** The rows of the "Completed Agents" list. *)
Definition completed_sessions (st : ViewState) : list AgentSession :=
  List.filter is_finished (sessions st).

(** [findings.filter(f => f.severity === sev).length]. *)
Definition count_severity (sev : string) (fs : list Finding) : nat :=
  length (List.filter (fun f => String.eqb (f_severity f) sev) fs).

Definition known_severity (f : Finding) : bool :=
  existsb (String.eqb (f_severity f)) ["CRITICAL"; "HIGH"; "MEDIUM"; "LOW"].

(** The session notifications of a list, delivered in order. *)
Definition merge_all (news : list AgentSession) (prev : list AgentSession)
  : list AgentSession :=
  List.fold_left (fun acc s => merge_session s acc) news prev.

End RunView.

(* ===================================================================== *)
(** ** Samples: rows for the live view                                    *)
(* ===================================================================== *)

Module Samples.
Import LiveView.

Definition summary_event : RunEvent :=
  {| ev_id := "ev-summary"; ev_run_id := "run-1"; ev_agent_type := "system";
     ev_event_type := "INFO"; ev_message := "EXECUTIVE SUMMARY GENERATED";
     ev_created_at := 1000 |}.

(** Fifty ordinary events, oldest first. *)
Definition fifty_events : list RunEvent :=
  List.map Fixtures.numbered_event (seq 0 50).

Definition session (i status : string) : AgentSession :=
  {| s_id := i; s_run_id := "run-1"; s_agent_type := "spider";
     s_status := status; s_progress := 0 |}.

End Samples.

(* ===================================================================== *)
(** ** Lanes: which session a lane of the live view shows                 *)
(* ===================================================================== *)

Module Lanes.
Import LiveView RunView.

(** The session rendered under React key [i]: the first entry of the
    list with that id. *)
Definition session_of (i : string) (l : list AgentSession) : option AgentSession :=
  List.find (fun s => String.eqb (s_id s) i) l.

(** The four badges of a lane: critical, high, medium, low. *)
Definition badges (fs : list Finding) : nat * nat * nat * nat :=
  (count_severity "CRITICAL" fs, count_severity "HIGH" fs,
   count_severity "MEDIUM" fs, count_severity "LOW" fs).

Definition badge_total (fs : list Finding) : nat :=
  let '(c, h, m, l) := badges fs in (c + h + m + l)%nat.

End Lanes.

(* ===================================================================== *)
(** ** Windows: where spawnAgent places each agent's browser              *)
(* ===================================================================== *)

Module Windows.

(** [((agent.id - 1) % 3) * 640]; JavaScript's [%] truncates. *)
Definition WINDOW_X (id : Z) : Z := Z.rem (id - 1) 3 * 640.

(** [Math.floor((agent.id - 1) / 3) * 480]. *)
Definition WINDOW_Y (id : Z) : Z := (id - 1) / 3 * 480.

(** [--window-size=640,480] of the harness. *)
Definition window_width : Z := 640.
Definition window_height : Z := 480.

(** The two windows share a pixel. *)
Definition overlap (a b : Z) : Prop :=
  WINDOW_X a < WINDOW_X b + window_width
  /\ WINDOW_X b < WINDOW_X a + window_width
  /\ WINDOW_Y a < WINDOW_Y b + window_height
  /\ WINDOW_Y b < WINDOW_Y a + window_height.

End Windows.

(* ===================================================================== *)
(** ** Broadcast: handleAgentMessage of the orchestrator                  *)
(* ===================================================================== *)

Module Broadcast.

Section Values.
(** JSON values, with the two the orchestrator itself produces. *)
Variable V : Type.
Variable of_string : string -> V.
Variable of_number : Z -> V.

(** A connected socket: its [readyState] and what was sent to it. *)
Record Client := {
  readyState : Z;
  inbox : list (gmap string V);
}.

(** [{ scanId, ...message, timestamp: Date.now() }]: later keys win. *)
Definition envelope (scanId : string) (message : gmap string V) (now : Z)
  : gmap string V :=
  <["timestamp" := of_number now]>
    (message ∪ <["scanId" := of_string scanId]> ∅).

Definition send (m : gmap string V) (c : Client) : Client :=
  {| readyState := readyState c; inbox := inbox c ++ [m] |}.

(** [this.wss.clients.forEach(client => { if (client.readyState === 1) ... })].
    The object is built, and [Date.now()] read, inside the callback:
    [now i] is the clock when the [i]-th client is served. *)
Definition handleAgentMessage (scanId : string) (message : gmap string V)
    (now : nat -> Z) (clients : list Client) : list Client :=
  imap (fun i c => if Z.eqb (readyState c) 1
                   then send (envelope scanId message (now i)) c
                   else c) clients.

End Values.

Arguments readyState {V} c.
Arguments inbox {V} c.
Arguments send {V} m c.

End Broadcast.

(* ===================================================================== *)
(** ** Selection: the agent checkboxes of the launch page                 *)
(* ===================================================================== *)

Module Selection.

(** The ids of [agentOptions], one button each. *)
Definition agentOptions : list string :=
  ["spider"; "exposure"; "headers_tls"; "cors"; "portscan";
   "auth_abuse"; "sqli"; "xss"; "llm_analysis"; "red_team"].

(** The initial value of [selectedAgents]. *)
Definition initial : list string :=
  ["spider"; "exposure"; "headers_tls"; "cors"; "portscan";
   "auth_abuse"; "sqli"; "xss"; "llm_analysis"; "red_team"].

Definition includes (id : string) (l : list string) : bool :=
  existsb (String.eqb id) l.

(** [prev.includes(id) ? prev.filter(a => a !== id) : [...prev, id]]. *)
Definition toggleAgent (id : string) (prev : list string) : list string :=
  if includes id prev
  then List.filter (fun a => negb (String.eqb a id)) prev
  else prev ++ [id].

(** A sequence of clicks, first click first. *)
Definition clicks (ids : list string) (sel : list string) : list string :=
  List.fold_left (fun acc id => toggleAgent id acc) ids sel.

End Selection.

(* ===================================================================== *)
(** ** Lifecycle: the processes of one startScan                          *)
(* ===================================================================== *)

Module Lifecycle.
Import Orchestrator.

(** [agents.map(agent => this.spawnAgent(scanId, agent, targetUrl))]. *)
Definition agentProcesses (scanId targetUrl : string) : list Proc :=
  List.map (fun a => spawnAgent scanId a targetUrl) agents_roster.

End Lifecycle.

(* ===================================================================== *)
(** ** Feed: BrowserFeed, the screenshots of the live view                *)
(* ===================================================================== *)

Module Feed.
Import LiveView.

(** An event row together with [(event.data as any)?.image], [None]
    when the row has no data or the data no image. *)
Record FeedEvent := {
  event : RunEvent;
  data_image : option string;
}.

Record ScreenshotEntry := {
  agentType : string;
  image : string;
  message : string;
  timestamp : Z;
}.

(** The body of the loop: an entry for a SCREENSHOT event whose image is
    truthy (present and not the empty string). *)
Definition entry_of (e : FeedEvent) : option ScreenshotEntry :=
  if String.eqb (ev_event_type (event e)) "SCREENSHOT"
  then match data_image e with
       | Some img =>
           if String.eqb img "" then None
           else Some {| agentType := ev_agent_type (event e);
                        image := img;
                        message := ev_message (event e);
                        timestamp := ev_created_at (event e) |}
       | None => None
       end
  else None.

(** A JavaScript [Map] keeps its keys in the order of their first
    insertion: [set] on a known key replaces the value in place. *)
Fixpoint map_set (k : string) (v : ScreenshotEntry)
    (m : list (string * ScreenshotEntry)) : list (string * ScreenshotEntry) :=
  match m with
  | [] => [(k, v)]
  | (k', v') :: m' =>
      if String.eqb k' k then (k, v) :: m' else (k', v') :: map_set k v m'
  end.

Definition map_get (k : string) (m : list (string * ScreenshotEntry))
  : option ScreenshotEntry :=
  snd <$> List.find (fun kv => String.eqb (fst kv) k) m.

(** [allScreenshots]: the events are newest first, the loop walks them
    reversed. *)
Definition allScreenshots (events : list FeedEvent) : list ScreenshotEntry :=
  omap entry_of (rev events).

Definition collect (entries : list ScreenshotEntry)
    (m : list (string * ScreenshotEntry)) : list (string * ScreenshotEntry) :=
  List.fold_left (fun acc en => map_set (agentType en) en acc) entries m.

Definition screenshotsByAgent (events : list FeedEvent)
  : list (string * ScreenshotEntry) :=
  collect (allScreenshots events) [].

(** [Array.from(screenshotsByAgent.values())]. *)
Definition latestScreenshots (events : list FeedEvent) : list ScreenshotEntry :=
  snd <$> screenshotsByAgent events.

(** [selectedAgent ? ... : ...]: [null] and the empty string are falsy. *)
Definition selected_agent (selectedAgent : option string) : option string :=
  match selectedAgent with
  | Some a => if String.eqb a "" then None else Some a
  | None => None
  end.

Definition displayScreenshots (selectedAgent : option string)
    (events : list FeedEvent) : list ScreenshotEntry :=
  match selected_agent selectedAgent with
  | Some a => List.filter (fun s => String.eqb (agentType s) a)
                (allScreenshots events)
  | None => allScreenshots events
  end.

(** [latestScreenshots[latestScreenshots.length - 1]] is [undefined] on
    an empty array, as is [Map.get] on a missing key. *)
Definition heroScreenshot (selectedAgent : option string)
    (events : list FeedEvent) : option ScreenshotEntry :=
  match selected_agent selectedAgent with
  | Some a => map_get a (screenshotsByAgent events)
  | None => last (latestScreenshots events)
  end.

(** A SCREENSHOT row of an agent. *)
Definition shot (agent img : string) (at_ : Z) : FeedEvent :=
  {| event := {| ev_id := "ev-" +:+ img; ev_run_id := "run-1";
                 ev_agent_type := agent; ev_event_type := "SCREENSHOT";
                 ev_message := "captured"; ev_created_at := at_ |};
     data_image := Some img |}.

End Feed.

(* ===================================================================== *)
(** ** Clock: the shape of the elapsed-time text                          *)
(* ===================================================================== *)

Module Clock.

(** The text holds no colon. *)
Fixpoint colon_free (s : string) : Prop :=
  match s with
  | EmptyString => True
  | String c r => c <> ":"%char /\ colon_free r
  end.

End Clock.

(* ===================================================================== *)
(** ** RunTypes: the message types a run sends                            *)
(* ===================================================================== *)

Module RunTypes.
Import Wire Harness.

(** The first arguments of the [send_event] calls of the class (the
    network listeners aside). *)
Definition harness_types : list string :=
  ["agent.started"; "agent.thinking"; "agent.thought"; "agent.decision";
   "agent.action"; "agent.error"; "agent.screenshot";
   "vulnerability.found"; "agent.complete"].

(** From [a] to [a'] messages were only added, each of a type of the
    list. *)
Definition speaks {B : Browser} (a a' : Agent B) : Prop :=
  exists tail,
    sent a' = sent a ++ tail
    /\ Forall (fun e => In (e_type e) harness_types) tail.

Definition is_screenshot (e : AgentEvent) : bool :=
  String.eqb (e_type e) "agent.screenshot".

(** A message of the listeners [log_request] and [log_response]. *)
Definition is_network (e : AgentEvent) : bool :=
  String.eqb (e_type e) "network.request"
  || String.eqb (e_type e) "network.response".

(** What a run puts on the wire: the messages of its own control flow,
    [own], in their order, and anywhere in between the network.request
    and network.response messages that the listeners registered with
    [page.on] send when the browser reports traffic. *)
Definition on_the_wire (own wire : list AgentEvent) : Prop :=
  List.filter (fun e => negb (is_network e)) wire = own.

End RunTypes.

(* ===================================================================== *)
(** ** CodeBlock: fenced code in the report's remediation text            *)
(* ===================================================================== *)

Module CodeBlock.

Definition fence : string := "```".

Definition newline : ascii := "010"%char.

Fixpoint skip (n : nat) (s : string) : string :=
  match n, s with
  | O, _ => s
  | S n', String _ r => skip n' r
  | S _, EmptyString => EmptyString
  end.

Definition backtick : ascii := "`"%char.

(** [s.startsWith("```")]. *)
Definition starts_fence (s : string) : bool :=
  match s with
  | String a (String b (String c _)) =>
      Ascii.eqb a backtick && Ascii.eqb b backtick && Ascii.eqb c backtick
  | _ => false
  end.

(** The text before the first fence of [s] and the text after it. *)
Fixpoint cut (s : string) : option (string * string) :=
  match s with
  | EmptyString => None
  | String c r =>
      if starts_fence s then Some (EmptyString, skip 3 s)
      else match cut r with
           | Some (before, rest) => Some (String c before, rest)
           | None => None
           end
  end.

(** [code.split(/(```[\s\S]*?```)/g)]: the leftmost fence opens a
    match, the next fence after it closes it (the quantifier is lazy);
    the captured match is spliced in between the pieces.  Every match
    takes at least six characters, so the length of the text bounds the
    number of rounds. *)
Fixpoint split_rounds (rounds : nat) (s : string) : list string :=
  match rounds with
  | O => [s]
  | S rounds' =>
      match cut s with
      | None => [s]
      | Some (before, r1) =>
          match cut r1 with
          | None => [s]
          | Some (body, r2) =>
              before :: (fence +:+ body +:+ fence) :: split_rounds rounds' r2
          end
      end
  end.

Definition split_fences (code : string) : list string :=
  split_rounds (String.length code) code.

(** [part.startsWith("```")]: the part is rendered as code. *)
Definition is_code (part : string) : bool := starts_fence part.

(** [part.split("\n")]. *)
Fixpoint split_lines (s : string) : list string :=
  match s with
  | EmptyString => [EmptyString]
  | String c r =>
      if Ascii.eqb c newline then EmptyString :: split_lines r
      else match split_lines r with
           | l :: ls => String c l :: ls
           | [] => [String c EmptyString]
           end
  end.

(** [lines.slice(1, -1)]. *)
Definition slice_1_m1 (lines : list string) : list string :=
  removelast (tl lines).

(** [lines.slice(1, -1).join("\n")]. *)
Definition codeContent (part : string) : string :=
  String.concat (String newline EmptyString) (slice_1_m1 (split_lines part)).

Fixpoint newline_free (s : string) : bool :=
  match s with
  | EmptyString => true
  | String c r => negb (Ascii.eqb c newline) && newline_free r
  end.

(** A block as markdown writes it. *)
Definition block (lang body : string) : string :=
  fence +:+ lang +:+ String newline body +:+ String newline fence.

End CodeBlock.

(* ===================================================================== *)
(** ** Markup: script and event-handler payloads, as markup has them      *)
(* ===================================================================== *)

Module Markup.
Import Text Wire Harness.

Definition is_letter (c : ascii) : bool :=
  let n := nat_of_ascii c in ((97 <=? n) && (n <=? 122))%nat.

(** One or more letters, then an equals sign. *)
Fixpoint attribute_tail (seen : bool) (s : string) : bool :=
  match s with
  | EmptyString => false
  | String c rest =>
      if is_letter c then attribute_tail true rest
      else seen && Ascii.eqb c "="
  end.

(** An attribute whose name starts with "on" (onclick=, onerror=, ...). *)
Fixpoint handler_attribute (s : string) : bool :=
  match s with
  | EmptyString => false
  | String _ rest =>
      (String.prefix "on" s && attribute_tail false (str_drop 2 s))
      || handler_attribute rest
  end.

(** A script or event-handler payload: the text opens a script element
    or holds an event-handler attribute.  Element and attribute names
    are matched without regard to the case of their ASCII letters, as
    HTML does. *)
Definition script_or_handler (payload : string) : bool :=
  contains "<script" (lower payload) || handler_attribute (lower payload).

(** The XSS heuristic in these terms: HIGH exactly for a script or
    event-handler payload found verbatim in the content. *)
Definition xss_high_exactly (env : Env) (cfg : Config) (p : Page (browser env))
    (decision : gmap string string) (previous_state : Snapshot) : Prop :=
  Props.reports env cfg p decision previous_state "HIGH"
  <-> script_or_handler (getitem decision "value") = true
      /\ Props.occurs (getitem decision "value") (content (browser env) p).

(** A script tag in capitals, and the page that echoes it. *)
Definition capital_script_decision : gmap string string :=
  {[ "action" := "fill";
     "selector" := "input[name=q]";
     "value" := "<SCRIPT>alert(1)</SCRIPT>";
     "reasoning" := "try a script tag in capitals" ]}.

Definition capital_script_page : Demo.SimplePage :=
  {| Demo.sp_url := "https://shop.example/search";
     Demo.sp_html := "<p>Results for <SCRIPT>alert(1)</SCRIPT></p>" |}.

(** A click handler, and the page that echoes it. *)
Definition click_handler_decision : gmap string string :=
  {[ "action" := "fill";
     "selector" := "input[name=q]";
     "value" := "<b onclick=alert(1)>x</b>";
     "reasoning" := "try a click handler" ]}.

Definition click_handler_page : Demo.SimplePage :=
  {| Demo.sp_url := "https://shop.example/search";
     Demo.sp_html := "<p>Results for <b onclick=alert(1)>x</b></p>" |}.

(** A plain word that happens to hold the letters of onload. *)
Definition loader_decision : gmap string string :=
  {[ "action" := "fill";
     "selector" := "input[name=q]";
     "value" := "pythonloader";
     "reasoning" := "search for a package" ]}.

Definition loader_page : Demo.SimplePage :=
  {| Demo.sp_url := "https://shop.example/search";
     Demo.sp_html := "<p>Results for pythonloader</p>" |}.

End Markup.

(* ===================================================================== *)
(** * Statements                                                          *)
(* ===================================================================== *)

(** ** Text *)

Section TextFacts.
Import Text.

Lemma str_app_cons (c : ascii) (s t : string) :
  String c s +:+ t = String c (s +:+ t).
Proof. reflexivity. Qed.

Lemma str_app_nil_l (s : string) : EmptyString +:+ s = s.
Proof. reflexivity. Qed.

Lemma str_app_nil_r (s : string) : s +:+ EmptyString = s.
Proof.
  induction s as [|c s IH]; [reflexivity|]. now rewrite str_app_cons, IH.
Qed.

Lemma str_app_assoc (a b c : string) : (a +:+ b) +:+ c = a +:+ (b +:+ c).
Proof.
  induction a as [|x a IH]; [reflexivity|]. now rewrite !str_app_cons, IH.
Qed.

(** [String.prefix] decides "is an initial segment of". *)
Lemma prefix_true_iff (n h : string) :
  String.prefix n h = true <-> exists post, h = n +:+ post.
Proof.
  revert h. induction n as [|c n IH]; intros h.
  - split; [intros _; now exists h | intros _; now destruct h].
  - destruct h as [|d h]; simpl.
    + split; [discriminate | intros [post Hp]; discriminate].
    + destruct (Ascii.ascii_dec c d) as [->|Hne].
      * rewrite IH. split; intros [post Hp]; exists post.
        -- now rewrite str_app_cons, Hp.
        -- rewrite str_app_cons in Hp. now injection Hp.
      * split; [discriminate |].
        intros [post Hp]. rewrite str_app_cons in Hp.
        injection Hp as Hd _. congruence.
Qed.

Lemma contains_nil (n : string) :
  contains n EmptyString = String.prefix n EmptyString.
Proof.
  change (contains n EmptyString)
    with (if String.prefix n EmptyString then true else false).
  now destruct (String.prefix n EmptyString).
Qed.

Lemma contains_cons (n : string) (d : ascii) (h : string) :
  contains n (String d h) = String.prefix n (String d h) || contains n h.
Proof.
  change (contains n (String d h))
    with (if String.prefix n (String d h) then true else contains n h).
  now destruct (String.prefix n (String d h)).
Qed.

(** [contains] decides "occurs as a contiguous, unmodified segment". *)
Lemma contains_true_iff (n h : string) :
  contains n h = true <-> exists pre post, h = pre +:+ n +:+ post.
Proof.
  induction h as [|d h IH].
  - rewrite contains_nil, prefix_true_iff. split.
    + intros [post Hp]. now exists EmptyString, post.
    + intros [pre [post H]]. destruct pre; [|discriminate]. now exists post.
  - rewrite contains_cons, orb_true_iff, prefix_true_iff, IH. split.
    + intros [[post Hp]|[pre [post H]]].
      * now exists EmptyString, post.
      * exists (String d pre), post. now rewrite str_app_cons, H.
    + intros [pre [post H]]. destruct pre as [|e pre].
      * left. now exists post.
      * right. rewrite str_app_cons in H. injection H as _ H.
        now exists pre, post.
Qed.

Lemma any_in_true_iff (xs : list string) (s : string) :
  any_in xs s = true <-> exists x, In x xs /\ contains x s = true.
Proof. unfold any_in. apply existsb_exists. Qed.

End TextFacts.

(** ** Report page *)

Section ReportFacts.
Import Report.

Lemma severity_eqb_eq (a b : Severity) : severity_eqb a b = true <-> a = b.
Proof. destruct a, b; simpl; split; intros H; try reflexivity; discriminate. Qed.

Lemma detailed_findings_unfold (fs : list ReportFinding) :
  detailed_findings fs =
  group fs CRITICAL ++ group fs HIGH ++ group fs MEDIUM ++ group fs LOW.
Proof.
  unfold detailed_findings. simpl. rewrite app_nil_r.
  now destruct (group fs CRITICAL), (group fs HIGH), (group fs MEDIUM),
    (group fs LOW).
Qed.

Lemma group_severity (fs : list ReportFinding) (sev : Severity) (f : ReportFinding) :
  In f (group fs sev) -> severity f = sev.
Proof.
  unfold group. intros H. apply List.filter_In in H as [_ H].
  now apply severity_eqb_eq.
Qed.

Lemma group_group (fs : list ReportFinding) (s t : Severity) :
  group (group fs s) t = if severity_eqb s t then group fs s else [].
Proof.
  unfold group. induction fs as [|f fs IH]; simpl.
  - now destruct (severity_eqb s t).
  - destruct (severity_eqb (severity f) s) eqn:Hs; simpl; [|exact IH].
    apply severity_eqb_eq in Hs. rewrite Hs, IH.
    now destruct (severity_eqb s t).
Qed.

Lemma group_app (xs ys : list ReportFinding) (s : Severity) :
  group (xs ++ ys) s = group xs s ++ group ys s.
Proof. unfold group. apply List.filter_app. Qed.

Lemma sorted_app {A} (R : A -> A -> Prop) (xs ys : list A) :
  StronglySorted R xs -> StronglySorted R ys ->
  (forall x y, In x xs -> In y ys -> R x y) ->
  StronglySorted R (xs ++ ys).
Proof.
  intros Hx Hy Hxy. induction Hx as [|x xs Hx IH Hall]; simpl; [exact Hy|].
  constructor.
  - apply IH. intros a b Ha Hb. apply Hxy; [now right | exact Hb].
  - apply Forall_app. split; [exact Hall|].
    apply List.Forall_forall. intros y Hin. apply Hxy; [now left | exact Hin].
Qed.

Lemma group_sorted (fs : list ReportFinding) (sev : Severity) :
  StronglySorted (fun a b => (rank (severity a) <= rank (severity b))%nat)
    (group fs sev).
Proof.
  assert (forall l, Forall (fun f => severity f = sev) l ->
    StronglySorted (fun a b => (rank (severity a) <= rank (severity b))%nat) l)
    as Hgen.
  { induction l as [|f l IH]; intros Hl; constructor.
    - apply IH. now inversion Hl.
    - inversion Hl as [|? ? Hf Hrest]; subst.
      eapply List.Forall_impl; [|exact Hrest]. intros g Hg. simpl in Hg.
      rewrite Hg. apply Nat.le_refl. }
  apply Hgen, List.Forall_forall. intros f Hf. eapply group_severity, Hf.
Qed.

Lemma group_split_perm (fs : list ReportFinding) :
  Permutation fs
    (group fs CRITICAL ++ group fs HIGH ++ group fs MEDIUM ++ group fs LOW).
Proof.
  unfold group. induction fs as [|f fs IH]; simpl; [constructor|].
  destruct (severity f); simpl.
  - now constructor.
  - apply Permutation_cons_app. exact IH.
  - rewrite !app_assoc. apply Permutation_cons_app. now rewrite <- !app_assoc.
  - rewrite !app_assoc. apply Permutation_cons_app. now rewrite <- !app_assoc.
Qed.

(** C10.  The detailed findings of the report page come out sorted by
    severity in the order CRITICAL, HIGH, MEDIUM, LOW; the findings of
    each severity keep the relative order they have in the payload; and
    every finding of the payload is rendered exactly once. *)
Theorem report_detailed_findings_grouped (fs : list Report.ReportFinding) :
  StronglySorted
    (fun a b => (Report.rank (Report.severity a) <= Report.rank (Report.severity b))%nat)
    (Report.detailed_findings fs)
  /\ (forall sev, Report.group (Report.detailed_findings fs) sev = Report.group fs sev)
  /\ Permutation fs (Report.detailed_findings fs).
Proof.
  rewrite detailed_findings_unfold. split; [|split].
  - repeat (apply sorted_app; [apply group_sorted | |]); try apply group_sorted;
      intros x y Hx Hy; apply group_severity in Hx;
      repeat (apply in_app_or in Hy as [Hy|Hy]);
      apply group_severity in Hy; rewrite Hx, Hy; simpl; lia.
  - intros sev. rewrite !group_app, !group_group.
    destruct sev; simpl; now rewrite ?app_nil_r.
  - apply group_split_perm.
Qed.

End ReportFacts.

(** ** Socket client *)

Section WsClientFacts.
Import Wire WsClient.

(** The switch leaves the aggregate finding list alone or appends to it. *)
Lemma agent_case_findings (prev : ScanWsState) (event : AgentEvent) (agent : AgentState) :
  exists extra, snd (fst (agent_case prev event agent)) = findings prev ++ extra.
Proof.
  unfold agent_case.
  repeat (match goal with
          | |- context [String.eqb ?a ?b] => destruct (String.eqb a b)
          end; simpl; try (exists []; now rewrite app_nil_r));
    try (eexists; reflexivity).
Qed.

Lemma handleEvent_events (event : AgentEvent) (prev : ScanWsState) :
  events (handleEvent event prev) = events prev ++ [event].
Proof.
  unfold handleEvent.
  destruct (if Z.eqb (e_agentId event) 0 then None
            else agents prev !! e_agentId event) as [agent0|]; [|reflexivity].
  now destruct (agent_case prev event agent0) as [[agent fs] net].
Qed.

Lemma handleEvent_findings (event : AgentEvent) (prev : ScanWsState) :
  exists extra, findings (handleEvent event prev) = findings prev ++ extra.
Proof.
  unfold handleEvent.
  destruct (if Z.eqb (e_agentId event) 0 then None
            else agents prev !! e_agentId event) as [agent0|].
  - destruct (agent_case_findings prev event agent0) as [extra He].
    destruct (agent_case prev event agent0) as [[agent fs] net].
    simpl in *. now exists extra.
  - exists []. simpl. now rewrite app_nil_r.
Qed.

(** C9.  Whatever sequence of open, error and close callbacks the socket
    fires, the agent map, the event log, the finding list, the request log
    and the scan status stay as they were; each callback only sets the
    connected flag (true on open, false on error and on close). *)
Theorem socket_signals_only_set_connected
    (sigs : list WsClient.SocketSignal) (s : WsClient.SocketSignal)
    (st : WsClient.ScanWsState) :
  WsClient.agents (fold_left (fun acc x => WsClient.on_signal x acc) sigs st)
    = WsClient.agents st
  /\ WsClient.events (fold_left (fun acc x => WsClient.on_signal x acc) sigs st)
    = WsClient.events st
  /\ WsClient.findings (fold_left (fun acc x => WsClient.on_signal x acc) sigs st)
    = WsClient.findings st
  /\ WsClient.networkRequests
       (fold_left (fun acc x => WsClient.on_signal x acc) sigs st)
    = WsClient.networkRequests st
  /\ WsClient.scanStatus (fold_left (fun acc x => WsClient.on_signal x acc) sigs st)
    = WsClient.scanStatus st
  /\ WsClient.on_signal s st
    = WsClient.set_connected
        (match s with WsClient.SigOpen => true | _ => false end) st.
Proof.
  split; [|split; [|split; [|split; [|split]]]];
    try (revert st; induction sigs as [|x sigs IH]; intros st; simpl;
         [reflexivity | rewrite IH; now destruct x]).
  now destruct s.
Qed.

End WsClientFacts.

(** ** Orchestrator *)

Section OrchestratorFacts.
Import Orchestrator.

Lemma stopScan_unregistered (scanId : string) (st : State) :
  activeAgents st !! scanId = None -> stopScan scanId st = st.
Proof. intros H. unfold stopScan. now rewrite H. Qed.





End OrchestratorFacts.

(** ** Live view *)

Section LiveViewFacts.
Import LiveView Props.










(** C8, as stated, fails in the live view: a notification arriving on a
    full log pushes the oldest entry out. *)
Lemma full_log_drops_oldest_event :
  ~ Props.keeps_history (LiveView.EventInsert (Fixtures.numbered_event 50))
      Fixtures.full_log.
Proof.
  intros [He _]. specialize (He (Fixtures.numbered_event 0)).
  assert (Fixtures.numbered_event 0 ∈ LiveView.events Fixtures.full_log) as Hin.
  { apply (bool_decide_unpack _). by vm_compute. }
  apply He in Hin. revert Hin.
  apply (bool_decide_eq_false_1 _). by vm_compute.
Qed.

(** C8, amended.  In the socket client an inbound event is appended to
    the event log, and the aggregate finding list only grows at its end.
    In the live view a run, session or finding notification removes
    nothing from the log or the finding list; an event notification goes
    to the front of the log, of which the first 49 old entries are kept;
    a poll puts the fetched rows in place of each list. *)
Theorem client_history_growth
    (event : Wire.AgentEvent) (ws : WsClient.ScanWsState)
    (r : option LiveView.SecurityRun) (s : LiveView.AgentSession)
    (e : LiveView.RunEvent) (f : LiveView.Finding)
    (res : LiveView.FetchResult) (st : LiveView.ViewState) :
  WsClient.events (WsClient.handleEvent event ws) = WsClient.events ws ++ [event]
  /\ (WsClient.findings ws `prefix_of`
        WsClient.findings (WsClient.handleEvent event ws))
  /\ Props.keeps_history (LiveView.RunChange r) st
  /\ Props.keeps_history (LiveView.SessionChange s) st
  /\ Props.keeps_history (LiveView.FindingInsert f) st
  /\ LiveView.events (LiveView.deliver (LiveView.EventInsert e) st)
     = e :: take 49 (LiveView.events st)
  /\ LiveView.findings (LiveView.deliver (LiveView.EventInsert e) st)
     = LiveView.findings st
  /\ LiveView.events (LiveView.deliver (LiveView.Poll res) st)
     = default (LiveView.events st) (LiveView.eventRes res)
  /\ LiveView.findings (LiveView.deliver (LiveView.Poll res) st)
     = default (LiveView.findings st) (LiveView.findRes res).
Proof.
  split_and!; try reflexivity; try (split; intros x Hx; exact Hx).
  - apply handleEvent_events.
  - destruct (handleEvent_findings event ws) as [extra ->]. by exists extra.
  - split; intros x Hx; simpl; [exact Hx|].
    apply elem_of_app. by left.
Qed.

End LiveViewFacts.

(** ** Harness: one decision *)

Section HarnessFacts.
Import Text Wire Harness Props.
Context (env : Env) (cfg : Config).
Local Abbreviation B := (browser env).

Lemma issue_calls (c : BrowserCall) (a : Agent B) :
  calls (fst (issue env c a)) = calls a ++ [c]
  /\ sent (fst (issue env c a)) = sent a
  /\ findings (fst (issue env c a)) = findings a
  /\ iteration_count (fst (issue env c a)) = iteration_count a.
Proof.
  unfold issue.
  destruct c; simpl;
    [ destruct (fill B selector value (page a))
    | destruct (click B selector (page a))
    | destruct (goto B target (page a)) ]; now simpl.
Qed.

Lemma execute_action_navigate (decision : gmap string string) (a : Agent B) :
  getitem decision "action" = "navigate" ->
  calls (execute_action env cfg decision a)
    = calls a ++ [Goto (getitem decision "value")]
  /\ page (execute_action env cfg decision a)
    = fst (goto B (getitem decision "value") (page a))
  /\ List.map e_type (sent (execute_action env cfg decision a))
    = List.map e_type (sent a)
      ++ "agent.action"
         :: match snd (goto B (getitem decision "value") (page a)) with
            | None => []
            | Some _ => ["agent.error"]
            end.
Proof.
  intros Hnav. unfold execute_action. rewrite Hnav.
  change (String.eqb "navigate" "fill") with false.
  change (String.eqb "navigate" "click") with false.
  change (String.eqb "navigate" "navigate") with true.
  cbv iota. unfold issue, send_event. simpl.
  destruct (goto B (getitem decision "value") (page a)) as [p [e|]]; simpl;
    rewrite ?List.map_app; simpl; rewrite <- ?app_assoc; now simpl.
Qed.

End HarnessFacts.

(** C1, as stated, fails on the harness: asked to navigate from the
    target to another host, [execute_action] hands the address to the
    browser, the page ends up on that host, and the only event sent is
    the announcement of the action. *)
Lemma off_domain_navigation_is_followed :
  Props.off_domain Demo.cfg Demo.navigate_decision
  /\ ~ Props.domain_guard Demo.env Demo.cfg Demo.navigate_decision
        (Harness.init (Harness.browser Demo.env) Demo.login_page)
  /\ Harness.calls
       (Harness.execute_action Demo.env Demo.cfg Demo.navigate_decision
          (Harness.init (Harness.browser Demo.env) Demo.login_page))
     = [Harness.Goto "https://evil.test/steal"]
  /\ Url.host_of
       (Harness.url (Harness.browser Demo.env)
          (Harness.page
             (Harness.execute_action Demo.env Demo.cfg Demo.navigate_decision
                (Harness.init (Harness.browser Demo.env) Demo.login_page))))
     = "evil.test"
  /\ List.map Wire.e_type
       (Harness.sent
          (Harness.execute_action Demo.env Demo.cfg Demo.navigate_decision
             (Harness.init (Harness.browser Demo.env) Demo.login_page)))
     = ["agent.action"].
Proof.
  assert (Props.off_domain Demo.cfg Demo.navigate_decision) as Hoff.
  { split; [by vm_compute|]. vm_compute. discriminate. }
  split_and!; [exact Hoff | | by vm_compute..].
  intros Hguard. destruct (Hguard Hoff) as [Hnot _]. apply Hnot.
  vm_compute. apply list_elem_of_here.
Qed.

(** C1, amended.  A decision whose action is "navigate" is announced
    with an agent.action event and its value is handed to the browser's
    goto as it stands, whatever its host; the page of the agent is the
    one this navigation leaves, and an agent.error event follows exactly
    when the browser call raises.  The target's domain is not consulted. *)
Theorem navigate_decision_is_dereferenced
    (env : Harness.Env) (cfg : Harness.Config)
    (decision : gmap string string)
    (a : Harness.Agent (Harness.browser env)) :
  Harness.getitem decision "action" = "navigate" ->
  Harness.calls (Harness.execute_action env cfg decision a)
    = Harness.calls a ++ [Harness.Goto (Harness.getitem decision "value")]
  /\ Harness.page (Harness.execute_action env cfg decision a)
    = fst (Harness.goto (Harness.browser env)
             (Harness.getitem decision "value") (Harness.page a))
  /\ List.map Wire.e_type (Harness.sent (Harness.execute_action env cfg decision a))
    = List.map Wire.e_type (Harness.sent a)
      ++ "agent.action"
         :: match snd (Harness.goto (Harness.browser env)
                         (Harness.getitem decision "value") (Harness.page a)) with
            | None => []
            | Some _ => ["agent.error"]
            end.
Proof. apply execute_action_navigate. Qed.

Lemma navigate_decision_is_dereferenced_witness :
  Harness.getitem Demo.navigate_decision "action" = "navigate"
  /\ Harness.calls
       (Harness.execute_action Demo.env Demo.cfg Demo.navigate_decision
          (Harness.init (Harness.browser Demo.env) Demo.login_page))
     = [] ++ [Harness.Goto (Harness.getitem Demo.navigate_decision "value")].
Proof.
  split; [reflexivity|].
  apply (navigate_decision_is_dereferenced Demo.env Demo.cfg
           Demo.navigate_decision
           (Harness.init (Harness.browser Demo.env) Demo.login_page)).
  reflexivity.
Defined.

(** ** Harness: role heuristics *)

Section HeuristicFacts.
Import Text Wire Harness Props.
Context (env : Env) (cfg : Config).
Local Abbreviation B := (browser env).

Lemma check_sqli (p : Page B) (decision : gmap string string) (prev : Snapshot) :
  role cfg = "sqli" ->
  check_for_vulnerability env cfg p decision prev =
  if any_in sql_syntax (getitem decision "value") then
    if any_in auth_indicators (str_lower env (content B p))
       && (negb (String.eqb (st_url prev) (url B p))
           || negb (contains "login" (str_lower env (url B p))))
    then Some (vuln "SQL Injection - Authentication Bypass" "CRITICAL"
                 (url B p) "Authentication bypassed with SQL injection payload"
                 "CWE-89" 98 (decision !! "selector")
                 (Some (getitem decision "value")) None None)
    else if any_in sql_indicators (str_lower env (content B p))
    then Some (vuln "SQL Injection - Error-Based" "HIGH" (url B p)
                 ("Database error exposed: " +:+ str_take 200 (content B p))
                 "CWE-89" 75 (decision !! "selector")
                 (Some (getitem decision "value")) None None)
    else None
  else None.
Proof.
  intros Hrole. unfold check_for_vulnerability. rewrite Hrole.
  change (String.eqb "sqli" "sqli") with true. cbv iota.
  destruct (any_in sql_syntax (getitem decision "value")); [|reflexivity].
  destruct (any_in auth_indicators (str_lower env (content B p))); [|reflexivity].
  now destruct (negb (String.eqb (st_url prev) (url B p))
                || negb (contains "login" (str_lower env (url B p)))).
Qed.

Lemma check_xss (p : Page B) (decision : gmap string string) (prev : Snapshot) :
  role cfg = "xss" ->
  check_for_vulnerability env cfg p decision prev =
  if any_in xss_tags (getitem decision "value")
     && contains (getitem decision "value") (content B p)
  then Some (vuln "Reflected XSS" "HIGH" (url B p)
               "Payload reflected unsanitized in response" "CWE-79" 71
               (decision !! "selector") (Some (getitem decision "value"))
               None None)
  else None.
Proof.
  intros Hrole. unfold check_for_vulnerability. rewrite Hrole.
  change (String.eqb "xss" "sqli") with false.
  change (String.eqb "xss" "xss") with true. cbv iota.
  now destruct (any_in xss_tags (getitem decision "value")).
Qed.

End HeuristicFacts.

(** C5, as stated, fails twice.  On an account page that greets the
    user and shows a database warning after a quote payload, the error
    signature is there but the finding reported is the CRITICAL one, not
    the HIGH one.  On a public page that greets every visitor, reached
    from itself, a CRITICAL finding is reported although the previous
    page was no login page. *)
Lemma sqli_equivalences_fail :
  ~ Props.sqli_high_exactly Demo.env Demo.cfg Demo.account_page
      Demo.tautology_decision
      (Demo.snapshot_at "https://shop.example/login")
  /\ ~ Props.sqli_critical_exactly Demo.env Demo.cfg Demo.home_page
        Demo.tautology_decision
        (Demo.snapshot_at "https://shop.example/home").
Proof.
  split.
  - intros H. destruct (proj2 H) as [v [Hv Hs]]; [by vm_compute|].
    vm_compute in Hv. injection Hv as <-. discriminate Hs.
  - intros H. destruct (proj1 H) as (_ & _ & Hlogin).
    + eexists. split; [by vm_compute | reflexivity].
    + vm_compute in Hlogin. discriminate Hlogin.
Qed.

(** C5, amended.  For the SQL-injection role, with "SQL syntax" meaning
    that the payload holds a quote, a double quote, a double dash, a
    semicolon or UNION: a CRITICAL finding is reported exactly when the
    payload has SQL syntax, the lower-cased page content holds welcome,
    dashboard, logout or admin panel, and the address changed or the
    current address does not hold login; a HIGH finding is reported
    exactly when the payload has SQL syntax, the lower-cased content
    holds a database-error signature, and the condition of the CRITICAL
    finding does not hold; no other finding is reported.  Lower-casing
    is the interpreter's [str.lower()], whatever it does outside ASCII. *)
Theorem sqli_findings_exactly
    (env : Harness.Env) (cfg : Harness.Config)
    (p : Harness.Page (Harness.browser env))
    (decision : gmap string string) (prev : Harness.Snapshot) :
  Harness.role cfg = "sqli" ->
  (Props.reports env cfg p decision prev "CRITICAL"
   <-> Text.any_in Harness.sql_syntax (Harness.getitem decision "value") = true
       /\ Text.any_in Harness.auth_indicators
            (Harness.str_lower env (Harness.content (Harness.browser env) p)) = true
       /\ (Harness.st_url prev <> Harness.url (Harness.browser env) p
           \/ Text.contains "login"
                (Harness.str_lower env (Harness.url (Harness.browser env) p)) = false))
  /\ (Props.reports env cfg p decision prev "HIGH"
      <-> Text.any_in Harness.sql_syntax (Harness.getitem decision "value") = true
          /\ Text.any_in Harness.sql_indicators
               (Harness.str_lower env (Harness.content (Harness.browser env) p)) = true
          /\ ~ (Text.any_in Harness.auth_indicators
                  (Harness.str_lower env (Harness.content (Harness.browser env) p)) = true
                /\ (Harness.st_url prev <> Harness.url (Harness.browser env) p
                    \/ Text.contains "login"
                         (Harness.str_lower env (Harness.url (Harness.browser env) p))
                       = false)))
  /\ (forall v,
        Harness.check_for_vulnerability env cfg p decision prev = Some v ->
        Wire.v_severity v = "CRITICAL" \/ Wire.v_severity v = "HIGH").
Proof.
  intros Hrole. unfold Props.reports. rewrite (check_sqli env cfg) by exact Hrole.
  destruct (Text.any_in Harness.sql_syntax (Harness.getitem decision "value"));
  destruct (Text.any_in Harness.auth_indicators
              (Harness.str_lower env (Harness.content (Harness.browser env) p)));
  destruct (String.eqb_spec (Harness.st_url prev)
              (Harness.url (Harness.browser env) p));
  destruct (Text.contains "login"
              (Harness.str_lower env (Harness.url (Harness.browser env) p)));
  destruct (Text.any_in Harness.sql_indicators
              (Harness.str_lower env (Harness.content (Harness.browser env) p)));
  simpl; split_and!;
    try (intros v Hv; try discriminate Hv; injection Hv as <-; simpl; tauto);
    (split;
     [ intros (v & Hv & Hs); try discriminate Hv; injection Hv as <-;
       try discriminate Hs; split_and!; try reflexivity; try tauto;
       try (intros [? [?|?]]; congruence)
     | intros (? & ? & Hc); try discriminate;
       try (destruct Hc as [?|?]; congruence);
       try (exfalso; apply Hc; split; [reflexivity | tauto]);
       eexists; split; reflexivity ]).
Qed.

Lemma sqli_findings_exactly_witness :
  Harness.role Demo.cfg = "sqli"
  /\ Props.reports Demo.env Demo.cfg Demo.error_page Demo.tautology_decision
       (Demo.snapshot_at "https://shop.example/login") "HIGH".
Proof.
  split; [reflexivity|].
  apply (proj2 (proj1 (proj2
    (sqli_findings_exactly Demo.env Demo.cfg Demo.error_page
       Demo.tautology_decision
       (Demo.snapshot_at "https://shop.example/login") eq_refl)))).
  split; [reflexivity|]. split; [reflexivity|].
  intros [Hauth _]. vm_compute in Hauth. discriminate Hauth.
Defined.

Lemma contains_occurs (needle hay : string) :
  Text.contains needle hay = true <-> Props.occurs needle hay.
Proof. apply contains_true_iff. Qed.

Lemma any_in_occurs (xs : list string) (s : string) :
  Text.any_in xs s = true <-> exists x, In x xs /\ Props.occurs x s.
Proof.
  rewrite any_in_true_iff. split; intros [x [Hin Hx]]; exists x; split;
    try exact Hin; now apply contains_occurs.
Qed.

(** C6, as stated, fails in both directions.  A script tag written in
    capitals and a click handler are script and event-handler payloads,
    and the page echoes them verbatim, yet nothing is reported; the word
    pythonloader is neither, and its echo is reported as HIGH. *)
Lemma xss_markup_equivalence_fails :
  ~ Markup.xss_high_exactly Demo.env Demo.xss_cfg Markup.capital_script_page
      Markup.capital_script_decision
      (Demo.snapshot_at "https://shop.example/search")
  /\ ~ Markup.xss_high_exactly Demo.env Demo.xss_cfg Markup.click_handler_page
        Markup.click_handler_decision
        (Demo.snapshot_at "https://shop.example/search")
  /\ ~ Markup.xss_high_exactly Demo.env Demo.xss_cfg Markup.loader_page
        Markup.loader_decision
        (Demo.snapshot_at "https://shop.example/search").
Proof.
  unfold Markup.xss_high_exactly, Props.reports. split_and!.
  - intros [_ H]. destruct H as (v & Hv & _); [|discriminate Hv].
    split; [by vm_compute|].
    exists "<p>Results for ", "</p>". by vm_compute.
  - intros [_ H]. destruct H as (v & Hv & _); [|discriminate Hv].
    split; [by vm_compute|].
    exists "<p>Results for ", "</p>". by vm_compute.
  - intros [H _]. destruct H as [H _]; [|discriminate H].
    eexists. split; by vm_compute.
Qed.

(** C6, amended.  For the XSS role a finding is reported exactly when
    the payload (the decision's value) holds one of the five literals
    "<script", "<img", "<svg", "onerror", "onload", compared letter for
    letter, and the payload occurs verbatim in the content of the page
    after the action; every finding of this role is a HIGH "Reflected
    XSS" finding carrying that payload. *)
Theorem xss_finding_iff_payload_reflected
    (env : Harness.Env) (cfg : Harness.Config)
    (p : Harness.Page (Harness.browser env))
    (decision : gmap string string) (prev : Harness.Snapshot) :
  Harness.role cfg = "xss" ->
  (Props.reports env cfg p decision prev "HIGH"
   <-> (exists tag, In tag Harness.xss_tags
                    /\ Props.occurs tag (Harness.getitem decision "value"))
       /\ Props.occurs (Harness.getitem decision "value")
            (Harness.content (Harness.browser env) p))
  /\ (forall v,
        Harness.check_for_vulnerability env cfg p decision prev = Some v ->
        Wire.v_severity v = "HIGH" /\ Wire.v_type v = "Reflected XSS"
        /\ Wire.v_payload v = Some (Harness.getitem decision "value")).
Proof.
  intros Hrole. unfold Props.reports.
  rewrite (check_xss env cfg) by exact Hrole.
  rewrite <- any_in_occurs, <- contains_occurs.
  destruct (Text.any_in Harness.xss_tags (Harness.getitem decision "value"));
  destruct (Text.contains (Harness.getitem decision "value")
              (Harness.content (Harness.browser env) p)); simpl.
  - split; [split; [now intros _ | intros _; eexists; split; reflexivity]|].
    intros v Hv. injection Hv as <-. now simpl.
  - split; [split; [intros (v & Hv & _); discriminate Hv
                   | intros [_ H]; discriminate H]
           | intros v Hv; discriminate Hv].
  - split; [split; [intros (v & Hv & _); discriminate Hv
                   | intros [H _]; discriminate H]
           | intros v Hv; discriminate Hv].
  - split; [split; [intros (v & Hv & _); discriminate Hv
                   | intros [H _]; discriminate H]
           | intros v Hv; discriminate Hv].
Qed.

Lemma xss_finding_iff_payload_reflected_witness :
  Harness.role Demo.xss_cfg = "xss"
  /\ Props.reports Demo.env Demo.xss_cfg Demo.reflecting_page
       Demo.xss_decision (Demo.snapshot_at "https://shop.example/search")
       "HIGH".
Proof.
  split; [reflexivity|].
  apply (proj2 (proj1
    (xss_finding_iff_payload_reflected Demo.env Demo.xss_cfg
       Demo.reflecting_page Demo.xss_decision
       (Demo.snapshot_at "https://shop.example/search") eq_refl))).
  split.
  - exists "<script". split; [now left|].
    exists EmptyString, ">alert(1)</script>". vm_compute. reflexivity.
  - exists "<p>Results for ", "</p>". vm_compute. reflexivity.
Defined.

(** ** Harness: the decision of one iteration *)

Section DecisionFacts.
Import Text Wire Harness Props.
Context (env : Env) (cfg : Config).
Local Abbreviation B := (browser env).

Lemma has_required_true (decision : gmap string string) :
  has_required decision = true <->
  forall field, In field required_fields -> is_Some (decision !! field).
Proof.
  unfold has_required. rewrite forallb_forall.
  split; intros H field Hin; specialize (H field Hin).
  - now apply bool_decide_eq_true in H.
  - now apply bool_decide_eq_true.
Qed.

Lemma has_required_false (decision : gmap string string) :
  (exists field, In field required_fields /\ decision !! field = None) ->
  has_required decision = false.
Proof.
  intros (field & Hin & Hnone). apply not_true_iff_false. intros Ht.
  destruct (proj1 (has_required_true decision) Ht field Hin) as [x Hx].
  congruence.
Qed.

(** A decision that passes validation holds the four keys; it is in
    particular not the empty dictionary. *)
Lemma parse_decision_Some (response_text : string) (decision : gmap string string) :
  parse_decision env response_text = Some decision ->
  (forall field, In field required_fields -> is_Some (decision !! field))
  /\ decision <> ∅.
Proof.
  unfold parse_decision.
  destruct (re_search_object response_text) as [m|]; [|discriminate].
  destruct (json_loads env m) as [d|]; [|discriminate].
  destruct (has_required d) eqn:Hreq; [|discriminate].
  intros [= <-]. pose proof (proj1 (has_required_true d) Hreq) as Hall.
  split; [exact Hall|].
  intros ->. destruct (Hall "action") as [x Hx]; [now left|].
  by rewrite lookup_empty in Hx.
Qed.

Lemma parse_decision_invalid (response_text : string) :
  invalid_reply env response_text -> parse_decision env response_text = None.
Proof.
  unfold invalid_reply, parse_decision.
  destruct (re_search_object response_text) as [m|]; [|reflexivity].
  destruct (json_loads env m) as [d|]; [|reflexivity].
  intros H. now rewrite has_required_false.
Qed.

(** An iteration in which the call to the model raises. *)
Lemma failed_call_skips_iteration (iteration : nat) (a : Agent B) :
  claude env iteration (role cfg) (capture_state env (page a))
    (length (findings a)) = None ->
  page (loop_body env cfg iteration a) = page a
  /\ calls (loop_body env cfg iteration a) = calls a
  /\ findings (loop_body env cfg iteration a) = findings a
  /\ List.map e_type (sent (loop_body env cfg iteration a))
     = List.map e_type (sent a) ++ ["agent.thinking"].
Proof.
  intros Hc. unfold loop_body, get_next_action. simpl. rewrite Hc. simpl.
  split_and!; try reflexivity. now rewrite List.map_app.
Qed.

End DecisionFacts.

(** C7.  When the reply of the model holds no object, or holds one that
    does not load or lacks one of action, selector, value, reasoning, the
    iteration issues no browser call: the page, the list of calls and the
    findings are as before, the only events sent are agent.thinking and
    agent.thought, the counter stands at the iteration's number, and the
    loop goes on with the remaining iterations from that state. *)
Theorem invalid_reply_skips_iteration
    (env : Harness.Env) (cfg : Harness.Config) (iteration : nat)
    (a : Harness.Agent (Harness.browser env)) (response_text : string) :
  Harness.claude env iteration (Harness.role cfg)
    (Harness.capture_state env (Harness.page a))
    (length (Harness.findings a)) = Some response_text ->
  Props.invalid_reply env response_text ->
  Harness.page (Harness.loop_body env cfg iteration a) = Harness.page a
  /\ Harness.calls (Harness.loop_body env cfg iteration a) = Harness.calls a
  /\ Harness.findings (Harness.loop_body env cfg iteration a) = Harness.findings a
  /\ Harness.iteration_count (Harness.loop_body env cfg iteration a)
     = Z.of_nat iteration + 1
  /\ List.map Wire.e_type (Harness.sent (Harness.loop_body env cfg iteration a))
     = List.map Wire.e_type (Harness.sent a) ++ ["agent.thinking"; "agent.thought"]
  /\ (forall rest,
        Harness.loop_over env cfg (iteration :: rest) a
        = Harness.loop_over env cfg rest (Harness.loop_body env cfg iteration a)).
Proof.
  intros Hc Hinv. split_and!; try (intros rest; reflexivity);
    unfold Harness.loop_body, Harness.get_next_action; simpl;
    rewrite Hc, (parse_decision_invalid env _ Hinv); simpl;
    try reflexivity.
  rewrite !List.map_app, <- app_assoc. reflexivity.
Qed.

Lemma invalid_reply_skips_iteration_witness :
  Props.invalid_reply Demo.chatty_env "I would try the login form first."
  /\ Harness.calls
       (Harness.loop_body Demo.chatty_env Demo.cfg 0
          (Harness.init (Harness.browser Demo.chatty_env) Demo.login_page))
     = [].
Proof.
  split; [exact I|].
  apply (invalid_reply_skips_iteration Demo.chatty_env Demo.cfg 0
           (Harness.init (Harness.browser Demo.chatty_env) Demo.login_page)
           "I would try the login form first." eq_refl I).
Defined.

(** ** Harness: the whole run *)

Section RunFacts.
Import Text Wire Harness Props.
Context (env : Env) (cfg : Config).
Local Abbreviation B := (browser env).

Lemma count_type_app (t : string) (l1 l2 : list AgentEvent) :
  count_type t (l1 ++ l2) = (count_type t l1 + count_type t l2)%nat.
Proof. unfold count_type. now rewrite List.filter_app, length_app. Qed.

Lemma emits_refl (a : Agent B) : emits 0 a a.
Proof. split; [reflexivity|]. exists []. now rewrite app_nil_r. Qed.

Lemma emits_trans (j k : nat) (a b c : Agent B) :
  emits j a b -> emits k b c -> emits (j + k) a c.
Proof.
  intros [Hi1 (t1 & Hs1 & Ht1 & Hn1)] [Hi2 (t2 & Hs2 & Ht2 & Hn2)].
  split; [congruence|]. exists (t1 ++ t2).
  rewrite Hs2, Hs1, <- app_assoc, !count_type_app. split_and!; [reflexivity|lia..].
Qed.

Lemma emits_send (t : string) (d : EventData) (a : Agent B) :
  String.eqb t "agent.iteration" = false ->
  emits (if String.eqb t "agent.thinking" then 1 else 0) a
    (send_event env cfg t d a).
Proof.
  intros Ht. split; [reflexivity|]. eexists. split; [reflexivity|].
  unfold count_type. simpl. rewrite Ht. now destruct (String.eqb t "agent.thinking").
Qed.

Lemma emits_issue (c : BrowserCall) (a : Agent B) :
  emits 0 a (fst (issue env c a)).
Proof.
  destruct (issue_calls env c a) as (_ & Hs & _ & Hi).
  split; [exact Hi|]. exists []. now rewrite app_nil_r.
Qed.

Lemma emits_execute_action (decision : gmap string string) (a : Agent B) :
  emits 0 a (execute_action env cfg decision a).
Proof.
  unfold execute_action.
  set (a1 := send_event env cfg "agent.action" _ a).
  assert (emits 0 a a1) as H1 by (apply (emits_send "agent.action"); reflexivity).
  destruct (if String.eqb (getitem decision "action") "fill" then _ else _)
    as [c|]; [|exact H1].
  pose proof (emits_issue c a1) as H2.
  destruct (issue env c a1) as [a2 [e|]]; simpl in H2.
  - apply (emits_trans 0 0 a a2); [apply (emits_trans 0 0 a a1); assumption|].
    apply (emits_send "agent.error"). reflexivity.
  - apply (emits_trans 0 0 a a1); assumption.
Qed.

Lemma emits_take_screenshot (label : string) (a : Agent B) :
  emits 0 a (take_screenshot env cfg label a).
Proof.
  unfold take_screenshot. destruct (screenshot B (page a)).
  - apply (emits_send "agent.screenshot"). reflexivity.
  - apply emits_refl.
Qed.

Lemma emits_add_finding (v : Vuln) (a : Agent B) : emits 0 a (add_finding env v a).
Proof. split; [reflexivity|]. exists []. simpl. now rewrite app_nil_r. Qed.

Lemma emits_act_on (decision : gmap string string) (state : Snapshot) (a : Agent B) :
  emits 0 a (act_on env cfg decision state a).
Proof.
  unfold act_on.
  set (a1 := send_event env cfg "agent.decision" _ a).
  set (a2 := execute_action env cfg decision a1).
  assert (emits 0 a a2) as H2.
  { apply (emits_trans 0 0 a a1).
    - apply (emits_send "agent.decision"). reflexivity.
    - apply emits_execute_action. }
  eapply (emits_trans 0 0); cycle 1; [apply emits_take_screenshot|].
  destruct (check_for_vulnerability env cfg (page a2) decision state) as [v|];
    [|exact H2].
  apply (emits_trans 0 0 a a2); [exact H2|].
  apply (emits_trans 0 0 a2 (add_finding env v a2)); [apply emits_add_finding|].
  apply (emits_send "vulnerability.found"). reflexivity.
Qed.

Lemma emits_get_next_action (iteration : nat) (state : Snapshot) (a : Agent B) :
  emits 1 a (snd (get_next_action env cfg iteration state a)).
Proof.
  unfold get_next_action.
  set (a1 := send_event env cfg "agent.thinking" _ a).
  assert (emits 1 a a1) as H1 by (apply (emits_send "agent.thinking"); reflexivity).
  destruct (claude env iteration (role cfg) state (length (findings a)));
    simpl; [|exact H1].
  apply (emits_trans 1 0 a a1); [exact H1|].
  apply (emits_send "agent.thought"). reflexivity.
Qed.

(** One pass through the loop body: the counter takes the iteration's
    number, and exactly one agent.thinking event is sent. *)
Lemma loop_body_emits (iteration : nat) (a : Agent B) :
  iteration_count (loop_body env cfg iteration a) = Z.of_nat iteration + 1
  /\ exists tail, sent (loop_body env cfg iteration a) = sent a ++ tail
                  /\ count_type "agent.thinking" tail = 1%nat
                  /\ count_type "agent.iteration" tail = 0%nat.
Proof.
  unfold loop_body.
  set (a1 := set_iteration_count env (Z.of_nat iteration + 1) a).
  pose proof (emits_get_next_action iteration (capture_state env (page a1)) a1)
    as H1.
  destruct (get_next_action env cfg iteration (capture_state env (page a1)) a1)
    as [[decision|] a2]; simpl in H1.
  - destruct (bool_decide (decision = ∅)); [exact H1|].
    apply (emits_trans 1 0 a1 a2); [exact H1|]. apply emits_act_on.
  - exact H1.
Qed.

Lemma loop_over_sent (its : list nat) (a : Agent B) :
  exists tail, sent (loop_over env cfg its a) = sent a ++ tail
               /\ count_type "agent.thinking" tail = length its
               /\ count_type "agent.iteration" tail = 0%nat.
Proof.
  revert a. induction its as [|i its IH]; intros a; simpl.
  - exists []. now rewrite app_nil_r.
  - destruct (loop_body_emits i a) as (_ & t1 & Hs1 & Ht1 & Hn1).
    destruct (IH (loop_body env cfg i a)) as (t2 & Hs2 & Ht2 & Hn2).
    exists (t1 ++ t2). unfold loop_over in *. simpl.
    rewrite Hs2, Hs1, <- app_assoc, !count_type_app.
    split_and!; [reflexivity|lia..].
Qed.

Lemma loop_over_last (its : list nat) (i : nat) (a : Agent B) :
  iteration_count (loop_over env cfg (its ++ [i]) a) = Z.of_nat i + 1.
Proof.
  unfold loop_over. rewrite fold_left_app. simpl. apply loop_body_emits.
Qed.

(** Once the target page has opened, [run] returns; its loop body ran
    ten times (ten agent.thinking events, counter at 10), and the last
    message is agent.complete with [iterations_completed] 10.  None of
    the messages is an agent.iteration event. *)
Lemma run_makes_ten_iterations (a : Agent B) :
  snd (goto B (target_url cfg) (page a)) = None ->
  exists a' body done,
    run env cfg a = Returned a'
    /\ iteration_count a' = 10
    /\ sent a' = sent a ++ body ++ [done]
    /\ count_type "agent.thinking" body = 10%nat
    /\ count_type "agent.iteration" (body ++ [done]) = 0%nat
    /\ e_type done = "agent.complete"
    /\ d_iterations_completed (e_data done) = Some 10.
Proof.
  intros Hgoto. unfold run.
  set (a1 := send_event env cfg "agent.started" _ a).
  assert (snd (issue env (Goto (target_url cfg)) a1) = None) as Hnone.
  { unfold issue. simpl. now destruct (goto B (target_url cfg) (page a)). }
  pose proof (emits_issue (Goto (target_url cfg)) a1) as H2.
  destruct (issue env (Goto (target_url cfg)) a1) as [a2 exn]. simpl in *.
  subst exn.
  set (a3 := take_screenshot env cfg "initial_load" a2).
  assert (emits 0 a a3) as (_ & t0 & Hs0 & Ht0 & Hn0).
  { apply (emits_trans 0 0 a a1);
      [apply (emits_send "agent.started"); reflexivity|].
    apply (emits_trans 0 0 a1 a2); [exact H2 | apply emits_take_screenshot]. }
  destruct (loop_over_sent iterations a3) as (t1 & Hs1 & Ht1 & Hn1).
  assert (iteration_count (main_loop env cfg a3) = 10) as Hcount
    by apply (loop_over_last (seq 0 9) 9 a3).
  eexists _, (t0 ++ t1), _. split; [reflexivity|].
  split; [exact Hcount|].
  split; [simpl; unfold main_loop; rewrite Hs1, Hs0, <- !app_assoc; reflexivity|].
  split_and!.
  - now rewrite count_type_app, Ht0, Ht1.
  - now rewrite !count_type_app, Hn0, Hn1.
  - reflexivity.
  - simpl. f_equal. exact Hcount.
Qed.

End RunFacts.

(** ** Harness and dashboard together *)

Section CounterFacts.
Import Wire WsClient Props.

Lemma agent_case_totalIterations (prev : ScanWsState) (event : AgentEvent)
    (agent : AgentState) :
  String.eqb (e_type event) "agent.iteration" = false ->
  totalIterations (fst (fst (agent_case prev event agent))) = totalIterations agent.
Proof.
  intros Hne. unfold agent_case. rewrite Hne.
  repeat (match goal with
          | |- context [String.eqb ?a ?b] => destruct (String.eqb a b)
          end; simpl; try reflexivity).
  now destruct (d_decision (e_data event)).
Qed.

Lemma handleEvent_totalIterations (event : AgentEvent) (st : ScanWsState)
    (id : Z) (a : AgentState) :
  String.eqb (e_type event) "agent.iteration" = false ->
  agents st !! id = Some a ->
  exists a', agents (handleEvent event st) !! id = Some a'
             /\ totalIterations a' = totalIterations a.
Proof.
  intros Hne Hl. unfold handleEvent.
  destruct (Z.eqb (e_agentId event) 0); [simpl; eauto|].
  destruct (agents st !! e_agentId event) as [agent0|] eqn:H0; [|simpl; eauto].
  pose proof (agent_case_totalIterations st event agent0 Hne) as Ht.
  destruct (agent_case st event agent0) as [[agent fs] net]. simpl in *.
  destruct (decide (e_agentId event = id)) as [Heq|Hneq].
  - subst id. rewrite lookup_insert_eq. exists agent. split; [reflexivity|].
    congruence.
  - rewrite lookup_insert_ne by exact Hneq. eauto.
Qed.

Lemma count_type_cons_zero (t : string) (e : AgentEvent) (l : list AgentEvent) :
  count_type t (e :: l) = 0%nat ->
  String.eqb (e_type e) t = false /\ count_type t l = 0%nat.
Proof.
  unfold count_type. simpl. destruct (String.eqb (e_type e) t); simpl.
  - discriminate.
  - now split.
Qed.

Lemma fold_handleEvent_totalIterations (l : list AgentEvent) (st : ScanWsState)
    (id : Z) (a : AgentState) :
  count_type "agent.iteration" l = 0%nat ->
  agents st !! id = Some a ->
  exists a', agents (fold_left (fun s e => handleEvent e s) l st) !! id = Some a'
             /\ totalIterations a' = totalIterations a.
Proof.
  revert st a. induction l as [|e l IH]; intros st a Hc Hl; simpl; [eauto|].
  apply count_type_cons_zero in Hc as [He Hc].
  destruct (handleEvent_totalIterations e st id a He Hl) as (a1 & Hl1 & Ht1).
  destruct (IH _ a1 Hc Hl1) as (a2 & Hl2 & Ht2). exists a2. split; congruence.
Qed.

Lemma defaultAgents_total (id : Z) (a : AgentState) :
  defaultAgents !! id = Some a -> totalIterations a = 20.
Proof.
  unfold defaultAgents. simpl. intros H.
  repeat (apply lookup_insert_Some in H as [[_ <-]|[_ H]]; [reflexivity|]).
  by rewrite lookup_empty in H.
Qed.

(** Whatever the site and the model do, a harness run that opens its
    target leaves every panel of the dashboard with a total of 20: the
    run sends no agent.iteration event, the only event that sets the
    total. *)
Lemma harness_run_keeps_default_total (env : Harness.Env) (cfg : Harness.Config)
    (blank : Harness.Page (Harness.browser env)) (id : Z) (panel : AgentState) :
  snd (Harness.goto (Harness.browser env) (Harness.target_url cfg) blank) = None ->
  defaultAgents !! id = Some panel ->
  exists a panel',
    Harness.run env cfg (Harness.init (Harness.browser env) blank)
      = Harness.Returned a
    /\ Harness.iteration_count a = 10
    /\ agents (dashboard_after (Harness.sent a)) !! id = Some panel'
    /\ totalIterations panel' = 20.
Proof.
  intros Hgoto Hpanel.
  destruct (run_makes_ten_iterations env cfg
              (Harness.init (Harness.browser env) blank) Hgoto)
    as (a & body & done & Hrun & Hcount & Hsent & _ & Hnone & _).
  simpl in Hsent.
  destruct (fold_handleEvent_totalIterations (Harness.sent a) initial id panel)
    as (panel' & Hl & Ht).
  - now rewrite Hsent.
  - exact Hpanel.
  - exists a, panel'. split_and!; try assumption.
    rewrite Ht. eapply defaultAgents_total, Hpanel.
Qed.

End CounterFacts.

(** C4, evaluated.  The SQL-injection agent against the demo site runs
    its loop body ten times (ten agent.thinking events, the counter at
    10, the last message agent.complete), and the dashboard that
    received its messages shows the counter of panel 1 as 10 out of 20,
    not out of 10. *)
Theorem harness_counter_shows_ten_of_twenty :
  exists a,
    Harness.run Demo.env Demo.cfg
      (Harness.init (Harness.browser Demo.env) Demo.blank_page)
    = Harness.Returned a
    /\ Props.count_type "agent.thinking" (Harness.sent a) = 10%nat
    /\ Harness.iteration_count a = 10
    /\ Wire.e_type <$> last (Harness.sent a) = Some "agent.complete"
    /\ WsClient.iteration_counter
         <$> WsClient.agents (Props.dashboard_after (Harness.sent a)) !! 1
       = Some (10, 20).
Proof.
  eexists. split; [reflexivity|]. split_and!; by vm_compute.
Qed.

(** ** The object pattern *)

Section SearchFacts.
Import Text Props.

Lemma brace_body_Some (s b : string) :
  brace_body s = Some b ->
  exists body rest, s = body +:+ "}" +:+ rest
                    /\ brace_free body = true /\ b = body +:+ "}".
Proof.
  revert b. induction s as [|c s IH]; intros b; simpl; [discriminate|].
  destruct (Ascii.eqb_spec c "}") as [->|Hclose].
  - intros [= <-]. now exists EmptyString, s.
  - destruct (Ascii.eqb_spec c "{") as [->|Hopen]; [discriminate|].
    destruct (brace_body s) as [b'|]; [|discriminate].
    intros [= <-]. destruct (IH b' eq_refl) as (body & rest & -> & Hfree & ->).
    exists (String c body), rest. split_and!; try reflexivity.
    simpl. rewrite Hfree.
    destruct (Ascii.eqb_spec c "{"); [contradiction|].
    now destruct (Ascii.eqb_spec c "}").
Qed.

Lemma brace_body_complete (body rest : string) :
  brace_free body = true ->
  brace_body (body +:+ "}" +:+ rest) = Some (body +:+ "}").
Proof.
  induction body as [|c body IH]; intros Hfree.
  - reflexivity.
  - simpl in Hfree. apply andb_true_iff in Hfree as [Hc Hfree].
    apply andb_true_iff in Hc as [Hopen Hclose].
    change (String c body +:+ "}" +:+ rest)
      with (String c (body +:+ "}" +:+ rest)).
    change (String c body +:+ "}") with (String c (body +:+ "}")).
    simpl.
    destruct (Ascii.eqb c "}"); [discriminate|].
    destruct (Ascii.eqb c "{"); [discriminate|].
    now rewrite (IH Hfree).
Qed.

(** What the search returns is an object literal of the text. *)
Lemma re_search_object_Some (s m : string) :
  re_search_object s = Some m ->
  exists pre body post,
    s = pre +:+ m +:+ post /\ m = "{" +:+ body +:+ "}"
    /\ brace_free body = true.
Proof.
  revert m. induction s as [|c s IH]; intros m; simpl; [discriminate|].
  assert (re_search_object s = Some m ->
          exists pre body post,
            String c s = pre +:+ m +:+ post /\ m = "{" +:+ body +:+ "}"
            /\ brace_free body = true) as Hrest.
  { intros H. destruct (IH m H) as (pre & body & post & -> & -> & Hfree).
    exists (String c pre), body, post. now rewrite str_app_cons. }
  destruct (Ascii.eqb_spec c "{") as [->|Hopen]; [|exact Hrest].
  destruct (brace_body s) as [b|] eqn:Hb; [|exact Hrest].
  intros [= <-]. apply brace_body_Some in Hb as (body & rest & -> & Hfree & ->).
  exists EmptyString, body, rest. split_and!; try reflexivity; try exact Hfree.
  now rewrite str_app_nil_l, !str_app_cons, str_app_assoc.
Qed.

(** Where the text holds an object literal, the search finds one. *)
Lemma re_search_object_complete (pre body post : string) :
  brace_free body = true ->
  is_Some (re_search_object (pre +:+ "{" +:+ body +:+ "}" +:+ post)).
Proof.
  intros Hfree. induction pre as [|c pre IH].
  - rewrite str_app_nil_l. change ("{" +:+ body +:+ "}" +:+ post)
      with (String "{" (body +:+ "}" +:+ post)).
    simpl. now rewrite brace_body_complete.
  - rewrite str_app_cons. simpl.
    destruct (Ascii.eqb c "{"); [|exact IH].
    now destruct (brace_body (pre +:+ "{" +:+ body +:+ "}" +:+ post)).
Qed.

(** The search fails exactly on the texts without an object literal. *)
Lemma re_search_object_None (s : string) :
  re_search_object s = None <-> no_object s.
Proof.
  unfold no_object. split.
  - intros Hnone (pre & body & post & -> & Hfree).
    destruct (re_search_object_complete pre body post Hfree) as [m Hm].
    congruence.
  - intros Hno. destruct (re_search_object s) as [m|] eqn:Hm; [|reflexivity].
    exfalso. apply Hno.
    apply re_search_object_Some in Hm as (pre & body & post & -> & -> & Hfree).
    exists pre, body, post. split; [|exact Hfree].
    now rewrite !str_app_assoc.
Qed.

(** A reply without an object literal is an invalid reply, whatever
    [json.loads] would do. *)
Lemma reply_without_object_is_invalid (env : Harness.Env) (text : string) :
  no_object text -> invalid_reply env text.
Proof.
  intros H. apply re_search_object_None in H. unfold invalid_reply.
  now rewrite H.
Qed.

End SearchFacts.

(* ===================================================================== *)
(** * Further statements                                                  *)
(* ===================================================================== *)

(** ** Socket client: panels, request log, counters *)

Section PanelFacts.
Import Wire WsClient ScanPage.

Lemma agent_case_identity (prev : ScanWsState) (event : AgentEvent)
    (agent : AgentState) :
  id (fst (fst (agent_case prev event agent))) = id agent
  /\ role (fst (fst (agent_case prev event agent))) = role agent
  /\ name (fst (fst (agent_case prev event agent))) = name agent.
Proof.
  unfold agent_case.
  repeat (match goal with
          | |- context [String.eqb ?a ?b] => destruct (String.eqb a b)
          end; simpl; try (split_and!; reflexivity)).
  now destruct (d_decision (e_data event)).
Qed.

Lemma addressed_lookup (ws : ScanWsState) (e : AgentEvent) :
  (if Z.eqb (e_agentId e) 0 then None else agents ws !! e_agentId e)
  = if addressed ws e then agents ws !! e_agentId e else None.
Proof.
  unfold addressed. destruct (Z.eqb (e_agentId e) 0); simpl; [reflexivity|].
  destruct (agents ws !! e_agentId e) eqn:H; [|reflexivity].
  rewrite bool_decide_eq_true_2; [reflexivity | by eexists].
Qed.

Lemma handleEvent_agents_dom (e : AgentEvent) (ws : ScanWsState) :
  dom (agents (handleEvent e ws)) = dom (agents ws).
Proof.
  unfold handleEvent.
  destruct (Z.eqb (e_agentId e) 0); [reflexivity|].
  destruct (agents ws !! e_agentId e) as [agent0|] eqn:H; [|reflexivity].
  destruct (agent_case ws e agent0) as [[agent fs] net]. simpl.
  rewrite dom_insert_L. apply subseteq_union_1_L, singleton_subseteq_l.
  eapply elem_of_dom_2, H.
Qed.

Lemma handleEvent_identity (e : AgentEvent) (ws : ScanWsState)
    (k : Z) (a : AgentState) :
  agents ws !! k = Some a ->
  exists a', agents (handleEvent e ws) !! k = Some a'
             /\ id a' = id a /\ role a' = role a /\ name a' = name a.
Proof.
  intros Hk. unfold handleEvent.
  destruct (Z.eqb (e_agentId e) 0); [simpl; eauto|].
  destruct (agents ws !! e_agentId e) as [agent0|] eqn:H; [|simpl; eauto].
  pose proof (agent_case_identity ws e agent0) as Hid.
  destruct (agent_case ws e agent0) as [[agent fs] net]. simpl in *.
  destruct (decide (e_agentId e = k)) as [Heq|Hne].
  - subst k. rewrite lookup_insert_eq. exists agent.
    assert (agent0 = a) as -> by congruence. by split.
  - rewrite lookup_insert_ne by exact Hne. eauto.
Qed.

Lemma after_agents_dom (l : list AgentEvent) (ws : ScanWsState) :
  dom (agents (after l ws)) = dom (agents ws).
Proof.
  revert ws. induction l as [|e l IH]; intros ws; simpl; [reflexivity|].
  unfold after in *. simpl. rewrite IH. apply handleEvent_agents_dom.
Qed.

Lemma after_identity (l : list AgentEvent) (ws : ScanWsState)
    (k : Z) (a : AgentState) :
  agents ws !! k = Some a ->
  exists a', agents (after l ws) !! k = Some a'
             /\ id a' = id a /\ role a' = role a /\ name a' = name a.
Proof.
  revert ws a. induction l as [|e l IH]; intros ws a Hk; [simpl; eauto|].
  destruct (handleEvent_identity e ws k a Hk) as (a1 & H1 & Hi & Hr & Hn).
  destruct (IH _ a1 H1) as (a2 & H2 & Hi2 & Hr2 & Hn2).
  exists a2. unfold after in *. simpl. split_and!; congruence.
Qed.

Lemma agentsArray_length (ws : ScanWsState) :
  length (agentsArray ws) = size (dom (agents ws)).
Proof.
  unfold agentsArray. rewrite merge_sort_Permutation, length_fmap.
  by rewrite size_dom, length_map_to_list.
Qed.

(** X1.  No socket event adds, removes or renames a panel: after any
    list of events the agent map has the keys it had, and every panel
    keeps its id, role and name.  From the initial state of the hook the
    page therefore always lists five panels, and the number of completed
    agents it prints is at most 5. *)
Theorem panels_are_fixed (l : list Wire.AgentEvent) (ws : WsClient.ScanWsState) :
  dom (WsClient.agents (ScanPage.after l ws)) = dom (WsClient.agents ws)
  /\ (forall k a,
        WsClient.agents ws !! k = Some a ->
        exists a', WsClient.agents (ScanPage.after l ws) !! k = Some a'
                   /\ WsClient.id a' = WsClient.id a
                   /\ WsClient.role a' = WsClient.role a
                   /\ WsClient.name a' = WsClient.name a)
  /\ length (ScanPage.agentsArray (ScanPage.after l WsClient.initial)) = 5%nat
  /\ (ScanPage.agentsComplete (ScanPage.after l WsClient.initial) <= 5)%nat.
Proof.
  assert (length (agentsArray (after l initial)) = 5%nat) as Hlen.
  { rewrite agentsArray_length, after_agents_dom. by vm_compute. }
  split_and!.
  - apply after_agents_dom.
  - intros k a. apply after_identity.
  - exact Hlen.
  - unfold agentsComplete. rewrite <- Hlen. apply List.filter_length_le.
Qed.

End PanelFacts.

Section SocketCounters.
Import Wire WsClient ScanPage.

Lemma slice_last_length {A} (n : nat) (l : list A) :
  length (slice_last n l) = Nat.min n (length l).
Proof. unfold slice_last. rewrite length_drop. lia. Qed.

Lemma agent_case_network (prev : ScanWsState) (event : AgentEvent)
    (agent : AgentState) :
  snd (agent_case prev event agent)
  = if String.eqb (e_type event) "network.request"
    then slice_last 100 (networkRequests prev) ++ [e_data event]
    else networkRequests prev.
Proof.
  unfold agent_case.
  destruct (String.eqb_spec (e_type event) "network.request") as [->|Hne].
  - reflexivity.
  - repeat (match goal with
            | |- context [String.eqb ?a ?b] =>
                destruct (String.eqb_spec a b); try contradiction
            end; simpl; try reflexivity).
Qed.

Lemma agent_case_vulnerability (prev : ScanWsState) (event : AgentEvent)
    (agent : AgentState) :
  length (snd (fst (agent_case prev event agent)))
  = (length (findings prev)
     + if String.eqb (e_type event) "vulnerability.found" then 1 else 0)%nat.
Proof.
  unfold agent_case.
  destruct (String.eqb_spec (e_type event) "vulnerability.found") as [->|Hne].
  - simpl. rewrite length_app. reflexivity.
  - repeat (match goal with
            | |- context [String.eqb ?a ?b] =>
                destruct (String.eqb_spec a b); try contradiction
            end; simpl; try lia).
Qed.

Lemma handleEvent_network_length (e : AgentEvent) (ws : ScanWsState) :
  (length (networkRequests ws) <= 101 ->
   length (networkRequests (handleEvent e ws)) <= 101)%nat.
Proof.
  intros Hle. unfold handleEvent.
  destruct (if Z.eqb (e_agentId e) 0 then None else agents ws !! e_agentId e)
    as [agent0|]; [|exact Hle].
  pose proof (agent_case_network ws e agent0) as Hn.
  destruct (agent_case ws e agent0) as [[agent fs] net]. simpl in *. subst net.
  destruct (String.eqb (e_type e) "network.request"); [|exact Hle].
  rewrite length_app, slice_last_length. cbn [length]. lia.
Qed.

Lemma handleEvent_addressed (e : AgentEvent) (ws : ScanWsState) (a : AgentState) :
  (if Z.eqb (e_agentId e) 0 then None else agents ws !! e_agentId e) = Some a ->
  networkRequests (handleEvent e ws) = snd (agent_case ws e a)
  /\ findings (handleEvent e ws) = snd (fst (agent_case ws e a)).
Proof.
  intros H. unfold handleEvent. rewrite H.
  now destruct (agent_case ws e a) as [[agent fs] net].
Qed.

Lemma request_step (d : EventData) (ws : ScanWsState) :
  is_Some (agents ws !! 1) ->
  length (networkRequests (handleEvent (Probe.request_event d) ws))
  = S (Nat.min 100 (length (networkRequests ws))).
Proof.
  intros [a Ha].
  rewrite (proj1 (handleEvent_addressed (Probe.request_event d) ws a Ha)).
  rewrite agent_case_network.
  change (String.eqb (e_type (Probe.request_event d)) "network.request")
    with true.
  cbv iota. rewrite length_app, slice_last_length. cbn [length]. lia.
Qed.

(** X2.  The request log of the socket client never holds more than 101
    entries: each network.request event keeps the last 100 and adds one.
    The bound is reached: after n such events of agent 1 the log holds
    min(n, 101) entries. *)
Theorem request_log_is_bounded
    (l : list Wire.AgentEvent) (n : nat) (d : Wire.EventData) :
  (length (WsClient.networkRequests (ScanPage.after l WsClient.initial)) <= 101)%nat
  /\ length (WsClient.networkRequests
               (ScanPage.after (replicate n (Probe.request_event d))
                  WsClient.initial))
     = Nat.min n 101.
Proof.
  split.
  - assert (forall ws, (length (networkRequests ws) <= 101)%nat ->
                       (length (networkRequests (after l ws)) <= 101)%nat) as H.
    { induction l as [|e l IH]; intros ws Hle; [exact Hle|].
      apply IH, handleEvent_network_length, Hle. }
    apply H. simpl. lia.
  - assert (forall ws, is_Some (agents ws !! 1) ->
              length (networkRequests
                        (after (replicate n (Probe.request_event d)) ws))
              = Nat.min (n + length (networkRequests ws)) 
                  (if n is O then length (networkRequests ws) else 101)) as H.
    { induction n as [|n IH]; intros ws Hs; [simpl; lia|].
      change (after (replicate (S n) (Probe.request_event d)) ws)
        with (after (replicate n (Probe.request_event d))
                (handleEvent (Probe.request_event d) ws)).
      rewrite IH.
      - rewrite request_step by exact Hs. destruct n; cbv iota; lia.
      - destruct Hs as [a Ha].
        destruct (handleEvent_identity (Probe.request_event d) ws 1 a Ha)
          as (a' & Ha' & _). by eexists. }
    rewrite H by (vm_compute; eexists; reflexivity).
    destruct n; cbv iota; cbn [length networkRequests initial]; lia.
Qed.

End SocketCounters.

Section FindingCounter.
Import Wire WsClient ScanPage.

Lemma addressed_handleEvent (e e' : AgentEvent) (ws : ScanWsState) :
  addressed (handleEvent e ws) e' = addressed ws e'.
Proof.
  unfold addressed. f_equal. apply bool_decide_ext.
  rewrite <- !elem_of_dom. now rewrite handleEvent_agents_dom.
Qed.

Lemma vulnerability_events_handleEvent (e : AgentEvent) (l : list AgentEvent)
    (ws : ScanWsState) :
  vulnerability_events (handleEvent e ws) l = vulnerability_events ws l.
Proof.
  unfold vulnerability_events. apply List.filter_ext. intros e'.
  now rewrite addressed_handleEvent.
Qed.

Lemma handleEvent_findings_length (e : AgentEvent) (ws : ScanWsState) :
  length (findings (handleEvent e ws))
  = (length (findings ws)
     + if String.eqb (e_type e) "vulnerability.found" && addressed ws e
       then 1 else 0)%nat.
Proof.
  pose proof (addressed_lookup ws e) as Hl.
  destruct (addressed ws e) eqn:Hadd.
  - unfold addressed in Hadd. apply andb_true_iff in Hadd as [_ Hsome].
    apply bool_decide_eq_true in Hsome as [a Ha].
    rewrite Ha in Hl at 2.
    rewrite (proj2 (handleEvent_addressed e ws a Hl)).
    rewrite agent_case_vulnerability, andb_true_r. reflexivity.
  - unfold handleEvent. rewrite Hl, andb_false_r. cbn [findings length]. lia.
Qed.

(** X3.  The aggregate finding list grows by exactly one entry for
    every vulnerability.found event whose agent id is a key of the agent
    map, and by nothing else: after any list of events its length is the
    old length plus the number of such events.  A vulnerability reported
    under an id without a panel (0, or outside the map) is logged as an
    event but never counted as a finding. *)
Theorem findings_count_addressed_vulnerabilities
    (l : list Wire.AgentEvent) (ws : WsClient.ScanWsState) (v : Wire.Vuln) :
  length (WsClient.findings (ScanPage.after l ws))
  = (length (WsClient.findings ws)
     + length (ScanPage.vulnerability_events ws l))%nat
  /\ WsClient.findings
       (WsClient.handleEvent (Probe.vulnerability_event 6 v) WsClient.initial)
     = []
  /\ WsClient.events
       (WsClient.handleEvent (Probe.vulnerability_event 6 v) WsClient.initial)
     = [Probe.vulnerability_event 6 v].
Proof.
  split; [|split; reflexivity].
  revert ws. induction l as [|e l IH]; intros ws.
  - simpl. lia.
  - change (after (e :: l) ws) with (after l (handleEvent e ws)).
    rewrite IH, handleEvent_findings_length, vulnerability_events_handleEvent.
    unfold vulnerability_events. cbn [List.filter].
    destruct (String.eqb (e_type e) "vulnerability.found" && addressed ws e);
      cbn [length]; lia.
Qed.

Lemma handleEvent_scanStatus (e : AgentEvent) (ws : ScanWsState) :
  scanStatus (handleEvent e ws)
  = if String.eqb (e_type e) "scan.complete" then completed
    else if String.eqb (e_type e) "scan.stopped" then stopped
    else scanStatus ws.
Proof.
  unfold handleEvent.
  destruct (if Z.eqb (e_agentId e) 0 then None else agents ws !! e_agentId e)
    as [agent0|]; [|reflexivity].
  now destruct (agent_case ws e agent0) as [[agent fs] net].
Qed.

Lemma after_not_running (l : list AgentEvent) (ws : ScanWsState) :
  scanStatus ws <> running -> scanStatus (after l ws) <> running.
Proof.
  revert ws. induction l as [|e l IH]; intros ws Hne; [exact Hne|].
  change (after (e :: l) ws) with (after l (handleEvent e ws)).
  apply IH. rewrite handleEvent_scanStatus.
  destruct (String.eqb (e_type e) "scan.complete"); [discriminate|].
  destruct (String.eqb (e_type e) "scan.stopped"); [discriminate|exact Hne].
Qed.

Lemma after_app (l1 l2 : list AgentEvent) (ws : ScanWsState) :
  after (l1 ++ l2) ws = after l2 (after l1 ws).
Proof. unfold after. apply fold_left_app. Qed.

(** X4.  Once a scan.complete or scan.stopped event has been processed
    the scan status never shows running again, whatever events arrive
    afterwards (the status is then completed or stopped; a later
    scan.stopped replaces completed and conversely). *)
Theorem scan_status_leaves_running_for_good
    (before later : list Wire.AgentEvent) (e : Wire.AgentEvent)
    (ws : WsClient.ScanWsState) :
  Wire.e_type e = "scan.complete" \/ Wire.e_type e = "scan.stopped" ->
  WsClient.scanStatus (ScanPage.after (before ++ e :: later) ws)
  <> WsClient.running.
Proof.
  intros He. rewrite after_app.
  change (after (e :: later) (after before ws))
    with (after later (handleEvent e (after before ws))).
  apply after_not_running. rewrite handleEvent_scanStatus.
  destruct He as [-> | ->]; discriminate.
Qed.

Lemma scan_status_leaves_running_for_good_witness :
  Wire.e_type (Probe.scan_event "scan.stopped") = "scan.stopped"
  /\ WsClient.scanStatus
       (ScanPage.after
          ([] ++ Probe.scan_event "scan.stopped"
              :: [Probe.vulnerability_event 1 Probe.a_vuln])
          WsClient.initial)
     <> WsClient.running.
Proof.
  split; [reflexivity|].
  apply (scan_status_leaves_running_for_good []
           [Probe.vulnerability_event 1 Probe.a_vuln]
           (Probe.scan_event "scan.stopped") WsClient.initial).
  right. reflexivity.
Defined.

End FindingCounter.

(** ** Harness: the other role heuristics *)

Section OtherRoles.
Import Text Wire Harness Props RunProps.
Context (env : Env) (cfg : Config).
Local Abbreviation B := (browser env).

Lemma check_auth (p : Page B) (decision : gmap string string) (prev : Snapshot) :
  role cfg = "auth" ->
  check_for_vulnerability env cfg p decision prev =
  if any_in ["admin"; "dashboard"; "welcome"; "logout"] (str_lower env (content B p))
     && (contains "admin" (str_lower env (url B p))
         || contains "dashboard" (str_lower env (url B p)))
  then Some (vuln "Authentication Bypass" "CRITICAL" (url B p)
               "Accessed privileged area without authentication" "CWE-287" 91
               None None (decision !! "reasoning") None)
  else None.
Proof.
  intros Hrole. unfold check_for_vulnerability. rewrite Hrole.
  change (String.eqb "auth" "sqli") with false.
  change (String.eqb "auth" "xss") with false.
  change (String.eqb "auth" "auth") with true. cbv iota.
  now destruct (any_in ["admin"; "dashboard"; "welcome"; "logout"]
                  (str_lower env (content B p))).
Qed.

Lemma check_idor (p : Page B) (decision : gmap string string) (prev : Snapshot) :
  role cfg = "idor" ->
  check_for_vulnerability env cfg p decision prev =
  if String.eqb (getitem decision "action") "navigate"
     && any_in ["email"; "phone"; "address"; "ssn"; "credit card"]
          (str_lower env (content B p))
     && idor_path env (url B p)
  then Some (vuln "Insecure Direct Object Reference (IDOR)" "HIGH" (url B p)
               "Accessed user data by manipulating ID parameter" "CWE-639" 81
               None None None None)
  else None.
Proof.
  intros Hrole. unfold check_for_vulnerability. rewrite Hrole.
  change (String.eqb "idor" "sqli") with false.
  change (String.eqb "idor" "xss") with false.
  change (String.eqb "idor" "auth") with false.
  change (String.eqb "idor" "idor") with true. cbv iota.
  destruct (String.eqb (getitem decision "action") "navigate"); [|reflexivity].
  now destruct (any_in ["email"; "phone"; "address"; "ssn"; "credit card"]
                  (str_lower env (content B p))).
Qed.

Lemma check_csrf (p : Page B) (decision : gmap string string) (prev : Snapshot) :
  role cfg = "csrf" ->
  check_for_vulnerability env cfg p decision prev =
  if String.eqb (getitem decision "action") "fill"
     && (negb (contains "csrf" (str_lower env (content B p)))
         && negb (contains "token" (str_lower env (content B p))))
  then Some (vuln "Missing CSRF Protection" "MEDIUM" (url B p)
               "State-changing form lacks CSRF token" "CWE-352" 65
               None None None (decision !! "selector"))
  else None.
Proof.
  intros Hrole. unfold check_for_vulnerability. rewrite Hrole.
  change (String.eqb "csrf" "sqli") with false.
  change (String.eqb "csrf" "xss") with false.
  change (String.eqb "csrf" "auth") with false.
  change (String.eqb "csrf" "idor") with false.
  change (String.eqb "csrf" "csrf") with true. cbv iota.
  now destruct (String.eqb (getitem decision "action") "fill").
Qed.



End OtherRoles.

Section PatternFacts.
Import Text Harness Props RunProps.

Lemma str_drop_app (p post : string) :
  str_drop (String.length p) (p +:+ post) = post.
Proof. induction p as [|c p IH]; [reflexivity | exact IH]. Qed.

Lemma then_digit_nil (env : Env) (p : string) :
  then_digit env p EmptyString
  = String.prefix p EmptyString
    && re_digit env (str_drop (String.length p) EmptyString).
Proof. simpl. now rewrite orb_false_r. Qed.

Lemma then_digit_cons (env : Env) (p : string) (d : ascii) (t : string) :
  then_digit env p (String d t)
  = (String.prefix p (String d t)
     && re_digit env (str_drop (String.length p) (String d t)))
    || then_digit env p t.
Proof. reflexivity. Qed.

Lemma head_digit_iff (env : Env) (p s : string) :
  String.prefix p s && re_digit env (str_drop (String.length p) s) = true
  <-> exists rest, s = p +:+ rest /\ re_digit env rest = true.
Proof.
  split.
  - intros [Hp Hd]%andb_true_iff.
    apply prefix_true_iff in Hp as [post ->]. rewrite str_drop_app in Hd.
    now exists post.
  - intros (rest & -> & Hd).
    assert (String.prefix p (p +:+ rest) = true) as ->
      by (apply prefix_true_iff; now eexists).
    now rewrite str_drop_app.
Qed.

(** [then_digit] decides "some occurrence of [p] is followed by a
    character that the digit class matches". *)
Lemma then_digit_true_iff (env : Env) (p s : string) :
  then_digit env p s = true
  <-> exists pre rest, s = pre +:+ p +:+ rest /\ re_digit env rest = true.
Proof.
  induction s as [|d t IH].
  - rewrite then_digit_nil, head_digit_iff. split.
    + intros (rest & H & Hd). now exists EmptyString, rest.
    + intros (pre & rest & H & Hd). destruct pre; [|discriminate H].
      rewrite str_app_nil_l in H. now exists rest.
  - rewrite then_digit_cons, orb_true_iff, head_digit_iff, IH. split.
    + intros [(rest & H & Hd)|(pre & rest & H & Hd)].
      * now exists EmptyString, rest.
      * exists (String d pre), rest. now rewrite str_app_cons, H.
    + intros (pre & rest & H & Hd). destruct pre as [|e pre].
      * left. now exists rest.
      * right. rewrite str_app_cons in H. injection H as _ H.
        now exists pre, rest.
Qed.

Lemma idor_path_true_iff (env : Env) (u : string) :
  idor_path env u = true
  <-> exists p pre rest,
        In p idor_prefixes /\ u = pre +:+ p +:+ rest
        /\ re_digit env rest = true.
Proof.
  unfold idor_path. fold idor_prefixes. rewrite existsb_exists. split.
  - intros (p & Hin & Hd). apply then_digit_true_iff in Hd
      as (pre & rest & H & Hc). now exists p, pre, rest.
  - intros (p & pre & rest & Hin & H & Hc). exists p. split; [exact Hin|].
    apply then_digit_true_iff. now exists pre, rest.
Qed.

End PatternFacts.

(** X5.  For the auth role a finding is reported exactly when the
    lower-cased page content holds admin, dashboard, welcome or logout
    and the lower-cased address holds admin or dashboard; it is always a
    CRITICAL "Authentication Bypass" finding.  Neither the decision just
    executed nor the previous page state plays a part: on the same page
    every decision gets the same verdict. *)
Theorem auth_finding_iff_privileged_page
    (env : Harness.Env) (cfg : Harness.Config)
    (p : Harness.Page (Harness.browser env))
    (decision other : gmap string string) (prev prev' : Harness.Snapshot) :
  Harness.role cfg = "auth" ->
  (Props.reports env cfg p decision prev "CRITICAL"
   <-> (exists w, In w ["admin"; "dashboard"; "welcome"; "logout"]
                  /\ Props.occurs w
                       (Harness.str_lower env (Harness.content (Harness.browser env) p)))
       /\ (Props.occurs "admin"
             (Harness.str_lower env (Harness.url (Harness.browser env) p))
           \/ Props.occurs "dashboard"
                (Harness.str_lower env (Harness.url (Harness.browser env) p))))
  /\ (forall v,
        Harness.check_for_vulnerability env cfg p decision prev = Some v ->
        Wire.v_severity v = "CRITICAL" /\ Wire.v_type v = "Authentication Bypass")
  /\ (is_Some (Harness.check_for_vulnerability env cfg p other prev')
      <-> is_Some (Harness.check_for_vulnerability env cfg p decision prev)).
Proof.
  intros Hrole. unfold Props.reports.
  rewrite !(check_auth env cfg) by exact Hrole.
  rewrite <- any_in_occurs, <- !contains_occurs, <- orb_true_iff, <- andb_true_iff.
  destruct (_ && _); split_and!.
  - split; [reflexivity | intros _; eexists; split; reflexivity].
  - intros v [= <-]. now split.
  - split; intros _; by eexists.
  - split; [intros (v & Hv & _); discriminate Hv | discriminate].
  - intros v Hv. discriminate Hv.
  - split; intros [x Hx]; discriminate Hx.
Qed.

Lemma auth_finding_iff_privileged_page_witness :
  Harness.role Cases.auth_cfg = "auth"
  /\ Props.reports Demo.env Cases.auth_cfg Cases.admin_page
       Cases.hover_decision (Demo.snapshot_at "https://shop.example/admin")
       "CRITICAL".
Proof.
  split; [reflexivity|].
  apply (proj2 (proj1
    (auth_finding_iff_privileged_page Demo.env Cases.auth_cfg Cases.admin_page
       Cases.hover_decision Cases.hover_decision
       (Demo.snapshot_at "https://shop.example/admin")
       (Demo.snapshot_at "https://shop.example/admin") eq_refl))).
  split.
  - exists "admin". split; [now left|].
    exists "<h1>", "</h1><a href=/logout>logout</a>". by vm_compute.
  - left. exists "https://shop.example/", EmptyString. by vm_compute.
Defined.

(** X6.  For the IDOR role a HIGH finding is reported exactly when the
    decision was a navigation, the lower-cased content holds email,
    phone, address, ssn or credit card, and the address holds /user/,
    /users/, /account/, /accounts/, /profile/ or /profiles/ directly
    followed by a character of the regular expression's digit class
    (a decimal digit of any script; what the interpreter's class holds
    is not fixed here). *)
Theorem idor_finding_iff_numbered_resource
    (env : Harness.Env) (cfg : Harness.Config)
    (p : Harness.Page (Harness.browser env))
    (decision : gmap string string) (prev : Harness.Snapshot) :
  Harness.role cfg = "idor" ->
  (Props.reports env cfg p decision prev "HIGH"
   <-> Harness.getitem decision "action" = "navigate"
       /\ (exists w, In w ["email"; "phone"; "address"; "ssn"; "credit card"]
                     /\ Props.occurs w
                          (Harness.str_lower env (Harness.content (Harness.browser env) p)))
       /\ (exists prefix pre rest,
             In prefix RunProps.idor_prefixes
             /\ Harness.url (Harness.browser env) p
                = pre +:+ prefix +:+ rest
             /\ Harness.re_digit env rest = true))
  /\ (forall v,
        Harness.check_for_vulnerability env cfg p decision prev = Some v ->
        Wire.v_severity v = "HIGH").
Proof.
  intros Hrole. unfold Props.reports.
  rewrite (check_idor env cfg) by exact Hrole.
  rewrite <- any_in_occurs, <- idor_path_true_iff, <- String.eqb_eq,
    <- !andb_true_iff, andb_assoc.
  destruct (_ && _); split.
  - split; [reflexivity | intros _; eexists; split; reflexivity].
  - now intros v [= <-].
  - split; [intros (v & Hv & _); discriminate Hv | discriminate].
  - intros v Hv. discriminate Hv.
Qed.

Lemma idor_finding_iff_numbered_resource_witness :
  Harness.role Cases.idor_cfg = "idor"
  /\ Props.reports Demo.env Cases.idor_cfg Cases.user_page
       Cases.visit_decision (Demo.snapshot_at "https://shop.example/") "HIGH".
Proof.
  split; [reflexivity|].
  apply (proj2 (proj1
    (idor_finding_iff_numbered_resource Demo.env Cases.idor_cfg Cases.user_page
       Cases.visit_decision (Demo.snapshot_at "https://shop.example/")
       eq_refl))).
  split; [by vm_compute|]. split.
  - exists "email". split; [now left|].
    exists "{ name: bob, ", ": bob@shop.example }". by vm_compute.
  - exists "/users/", "https://shop.example/api", "2".
    split; [right; now left|]. split; by vm_compute.
Defined.

(** X7.  For the CSRF role a MEDIUM finding is reported exactly when the
    decision filled a field and the lower-cased page content holds
    neither csrf nor token; the form is the decision's selector. *)
Theorem csrf_finding_iff_no_token_marker
    (env : Harness.Env) (cfg : Harness.Config)
    (p : Harness.Page (Harness.browser env))
    (decision : gmap string string) (prev : Harness.Snapshot) :
  Harness.role cfg = "csrf" ->
  (Props.reports env cfg p decision prev "MEDIUM"
   <-> Harness.getitem decision "action" = "fill"
       /\ ~ Props.occurs "csrf"
              (Harness.str_lower env (Harness.content (Harness.browser env) p))
       /\ ~ Props.occurs "token"
              (Harness.str_lower env (Harness.content (Harness.browser env) p)))
  /\ (forall v,
        Harness.check_for_vulnerability env cfg p decision prev = Some v ->
        Wire.v_severity v = "MEDIUM"
        /\ Wire.v_form v = decision !! "selector").
Proof.
  intros Hrole. unfold Props.reports.
  rewrite (check_csrf env cfg) by exact Hrole.
  rewrite <- !contains_occurs, <- String.eqb_eq, !not_true_iff_false,
    <- !negb_true_iff, <- !andb_true_iff.
  destruct (_ && _); split.
  - split; [reflexivity | intros _; eexists; split; reflexivity].
  - now intros v [= <-].
  - split; [intros (v & Hv & _); discriminate Hv | discriminate].
  - intros v Hv. discriminate Hv.
Qed.

Lemma csrf_finding_iff_no_token_marker_witness :
  Harness.role Cases.csrf_cfg = "csrf"
  /\ Props.reports Demo.env Cases.csrf_cfg Cases.form_page
       Demo.xss_decision (Demo.snapshot_at "https://shop.example/profile")
       "MEDIUM".
Proof.
  split; [reflexivity|].
  apply (proj2 (proj1
    (csrf_finding_iff_no_token_marker Demo.env Cases.csrf_cfg Cases.form_page
       Demo.xss_decision (Demo.snapshot_at "https://shop.example/profile")
       eq_refl))).
  split; [by vm_compute|].
  split; intros H; apply contains_occurs in H; by vm_compute in H.
Defined.

(** ** Harness: what a run accumulates *)

Section ProgressFacts.
Import Text Wire Harness Props RunProps.
Context (env : Env) (cfg : Config).
Local Abbreviation B := (browser env).

Lemma progress_refl (a : Agent B) : progress env cfg 0 0 a a.
Proof.
  exists [], [], []. rewrite !app_nil_r. split_and!; try reflexivity;
    try constructor.
Qed.

Lemma progress_trans (f1 c1 f2 c2 : nat) (a b c : Agent B) :
  progress env cfg f1 c1 a b -> progress env cfg f2 c2 b c ->
  progress env cfg (f1 + f2) (c1 + c2) a c.
Proof.
  intros (t1 & n1 & k1 & Hs1 & Hf1 & Hc1 & Hv1 & Hd1 & Hi1 & Hk1 & Hl1 & Hm1)
         (t2 & n2 & k2 & Hs2 & Hf2 & Hc2 & Hv2 & Hd2 & Hi2 & Hk2 & Hl2 & Hm2).
  exists (t1 ++ t2), (n1 ++ n2), (k1 ++ k2).
  rewrite Hs2, Hs1, Hf2, Hf1, Hc2, Hc1, <- !app_assoc, !count_type_app,
    !length_app.
  split_and!; try reflexivity; try lia; by apply Forall_app.
Qed.

Lemma progress_weaken (f c f' c' : nat) (a b : Agent B) :
  progress env cfg f c a b -> (f <= f')%nat -> (c <= c')%nat ->
  progress env cfg f' c' a b.
Proof.
  intros (t & n & k & H) Hf Hc. exists t, n, k.
  destruct H as (?&?&?&?&?&?&?&?&?). split_and!; try assumption; lia.
Qed.

Lemma count_type_singleton (t : string) (e : AgentEvent) :
  count_type t [e] = if String.eqb (e_type e) t then 1%nat else 0%nat.
Proof.
  unfold count_type. cbn [List.filter].
  now destruct (String.eqb (e_type e) t).
Qed.

Lemma progress_send (t : string) (d : EventData) (a : Agent B) :
  String.eqb t "vulnerability.found" = false ->
  String.eqb t "agent.complete" = false ->
  progress env cfg 0 0 a (send_event env cfg t d a).
Proof.
  intros Hv Hc.
  exists [{| e_type := t; e_agentId := agent_id cfg; e_role := role cfg;
             e_scanId := scan_id cfg; e_data := d |}], [], [].
  rewrite !app_nil_r, !count_type_singleton. cbn [e_type]. rewrite Hv, Hc.
  split_and!; try reflexivity; by repeat constructor.
Qed.

Lemma progress_issue (c : BrowserCall) (a : Agent B) :
  progress env cfg 0 1 a (fst (issue env c a)).
Proof.
  destruct (issue_calls env c a) as (Hc & Hs & Hf & _).
  exists [], [], [c]. rewrite Hc, Hs, Hf, !app_nil_r.
  split_and!; try reflexivity; by repeat constructor.
Qed.

Lemma progress_execute_action (decision : gmap string string) (a : Agent B) :
  progress env cfg 0 1 a (execute_action env cfg decision a).
Proof.
  unfold execute_action.
  set (a1 := send_event env cfg "agent.action" _ a).
  assert (progress env cfg 0 0 a a1) as H1
    by (apply (progress_send "agent.action"); reflexivity).
  destruct (if String.eqb (getitem decision "action") "fill" then _ else _)
    as [c|]; [|eapply progress_weaken; [exact H1|lia..]].
  pose proof (progress_issue c a1) as H2.
  destruct (issue env c a1) as [a2 [e|]]; simpl in H2.
  - apply (progress_trans 0 1 0 0 a a2);
      [apply (progress_trans 0 0 0 1 a a1); assumption|].
    apply (progress_send "agent.error"); reflexivity.
  - apply (progress_trans 0 0 0 1 a a1); assumption.
Qed.

Lemma progress_take_screenshot (label : string) (a : Agent B) :
  progress env cfg 0 0 a (take_screenshot env cfg label a).
Proof.
  unfold take_screenshot. destruct (screenshot B (page a)).
  - apply (progress_send "agent.screenshot"); reflexivity.
  - apply progress_refl.
Qed.

Lemma progress_report (v : Vuln) (d : EventData) (a : Agent B) :
  checked env cfg v ->
  progress env cfg 1 0 a
    (send_event env cfg "vulnerability.found" d (add_finding env v a)).
Proof.
  intros Hv.
  exists [{| e_type := "vulnerability.found"; e_agentId := agent_id cfg;
             e_role := role cfg; e_scanId := scan_id cfg; e_data := d |}],
         [v], [].
  rewrite !app_nil_r, !count_type_singleton.
  split_and!; try reflexivity; try (cbn [length]; lia); by repeat constructor.
Qed.

Lemma progress_act_on (decision : gmap string string) (state : Snapshot)
    (a : Agent B) :
  progress env cfg 1 1 a (act_on env cfg decision state a).
Proof.
  unfold act_on.
  set (a1 := send_event env cfg "agent.decision" _ a).
  set (a2 := execute_action env cfg decision a1).
  assert (progress env cfg 0 1 a a2) as H2.
  { apply (progress_trans 0 0 0 1 a a1).
    - apply (progress_send "agent.decision"); reflexivity.
    - apply progress_execute_action. }
  eapply (progress_trans 1 1 0 0); cycle 1; [apply progress_take_screenshot|].
  destruct (check_for_vulnerability env cfg (page a2) decision state)
    as [v|] eqn:Hv.
  - apply (progress_trans 0 1 1 0 a a2); [exact H2|].
    apply progress_report. by exists (page a2), decision, state.
  - eapply progress_weaken; [exact H2|lia..].
Qed.

Lemma progress_get_next_action (iteration : nat) (state : Snapshot) (a : Agent B) :
  progress env cfg 0 0 a (snd (get_next_action env cfg iteration state a)).
Proof.
  unfold get_next_action.
  set (a1 := send_event env cfg "agent.thinking" _ a).
  assert (progress env cfg 0 0 a a1) as H1
    by (apply (progress_send "agent.thinking"); reflexivity).
  destruct (claude env iteration (role cfg) state (length (findings a)));
    simpl; [|exact H1].
  apply (progress_trans 0 0 0 0 a a1); [exact H1|].
  apply (progress_send "agent.thought"); reflexivity.
Qed.

Lemma progress_loop_body (iteration : nat) (a : Agent B) :
  progress env cfg 1 1 a (loop_body env cfg iteration a).
Proof.
  unfold loop_body.
  set (a1 := set_iteration_count env (Z.of_nat iteration + 1) a).
  assert (progress env cfg 0 0 a a1) as H0.
  { exists [], [], []. simpl. rewrite !app_nil_r.
    split_and!; try reflexivity; try constructor. }
  pose proof (progress_get_next_action iteration
                (capture_state env (page a1)) a1) as H1.
  destruct (get_next_action env cfg iteration (capture_state env (page a1)) a1)
    as [[decision|] a2]; simpl in H1.
  - destruct (bool_decide (decision = ∅)).
    + eapply progress_weaken;
        [apply (progress_trans 0 0 0 0 a a1 a2); assumption|lia..].
    + apply (progress_trans 0 0 1 1 a a2);
        [apply (progress_trans 0 0 0 0 a a1 a2); assumption|].
      apply progress_act_on.
  - eapply progress_weaken;
      [apply (progress_trans 0 0 0 0 a a1 a2); assumption|lia..].
Qed.

Lemma progress_loop_over (its : list nat) (a : Agent B) :
  progress env cfg (length its) (length its) a (loop_over env cfg its a).
Proof.
  revert a. induction its as [|i its IH]; intros a.
  - apply progress_refl.
  - change (loop_over env cfg (i :: its) a)
      with (loop_over env cfg its (loop_body env cfg i a)).
    apply (progress_trans 1 1 (length its) (length its) a
             (loop_body env cfg i a));
      [apply progress_loop_body | apply IH].
Qed.

(** The shape of every run: the announcement, the first navigation and,
    when it succeeds, the screenshot, the loop and the closing message. *)
Lemma run_shape (a : Agent B) :
  match run env cfg a with
  | Returned a' =>
      exists a2 a3 started done,
        sent a2 = sent a ++ [started]
        /\ e_type started = "agent.started"
        /\ e_agentId started = agent_id cfg
        /\ findings a2 = findings a
        /\ calls a2 = calls a ++ [Goto (target_url cfg)]
        /\ progress env cfg 10 10 a2 a3
        /\ findings a' = findings a3 /\ calls a' = calls a3
        /\ sent a' = sent a3 ++ [done]
        /\ e_type done = "agent.complete"
        /\ e_agentId done = agent_id cfg
        /\ d_findings (e_data done) = Some (findings a3)
  | Raised _ a' =>
      findings a' = findings a
      /\ calls a' = calls a ++ [Goto (target_url cfg)]
      /\ List.map e_type (sent a') = List.map e_type (sent a) ++ ["agent.started"]
  end.
Proof.
  unfold run.
  set (a1 := send_event env cfg "agent.started" _ a).
  destruct (issue_calls env (Goto (target_url cfg)) a1) as (Hc & Hs & Hf & _).
  destruct (issue env (Goto (target_url cfg)) a1) as [a2 [e|]] eqn:Hi;
    simpl in Hc, Hs, Hf.
  - split_and!; [exact Hf | exact Hc |].
    rewrite Hs. simpl. now rewrite List.map_app.
  - eexists a2, (main_loop env cfg (take_screenshot env cfg "initial_load" a2)),
      _, _.
    split_and!;
      [exact Hs | reflexivity | reflexivity | exact Hf | exact Hc
      | | reflexivity..].
    eapply progress_weaken;
      [apply (progress_trans 0 0 10 10 a2
                (take_screenshot env cfg "initial_load" a2));
         [apply progress_take_screenshot
         |apply (progress_loop_over iterations)]
      |lia..].
Qed.

End ProgressFacts.

(** X8.  A run that returns is bounded: it has handed the browser the
    target address first and then at most ten further calls (one per
    iteration at most), and it has added at most ten findings (one per
    iteration at most); earlier calls and findings stay in place. *)
Theorem returned_run_is_bounded
    (env : Harness.Env) (cfg : Harness.Config)
    (a a' : Harness.Agent (Harness.browser env)) :
  Harness.run env cfg a = Harness.Returned a' ->
  exists newc newf,
    Harness.calls a'
    = Harness.calls a ++ Harness.Goto (Harness.target_url cfg) :: newc
    /\ (length newc <= 10)%nat
    /\ Harness.findings a' = Harness.findings a ++ newf
    /\ (length newf <= 10)%nat.
Proof.
  intros Hrun. pose proof (run_shape env cfg a) as H. rewrite Hrun in H.
  destruct H as (a2 & a3 & started & done & _ & _ & _ & Hf2 & Hc2 & Hp
                 & Hf & Hc & _).
  destruct Hp as (tail & newf & newc & _ & Hf3 & Hc3 & _ & _ & _ & _ & Hl & Hm).
  exists newc, newf. rewrite Hc, Hc3, Hc2, Hf, Hf3, Hf2, <- app_assoc.
  by split_and!.
Qed.

Lemma returned_run_is_bounded_witness :
  exists newc (newf : list Wire.Vuln),
    Harness.calls
      (RunEnd.final (Harness.run Demo.env Demo.cfg
                       (Harness.init (Harness.browser Demo.env) Demo.blank_page)))
    = [] ++ Harness.Goto "https://shop.example/login" :: newc
    /\ (length newc <= 10)%nat
    /\ (length newf <= 10)%nat.
Proof.
  destruct (returned_run_is_bounded Demo.env Demo.cfg
              (Harness.init (Harness.browser Demo.env) Demo.blank_page)
              (RunEnd.final (Harness.run Demo.env Demo.cfg
                 (Harness.init (Harness.browser Demo.env) Demo.blank_page)))
              eq_refl)
    as (newc & newf & Hc & Hlc & _ & Hlf).
  exists newc, newf. split_and!; [exact Hc|exact Hlc|exact Hlf].
Defined.



Lemma run_messages_agree_with_findings_core
    (env : Harness.Env) (cfg : Harness.Config)
    (a a' : Harness.Agent (Harness.browser env)) :
  Harness.run env cfg a = Harness.Returned a' ->
  exists body done newf,
    Harness.sent a' = Harness.sent a ++ body ++ [done]
    /\ Harness.findings a' = Harness.findings a ++ newf
    /\ Props.count_type "vulnerability.found" body = length newf
    /\ Props.count_type "agent.complete" body = 0%nat
    /\ Wire.e_type done = "agent.complete"
    /\ Wire.d_findings (Wire.e_data done) = Some (Harness.findings a')
    /\ Forall (fun e => Wire.e_agentId e = Harness.agent_id cfg) (body ++ [done]).
Proof.
  intros Hrun. pose proof (run_shape env cfg a) as H. rewrite Hrun in H.
  destruct H as (a2 & a3 & started & done & Hs2 & Ht & Hi & Hf2 & _ & Hp
                 & Hf & _ & Hs & Hd & Hdi & Hdf).
  destruct Hp as (tail & newf & newc & Hs3 & Hf3 & _ & Hv & Hc & Hid & _).
  exists (started :: tail), done, newf.
  rewrite Hs, Hs3, Hs2, Hf, Hf3, Hf2, <- !app_assoc.
  change (started :: tail) with ([started] ++ tail).
  rewrite !count_type_app, !count_type_singleton, Ht, Hv, Hc.
  split_and!; try reflexivity; try assumption.
  - now rewrite Hdf, Hf3, Hf2.
  - apply Forall_app. split; [|by repeat constructor].
    apply Forall_app. split; [by repeat constructor | exact Hid].
Qed.

(** X10.  When a run returns, its messages and its findings agree: the
    messages sent are the earlier ones, a body without agent.complete,
    and one closing agent.complete message; the body holds exactly one
    vulnerability.found message per finding added; and the closing
    message carries the agent's whole finding list. *)
Theorem run_messages_agree_with_findings
    (env : Harness.Env) (cfg : Harness.Config)
    (a a' : Harness.Agent (Harness.browser env)) :
  Harness.run env cfg a = Harness.Returned a' ->
  exists body done newf,
    Harness.sent a' = Harness.sent a ++ body ++ [done]
    /\ Harness.findings a' = Harness.findings a ++ newf
    /\ Props.count_type "vulnerability.found" body = length newf
    /\ Props.count_type "agent.complete" body = 0%nat
    /\ Wire.e_type done = "agent.complete"
    /\ Wire.d_findings (Wire.e_data done) = Some (Harness.findings a')
    /\ Forall (fun e => Wire.e_agentId e = Harness.agent_id cfg) (body ++ [done]).
Proof. apply run_messages_agree_with_findings_core. Qed.

Lemma run_messages_agree_with_findings_witness :
  exists body done (newf : list Wire.Vuln),
    Harness.sent
      (RunEnd.final (Harness.run Demo.env Demo.cfg
                       (Harness.init (Harness.browser Demo.env) Demo.blank_page)))
    = [] ++ body ++ [done]
    /\ Props.count_type "vulnerability.found" body = length newf.
Proof.
  destruct (run_messages_agree_with_findings Demo.env Demo.cfg
              (Harness.init (Harness.browser Demo.env) Demo.blank_page)
              (RunEnd.final (Harness.run Demo.env Demo.cfg
                 (Harness.init (Harness.browser Demo.env) Demo.blank_page)))
              eq_refl)
    as (body & done & newf & Hs & _ & Hv & _).
  exists body, done, newf. split; [exact Hs | exact Hv].
Defined.

Section RunAndDashboard.
Import Text Wire Harness Props RunProps.

Lemma panel_key_nonzero (k : Z) (panel : WsClient.AgentState) :
  WsClient.defaultAgents !! k = Some panel -> Z.eqb k 0 = false.
Proof.
  intros H. destruct (Z.eqb_spec k 0) as [->|Hne]; [|reflexivity].
  by vm_compute in H.
Qed.

Lemma handleEvent_started (e : AgentEvent) (ws : WsClient.ScanWsState)
    (panel : WsClient.AgentState) :
  e_type e = "agent.started" ->
  Z.eqb (e_agentId e) 0 = false ->
  WsClient.agents ws !! e_agentId e = Some panel ->
  WsClient.agents (WsClient.handleEvent e ws) !! e_agentId e
  = Some (WsClient.set_status WsClient.started panel).
Proof.
  intros Ht Hz Hl. unfold WsClient.handleEvent. rewrite Hz, Hl.
  unfold WsClient.agent_case. rewrite Ht.
  change (String.eqb "agent.started" "agent.started") with true. cbv iota.
  simpl. apply lookup_insert_eq.
Qed.

Lemma handleEvent_complete (e : AgentEvent) (ws : WsClient.ScanWsState)
    (panel : WsClient.AgentState) :
  e_type e = "agent.complete" ->
  Z.eqb (e_agentId e) 0 = false ->
  WsClient.agents ws !! e_agentId e = Some panel ->
  exists panel',
    WsClient.agents (WsClient.handleEvent e ws) !! e_agentId e = Some panel'
    /\ WsClient.status panel' = WsClient.complete
    /\ WsClient.a_findings panel'
       = default [] (List.map WsClient.OfVuln <$> d_findings (e_data e)).
Proof.
  intros Ht Hz Hl. unfold WsClient.handleEvent. rewrite Hz, Hl.
  unfold WsClient.agent_case. rewrite Ht.
  change (String.eqb "agent.complete" "agent.started") with false.
  change (String.eqb "agent.complete" "agent.thinking") with false.
  change (String.eqb "agent.complete" "agent.thought") with false.
  change (String.eqb "agent.complete" "agent.decision") with false.
  change (String.eqb "agent.complete" "agent.action") with false.
  change (String.eqb "agent.complete" "agent.iteration") with false.
  change (String.eqb "agent.complete" "agent.screenshot") with false.
  change (String.eqb "agent.complete" "agent.complete") with true.
  cbv iota. simpl. eexists. rewrite lookup_insert_eq.
  split_and!; reflexivity.
Qed.

End RunAndDashboard.

Section Traffic.
Import Wire WsClient RunTypes.

Lemma network_type (e : AgentEvent) :
  is_network e = true ->
  e_type e = "network.request" \/ e_type e = "network.response".
Proof.
  unfold is_network. intros [H|H]%orb_true_iff;
    apply String.eqb_eq in H; tauto.
Qed.

Lemma agent_case_network_agent (prev : ScanWsState) (e : AgentEvent)
    (agent : AgentState) :
  is_network e = true -> (agent_case prev e agent).1.1 = agent.
Proof.
  intros [H|H]%network_type; unfold agent_case; rewrite H; reflexivity.
Qed.

(** The panel computed by the switch depends on the event and on the
    panel, not on the rest of the state. *)
Lemma agent_case_agent (prev prev' : ScanWsState) (e : AgentEvent)
    (agent : AgentState) :
  (agent_case prev e agent).1.1 = (agent_case prev' e agent).1.1.
Proof.
  unfold agent_case.
  repeat (match goal with
          | |- context [if ?b then _ else _] => destruct b
          end; try reflexivity).
Qed.

Lemma handleEvent_agents_eq (e : AgentEvent) (ws : ScanWsState) :
  agents (handleEvent e ws)
  = match (if Z.eqb (e_agentId e) 0 then None
           else agents ws !! e_agentId e) with
    | Some agent0 =>
        <[e_agentId e := (agent_case ws e agent0).1.1]> (agents ws)
    | None => agents ws
    end.
Proof.
  unfold handleEvent.
  destruct (if Z.eqb (e_agentId e) 0 then None else agents ws !! e_agentId e)
    as [agent0|]; [|reflexivity].
  now destruct (agent_case ws e agent0) as [[agent fs] net].
Qed.

Lemma handleEvent_network_agents (e : AgentEvent) (ws : ScanWsState) :
  is_network e = true -> agents (handleEvent e ws) = agents ws.
Proof.
  intros He. rewrite handleEvent_agents_eq.
  destruct (Z.eqb (e_agentId e) 0); [reflexivity|].
  destruct (agents ws !! e_agentId e) as [agent0|] eqn:Hl; [|reflexivity].
  rewrite agent_case_network_agent by exact He.
  by apply insert_id.
Qed.

Lemma handleEvent_agents_congr (e : AgentEvent) (ws ws' : ScanWsState) :
  agents ws = agents ws' ->
  agents (handleEvent e ws) = agents (handleEvent e ws').
Proof.
  intros H. rewrite !handleEvent_agents_eq, <- H.
  destruct (if Z.eqb (e_agentId e) 0 then None else agents ws !! e_agentId e)
    as [agent0|]; [|reflexivity].
  by rewrite (agent_case_agent ws ws').
Qed.

(** Network messages in between change no panel. *)
Lemma after_agents_traffic (wire : list AgentEvent) (ws ws' : ScanWsState) :
  agents ws = agents ws' ->
  agents (ScanPage.after wire ws)
  = agents (ScanPage.after
              (List.filter (fun e => negb (is_network e)) wire) ws').
Proof.
  revert ws ws'. induction wire as [|e wire IH]; intros ws ws' H.
  - exact H.
  - change (ScanPage.after (e :: wire) ws)
      with (ScanPage.after wire (handleEvent e ws)).
    cbn [List.filter]. destruct (is_network e) eqn:He; cbn [negb].
    + apply IH. rewrite handleEvent_network_agents by exact He. exact H.
    + change (ScanPage.after (e :: ?l) ws')
        with (ScanPage.after l (handleEvent e ws')).
      apply IH. by apply handleEvent_agents_congr.
Qed.

Lemma wire_agents (own wire : list AgentEvent) :
  on_the_wire own wire ->
  agents (Props.dashboard_after wire) = agents (Props.dashboard_after own).
Proof.
  intros <-. apply (after_agents_traffic wire initial initial). reflexivity.
Qed.

End Traffic.

(** X11.  When the first navigation to the target raises, the run
    raises with it: of its own the agent has sent agent.started and
    nothing else (no agent.error, no agent.complete), no finding is
    added, and the only browser call is that navigation.  Whatever
    network messages the page listeners have put on the wire in
    between, a dashboard that received the wire keeps the agent's panel
    at started. *)
Theorem unreachable_target_leaves_panel_started
    (env : Harness.Env) (cfg : Harness.Config)
    (blank : Harness.Page (Harness.browser env))
    (exn : string) (panel : WsClient.AgentState) :
  snd (Harness.goto (Harness.browser env) (Harness.target_url cfg) blank)
    = Some exn ->
  WsClient.defaultAgents !! Harness.agent_id cfg = Some panel ->
  exists a,
    Harness.run env cfg (Harness.init (Harness.browser env) blank)
      = Harness.Raised exn a
    /\ List.map Wire.e_type (Harness.sent a) = ["agent.started"]
    /\ Harness.findings a = []
    /\ Harness.calls a = [Harness.Goto (Harness.target_url cfg)]
    /\ forall wire,
         RunTypes.on_the_wire (Harness.sent a) wire ->
         WsClient.agents (Props.dashboard_after wire) !! Harness.agent_id cfg
         = Some (WsClient.set_status WsClient.started panel).
Proof.
  intros Hgoto Hpanel. unfold Harness.run, Harness.issue. simpl.
  destruct (Harness.goto (Harness.browser env) (Harness.target_url cfg) blank)
    as [p e] eqn:Hg. simpl in Hgoto. subst e.
  eexists. split; [reflexivity|]. split_and!; try reflexivity.
  intros wire Hwire. rewrite (wire_agents _ _ Hwire).
  unfold Props.dashboard_after. cbn [Harness.sent fold_left app].
  match goal with
  | |- context [WsClient.handleEvent ?e _] =>
      apply (handleEvent_started e WsClient.initial panel);
        [reflexivity | | exact Hpanel]
  end.
  eapply panel_key_nonzero, Hpanel.
Qed.

Lemma unreachable_target_leaves_panel_started_witness :
  exists a,
    Harness.run Cases.unreachable_env Demo.cfg
      (Harness.init (Harness.browser Cases.unreachable_env) Demo.blank_page)
    = Harness.Raised "net::ERR_CONNECTION_REFUSED" a
    /\ List.map Wire.e_type (Harness.sent a) = ["agent.started"]
    /\ WsClient.status
         <$> (WsClient.agents
                (Props.dashboard_after
                   (Harness.sent a ++ [Probe.request_event Wire.no_data]))
              !! 1)
       = Some WsClient.started.
Proof.
  destruct (unreachable_target_leaves_panel_started Cases.unreachable_env
              Demo.cfg Demo.blank_page "net::ERR_CONNECTION_REFUSED"
              {| WsClient.id := 1; WsClient.role := "sqli";
                 WsClient.name := "SQL Injection";
                 WsClient.status := WsClient.idle;
                 WsClient.iteration := 0; WsClient.totalIterations := 20;
                 WsClient.currentAction := EmptyString;
                 WsClient.reasoning := EmptyString;
                 WsClient.screenshot := EmptyString;
                 WsClient.a_findings := [] |}
              eq_refl) as (a & Hrun & Hsent & _ & _ & Hwire).
  { by vm_compute. }
  exists a. split_and!; [exact Hrun | exact Hsent |].
  injection Hrun as <-.
  rewrite (Hwire (_ ++ [Probe.request_event Wire.no_data])); reflexivity.
Defined.

(** X12.  A decision whose action is none of fill, click and navigate
    is announced and otherwise ignored: no browser call is issued, the
    page stays as it is, and no agent.error message tells the dashboard
    that nothing was done. *)
Theorem unknown_action_is_only_announced
    (env : Harness.Env) (cfg : Harness.Config)
    (decision : gmap string string)
    (a : Harness.Agent (Harness.browser env)) :
  Harness.getitem decision "action" <> "fill" ->
  Harness.getitem decision "action" <> "click" ->
  Harness.getitem decision "action" <> "navigate" ->
  Harness.calls (Harness.execute_action env cfg decision a) = Harness.calls a
  /\ Harness.page (Harness.execute_action env cfg decision a) = Harness.page a
  /\ List.map Wire.e_type (Harness.sent (Harness.execute_action env cfg decision a))
     = List.map Wire.e_type (Harness.sent a) ++ ["agent.action"].
Proof.
  intros Hf Hc Hn. unfold Harness.execute_action.
  destruct (String.eqb_spec (Harness.getitem decision "action") "fill");
    [contradiction|].
  destruct (String.eqb_spec (Harness.getitem decision "action") "click");
    [contradiction|].
  destruct (String.eqb_spec (Harness.getitem decision "action") "navigate");
    [contradiction|].
  simpl. split_and!; try reflexivity. now rewrite List.map_app.
Qed.

Lemma unknown_action_is_only_announced_witness :
  Harness.getitem Cases.hover_decision "action" <> "fill"
  /\ Harness.calls
       (Harness.execute_action Demo.env Demo.cfg Cases.hover_decision
          (Harness.init (Harness.browser Demo.env) Demo.login_page))
     = [].
Proof.
  split; [by vm_compute|].
  apply (unknown_action_is_only_announced Demo.env Demo.cfg Cases.hover_decision
           (Harness.init (Harness.browser Demo.env) Demo.login_page));
    by vm_compute.
Defined.

Section RunOnDashboard.
Import Wire WsClient ScanPage.

Lemma after_findings_length (l : list AgentEvent) (ws : ScanWsState) :
  length (findings (after l ws))
  = (length (findings ws) + length (vulnerability_events ws l))%nat.
Proof.
  revert ws. induction l as [|e l IH]; intros ws.
  - simpl. lia.
  - change (after (e :: l) ws) with (after l (handleEvent e ws)).
    rewrite IH, handleEvent_findings_length, vulnerability_events_handleEvent.
    unfold vulnerability_events. cbn [List.filter].
    destruct (String.eqb (e_type e) "vulnerability.found" && addressed ws e);
      cbn [length]; lia.
Qed.

Lemma vulnerability_events_all_addressed (l : list AgentEvent) (ws : ScanWsState) :
  Forall (fun e => addressed ws e = true) l ->
  length (vulnerability_events ws l) = Props.count_type "vulnerability.found" l.
Proof.
  intros Hall. unfold vulnerability_events, Props.count_type. f_equal.
  induction Hall as [|e l He _ IH]; [reflexivity|].
  cbn [List.filter]. now rewrite He, andb_true_r, IH.
Qed.

Lemma dashboard_after_snoc (l : list AgentEvent) (e : AgentEvent) :
  Props.dashboard_after (l ++ [e]) = handleEvent e (after l initial).
Proof. unfold Props.dashboard_after, after. now rewrite fold_left_app. Qed.

End RunOnDashboard.

(** X13.  A run that returns shows up whole on the dashboard: when the
    agent's id is one of the panels, the panel that processed the
    agent's messages is complete and lists exactly the agent's findings,
    and the aggregate finding list has as many entries as the agent
    found. *)
Theorem returned_run_is_shown_complete
    (env : Harness.Env) (cfg : Harness.Config)
    (blank : Harness.Page (Harness.browser env))
    (a' : Harness.Agent (Harness.browser env)) (panel : WsClient.AgentState) :
  WsClient.defaultAgents !! Harness.agent_id cfg = Some panel ->
  Harness.run env cfg (Harness.init (Harness.browser env) blank)
    = Harness.Returned a' ->
  exists panel',
    WsClient.agents (Props.dashboard_after (Harness.sent a'))
      !! Harness.agent_id cfg = Some panel'
    /\ WsClient.status panel' = WsClient.complete
    /\ WsClient.a_findings panel'
       = List.map WsClient.OfVuln (Harness.findings a')
    /\ length (WsClient.findings (Props.dashboard_after (Harness.sent a')))
       = length (Harness.findings a').
Proof.
  intros Hpanel Hrun.
  destruct (run_messages_agree_with_findings_core env cfg _ a' Hrun)
    as (body & done & newf & Hs & Hf & Hv & Hc & Hd & Hdf & Hid).
  simpl in Hs, Hf. subst newf.
  pose proof (panel_key_nonzero _ _ Hpanel) as Hz.
  assert (forall e, Wire.e_agentId e = Harness.agent_id cfg ->
                    ScanPage.addressed WsClient.initial e = true) as Hadd.
  { intros e He. unfold ScanPage.addressed. rewrite He, Hz. simpl.
    apply bool_decide_eq_true_2. by eexists. }
  apply Forall_app in Hid as Hid2. destruct Hid2 as [Hbody Hdone].
  apply List.Forall_inv in Hdone. cbv beta in Hdone.
  rewrite Hs, dashboard_after_snoc.
  destruct (after_identity body WsClient.initial (Harness.agent_id cfg) panel
              Hpanel) as (p1 & Hp1 & _).
  rewrite <- Hdone in Hp1, Hz.
  destruct (handleEvent_complete done _ p1 Hd Hz Hp1)
    as (p2 & Hp2 & Hst & Hfs).
  rewrite <- Hdone. exists p2. split_and!; [exact Hp2 | exact Hst | |].
  - rewrite Hfs, Hdf. reflexivity.
  - rewrite <- dashboard_after_snoc.
    change (Props.dashboard_after (body ++ [done]))
      with (ScanPage.after (body ++ [done]) WsClient.initial).
    rewrite after_findings_length, vulnerability_events_all_addressed.
    + rewrite count_type_app, count_type_singleton, Hd, Hv. simpl. lia.
    + eapply List.Forall_impl; [|exact Hid]. exact Hadd.
Qed.

Lemma returned_run_is_shown_complete_witness :
  exists panel',
    WsClient.agents
      (Props.dashboard_after
         (Harness.sent
            (RunEnd.final
               (Harness.run Demo.env Demo.cfg
                  (Harness.init (Harness.browser Demo.env) Demo.blank_page)))))
      !! Harness.agent_id Demo.cfg = Some panel'
    /\ WsClient.status panel' = WsClient.complete.
Proof.
  destruct (returned_run_is_shown_complete Demo.env Demo.cfg Demo.blank_page
              (RunEnd.final
                 (Harness.run Demo.env Demo.cfg
                    (Harness.init (Harness.browser Demo.env) Demo.blank_page)))
              {| WsClient.id := 1; WsClient.role := "sqli";
                 WsClient.name := "SQL Injection";
                 WsClient.status := WsClient.idle;
                 WsClient.iteration := 0; WsClient.totalIterations := 20;
                 WsClient.currentAction := EmptyString;
                 WsClient.reasoning := EmptyString;
                 WsClient.screenshot := EmptyString;
                 WsClient.a_findings := [] |})
    as (panel' & Hp & Hst & _).
  - by vm_compute.
  - reflexivity.
  - exists panel'. split; [exact Hp | exact Hst].
Defined.

(** X14.  A decision that [get_next_action] returns has passed the
    whole pipeline: the model answered, the reply holds an object
    literal, that literal loaded, and the loaded dictionary holds all of
    action, selector, value and reasoning.  So the indexing of these
    keys in [execute_action] never meets a missing key. *)
Theorem returned_decision_is_validated
    (env : Harness.Env) (cfg : Harness.Config) (iteration : nat)
    (state : Harness.Snapshot) (a : Harness.Agent (Harness.browser env))
    (decision : gmap string string) :
  fst (Harness.get_next_action env cfg iteration state a) = Some decision ->
  (forall field, In field Harness.required_fields ->
                 is_Some (decision !! field))
  /\ exists response_text json_match,
       Harness.claude env iteration (Harness.role cfg) state
         (length (Harness.findings a)) = Some response_text
       /\ Text.re_search_object response_text = Some json_match
       /\ Harness.json_loads env json_match = Some decision.
Proof.
  unfold Harness.get_next_action.
  destruct (Harness.claude env iteration (Harness.role cfg) state
              (length (Harness.findings a))) as [text|]; [|discriminate].
  simpl. intros Hp. split.
  - apply (parse_decision_Some env text decision Hp).
  - exists text. unfold Harness.parse_decision in Hp.
    destruct (Text.re_search_object text) as [m|]; [|discriminate].
    exists m. destruct (Harness.json_loads env m) as [d|]; [|discriminate].
    destruct (Harness.has_required d); [|discriminate].
    injection Hp as <-. by split_and!.
Qed.

Lemma returned_decision_is_validated_witness :
  fst (Harness.get_next_action Demo.env Demo.cfg 0
         (Demo.snapshot_at "https://shop.example/login")
         (Harness.init (Harness.browser Demo.env) Demo.login_page))
    = Some Demo.navigate_decision
  /\ is_Some (Demo.navigate_decision !! "reasoning").
Proof.
  split; [by vm_compute|].
  apply (proj1 (returned_decision_is_validated Demo.env Demo.cfg 0
                  (Demo.snapshot_at "https://shop.example/login")
                  (Harness.init (Harness.browser Demo.env) Demo.login_page)
                  Demo.navigate_decision eq_refl)).
  vm_compute. tauto.
Defined.

(** X15.  The search for the decision object is sound and complete for
    flat object literals: what it returns is a segment of the reply that
    starts with an opening brace, ends with a closing brace and has no
    brace in between; and it returns nothing exactly when the reply has
    no such segment.  A reply whose only object holds a nested object is
    therefore never returned whole. *)
Theorem object_search_finds_flat_literals (text : string) :
  (forall json_match,
     Text.re_search_object text = Some json_match ->
     exists pre body post,
       text = pre +:+ json_match +:+ post
       /\ json_match = "{" +:+ body +:+ "}"
       /\ Props.brace_free body = true)
  /\ (Text.re_search_object text = None <-> Props.no_object text).
Proof.
  split.
  - intros m. apply re_search_object_Some.
  - apply re_search_object_None.
Qed.

(** ** Live view: log window, summary panel, session lists *)

Section RunViewFacts.
Import LiveView RunView.

Lemma push_event_take (e : RunEvent) (l : list RunEvent) :
  push_event e (take 50 l) = push_event e l.
Proof.
  unfold push_event. change (take 50 (e :: take 50 l))
    with (e :: take 49 (take 50 l)).
  rewrite take_take. reflexivity.
Qed.

Lemma notify_all_take (es l : list RunEvent) :
  notify_all es (take 50 l) = take 50 (rev es ++ l).
Proof.
  revert l. induction es as [|e es IH]; intros l; [reflexivity|].
  change (notify_all (e :: es) (take 50 l))
    with (notify_all es (push_event e (take 50 l))).
  rewrite push_event_take. unfold push_event. rewrite IH. simpl.
  now rewrite <- app_assoc.
Qed.

Lemma notify_all_cons (e : RunEvent) (es log : list RunEvent) :
  notify_all (e :: es) log = take 50 (rev (e :: es) ++ log).
Proof.
  change (notify_all (e :: es) log) with (notify_all es (push_event e log)).
  unfold push_event. rewrite notify_all_take. simpl. now rewrite <- app_assoc.
Qed.

Lemma find_none_take (n : nat) (l : list RunEvent) :
  Forall (fun e => is_summary e = false) l ->
  List.find is_summary (take n l) = None.
Proof.
  intros H. revert n. induction H as [|e l He _ IH]; intros n.
  - now destruct n.
  - destruct n; [reflexivity|]. simpl. now rewrite He.
Qed.

(** X16.  After one or more event notifications the log holds exactly
    the 50 newest entries, newest first: the notifications in reverse
    order of arrival, followed by the older log, cut at 50. *)
Theorem event_log_is_newest_fifty
    (e : LiveView.RunEvent) (es log : list LiveView.RunEvent) :
  RunView.notify_all (e :: es) log = take 50 (rev (e :: es) ++ log)
  /\ (length (RunView.notify_all (e :: es) log) <= 50)%nat
  /\ head (RunView.notify_all (es ++ [e]) log) = Some e.
Proof.
  split_and!.
  - apply notify_all_cons.
  - rewrite notify_all_cons, length_take. lia.
  - destruct es as [|e0 es].
    + reflexivity.
    + change ((e0 :: es) ++ [e]) with (e0 :: (es ++ [e])).
      rewrite notify_all_cons.
      change (rev (e0 :: es ++ [e])) with (rev (es ++ [e]) ++ [e0]).
      rewrite rev_app_distr. reflexivity.
Qed.

(** X17.  The executive-summary panel is shown only while the summary
    event is inside the log window: once 50 or more notifications
    without the summary message have arrived, no summary is found,
    whatever the log held before. *)
Theorem summary_panel_disappears_after_fifty_events
    (es log : list LiveView.RunEvent) :
  (50 <= length es)%nat ->
  Forall (fun e => RunView.is_summary e = false) es ->
  RunView.executive_summary (RunView.notify_all es log) = None.
Proof.
  intros Hlen Hall. destruct es as [|e es]; [simpl in Hlen; lia|].
  rewrite notify_all_cons. unfold executive_summary.
  rewrite take_app_le by (rewrite length_rev; exact Hlen).
  apply find_none_take. apply Forall_rev. exact Hall.
Qed.

Lemma summary_panel_disappears_after_fifty_events_witness :
  RunView.executive_summary [Samples.summary_event] = Some Samples.summary_event
  /\ RunView.executive_summary
       (RunView.notify_all Samples.fifty_events [Samples.summary_event])
     = None.
Proof.
  split; [reflexivity|].
  apply (summary_panel_disappears_after_fifty_events Samples.fifty_events
           [Samples.summary_event]).
  - vm_compute. lia.
  - apply Forall_forall. intros e He.
    apply list_elem_of_fmap in He as (i & -> & _). reflexivity.
Defined.

End RunViewFacts.

Section LaneFacts.
Import LiveView RunView Lanes.

Lemma merge_session_nil (s : AgentSession) : merge_session s [] = [s].
Proof. reflexivity. Qed.

Lemma merge_session_cons (s x : AgentSession) (l : list AgentSession) :
  merge_session s (x :: l)
  = if decide (s_id x = s_id s) then s :: l else x :: merge_session s l.
Proof.
  unfold merge_session, findIndex. simpl.
  destruct (decide (s_id x = s_id s)); simpl; [reflexivity|].
  now destruct (list_find (fun s0 => s_id s0 = s_id s) l) as [[i y]|].
Qed.

Lemma session_of_merge_session (i : string) (s : AgentSession)
    (prev : list AgentSession) :
  session_of i (merge_session s prev)
  = if String.eqb (s_id s) i then Some s else session_of i prev.
Proof.
  induction prev as [|x l IH].
  - rewrite merge_session_nil. unfold session_of. simpl.
    now destruct (String.eqb (s_id s) i).
  - rewrite merge_session_cons.
    destruct (decide (s_id x = s_id s)) as [E|N].
    + unfold session_of. simpl. rewrite E.
      now destruct (String.eqb (s_id s) i).
    + unfold session_of in *. simpl.
      destruct (String.eqb (s_id x) i) eqn:Hx; [|exact IH].
      apply String.eqb_eq in Hx. subst i.
      destruct (String.eqb (s_id s) (s_id x)) eqn:Hs; [|reflexivity].
      apply String.eqb_eq in Hs. congruence.
Qed.

Lemma session_of_app (i : string) (l1 l2 : list AgentSession) :
  session_of i (l1 ++ l2)
  = match session_of i l1 with
    | Some s => Some s
    | None => session_of i l2
    end.
Proof.
  unfold session_of. induction l1 as [|x l1 IH]; [reflexivity|].
  simpl. now destruct (String.eqb (s_id x) i).
Qed.

Lemma merge_session_ids (s : AgentSession) (prev : list AgentSession) :
  s_id <$> merge_session s prev
  = if bool_decide (s_id s ∈ s_id <$> prev)
    then s_id <$> prev
    else (s_id <$> prev) ++ [s_id s].
Proof.
  induction prev as [|x l IH].
  - reflexivity.
  - rewrite merge_session_cons. rewrite fmap_cons.
    destruct (decide (s_id x = s_id s)) as [E|N].
    + rewrite bool_decide_eq_true_2 by (rewrite E; apply list_elem_of_here).
      rewrite fmap_cons. now rewrite E.
    + rewrite fmap_cons, IH.
      destruct (bool_decide (s_id s ∈ s_id <$> l)) eqn:Hin.
      * apply bool_decide_eq_true_1 in Hin.
        rewrite bool_decide_eq_true_2; [reflexivity|].
        now apply list_elem_of_further.
      * apply bool_decide_eq_false_1 in Hin.
        rewrite bool_decide_eq_false_2; [reflexivity|].
        intros [?|?]%elem_of_cons; congruence.
Qed.

Lemma merge_session_NoDup (s : AgentSession) (prev : list AgentSession) :
  NoDup (s_id <$> prev) -> NoDup (s_id <$> merge_session s prev).
Proof.
  intros H. rewrite merge_session_ids.
  destruct (bool_decide (s_id s ∈ s_id <$> prev)) eqn:Hin; [exact H|].
  apply bool_decide_eq_false_1 in Hin.
  apply NoDup_app. split_and!.
  - exact H.
  - intros y Hy ->%list_elem_of_singleton. contradiction.
  - apply NoDup_singleton.
Qed.

Lemma active_not_finished (s : AgentSession) :
  is_active s = true -> is_finished s = false.
Proof.
  unfold is_active, is_finished. simpl.
  rewrite !orb_false_r. intros [H|H]%orb_true_iff;
    apply String.eqb_eq in H; rewrite H; reflexivity.
Qed.

Lemma filter_ids_sub (f : AgentSession -> bool) (l : list AgentSession) i :
  i ∈ s_id <$> List.filter f l -> i ∈ s_id <$> l.
Proof.
  intros (s & -> & Hs)%list_elem_of_fmap.
  apply list_elem_of_fmap. exists s. split; [reflexivity|].
  apply list_elem_of_In in Hs. apply List.filter_In in Hs as [Hs _].
  now apply list_elem_of_In.
Qed.

Lemma filter_ids_NoDup (f : AgentSession -> bool) (l : list AgentSession) :
  NoDup (s_id <$> l) -> NoDup (s_id <$> List.filter f l).
Proof.
  induction l as [|x l IH]; intros H; [constructor|].
  rewrite fmap_cons in H. apply NoDup_cons in H as [Hx Hl].
  simpl. destruct (f x).
  - rewrite fmap_cons. apply NoDup_cons. split; [|auto].
    intros Hin. apply Hx. eapply filter_ids_sub, Hin.
  - auto.
Qed.

Lemma lanes_NoDup (l : list AgentSession) :
  NoDup (s_id <$> l) ->
  NoDup (s_id <$> (List.filter is_active l ++ List.filter is_finished l)).
Proof.
  induction l as [|x l IH]; intros H; [constructor|].
  rewrite fmap_cons in H. apply NoDup_cons in H as [Hx Hl].
  specialize (IH Hl). simpl.
  destruct (is_active x) eqn:Ha.
  - rewrite (active_not_finished x Ha), <- app_comm_cons, fmap_cons.
    apply NoDup_cons. split; [|exact IH].
    rewrite fmap_app. intros [Hin|Hin]%elem_of_app;
      apply Hx; eapply filter_ids_sub, Hin.
  - destruct (is_finished x) eqn:Hf; [|exact IH].
    rewrite fmap_app in IH |- *. rewrite fmap_cons.
    apply NoDup_app in IH as (H1 & H2 & H3).
    apply NoDup_app. split_and!.
    + exact H1.
    + intros y Hy [->|Hy']%elem_of_cons.
      * apply Hx. eapply filter_ids_sub, Hy.
      * exact (H2 y Hy Hy').
    + apply NoDup_cons. split; [|exact H3].
      intros Hin. apply Hx. eapply filter_ids_sub, Hin.
Qed.

Lemma lanes_length (l : list AgentSession) :
  (length (List.filter is_active l) + length (List.filter is_finished l)
   <= length l)%nat.
Proof.
  induction l as [|x l IH]; [simpl; lia|].
  simpl. destruct (is_active x) eqn:Ha.
  - rewrite (active_not_finished x Ha). simpl. lia.
  - destruct (is_finished x); simpl; lia.
Qed.

(** X18.  A lane shows the latest notification of its session: after any
    sequence of session notifications, the entry found under an id is
    the last notification that carried this id, and the entry the list
    held before when no notification carried it. *)
Theorem lane_shows_latest_session_notification
    (i : string) (news prev : list LiveView.AgentSession) :
  Lanes.session_of i (RunView.merge_all news prev)
  = match Lanes.session_of i (rev news) with
    | Some s => Some s
    | None => Lanes.session_of i prev
    end.
Proof.
  revert prev. induction news as [|s news IH]; intros prev; [reflexivity|].
  change (merge_all (s :: news) prev)
    with (merge_all news (merge_session s prev)).
  rewrite IH. simpl rev. rewrite session_of_app.
  destruct (session_of i (rev news)); [reflexivity|].
  rewrite session_of_merge_session. unfold session_of at 2. simpl.
  now destruct (String.eqb (s_id s) i).
Qed.

(** X19.  Session ids stay distinct under a session notification, so
    that the React keys of the lanes are distinct: no id is rendered
    twice in the session list, nor across the "Active Operations" grid
    and the "Completed Agents" list taken together, and the two lists
    never hold more rows than there are sessions. *)
Theorem session_lanes_have_distinct_keys
    (s : LiveView.AgentSession) (st : LiveView.ViewState) :
  NoDup (LiveView.s_id <$> LiveView.sessions st) ->
  let st' := LiveView.deliver (LiveView.SessionChange s) st in
  NoDup (LiveView.s_id <$> LiveView.sessions st')
  /\ NoDup (LiveView.s_id <$>
            (RunView.active_sessions st' ++ RunView.completed_sessions st'))
  /\ (length (RunView.active_sessions st')
      + length (RunView.completed_sessions st')
      <= length (LiveView.sessions st'))%nat.
Proof.
  intros H st'. subst st'. simpl.
  pose proof (merge_session_NoDup s _ H) as H'.
  split_and!.
  - exact H'.
  - apply lanes_NoDup, H'.
  - apply lanes_length.
Qed.

Lemma session_lanes_have_distinct_keys_witness :
  let st :=
    LiveView.deliver (LiveView.SessionChange (Samples.session "s-2" "QUEUED"))
      (LiveView.deliver (LiveView.SessionChange Fixtures.a_session)
         LiveView.initial) in
  let st' :=
    LiveView.deliver (LiveView.SessionChange (Samples.session "s-1" "COMPLETED"))
      st in
  NoDup (LiveView.s_id <$> LiveView.sessions st')
  /\ NoDup (LiveView.s_id <$>
            (RunView.active_sessions st' ++ RunView.completed_sessions st'))
  /\ (length (RunView.active_sessions st')
      + length (RunView.completed_sessions st')
      <= length (LiveView.sessions st'))%nat.
Proof.
  intros st st'.
  apply (session_lanes_have_distinct_keys
           (Samples.session "s-1" "COMPLETED") st).
  vm_compute. repeat constructor; intros H; inversion H; subst;
    match goal with H' : _ ∈ _ |- _ => inversion H' end.
Defined.

Lemma count_severity_cons (sev : string) (f : Finding) (fs : list Finding) :
  count_severity sev (f :: fs)
  = ((if String.eqb (f_severity f) sev then 1 else 0)
     + count_severity sev fs)%nat.
Proof.
  unfold count_severity. simpl.
  now destruct (String.eqb (f_severity f) sev).
Qed.

Lemma badge_total_cons (f : Finding) (fs : list Finding) :
  badge_total (f :: fs)
  = ((if known_severity f then 1 else 0) + badge_total fs)%nat.
Proof.
  unfold badge_total, badges. rewrite !count_severity_cons.
  unfold known_severity. simpl.
  destruct (String.eqb (f_severity f) "CRITICAL") eqn:Hc.
  { apply String.eqb_eq in Hc. rewrite Hc. simpl. lia. }
  destruct (String.eqb (f_severity f) "HIGH") eqn:Hh.
  { apply String.eqb_eq in Hh. rewrite Hh. simpl. lia. }
  destruct (String.eqb (f_severity f) "MEDIUM") eqn:Hm.
  { apply String.eqb_eq in Hm. rewrite Hm. simpl. lia. }
  destruct (String.eqb (f_severity f) "LOW"); simpl; lia.
Qed.

Lemma badge_total_filter (fs : list Finding) :
  badge_total fs = length (List.filter known_severity fs).
Proof.
  induction fs as [|f fs IH]; [reflexivity|].
  rewrite badge_total_cons, IH. simpl.
  now destruct (known_severity f).
Qed.

(** X20.  The four severity badges of a lane add up to the number of
    findings whose severity is one of CRITICAL, HIGH, MEDIUM, LOW; they
    account for every finding exactly when each finding has one of
    these four severities (any other spelling is counted by no badge). *)
Theorem severity_badges_cover_known_severities
    (fs : list LiveView.Finding) :
  Lanes.badge_total fs = length (List.filter RunView.known_severity fs)
  /\ (Lanes.badge_total fs <= length fs)%nat
  /\ (Lanes.badge_total fs = length fs
      <-> Forall (fun f => RunView.known_severity f = true) fs).
Proof.
  split_and!.
  - apply badge_total_filter.
  - rewrite badge_total_filter. apply List.filter_length_le.
  - rewrite badge_total_filter. induction fs as [|f fs IH].
    + split; [constructor|reflexivity].
    + simpl. pose proof (List.filter_length_le known_severity fs) as Hle.
      destruct (known_severity f) eqn:Hk; simpl.
      * split.
        -- intros E. constructor; [exact Hk|]. apply IH. lia.
        -- intros HF. apply List.Forall_inv_tail in HF.
           apply IH in HF. lia.
      * split; [lia|].
        intros HF. apply List.Forall_inv in HF. congruence.
Qed.

End LaneFacts.

(** ** Orchestrator: start, restart and stop *)

Section ScanLifecycle.
Import Orchestrator Lifecycle.

Lemma startScan_state (scanId targetUrl : string) (st : State) :
  snd (startScan scanId targetUrl st)
  = {| activeAgents := <[scanId := Lifecycle.agentProcesses scanId targetUrl]> (activeAgents st);
       spawned := spawned st ++ Lifecycle.agentProcesses scanId targetUrl;
       killed := killed st |}.
Proof. reflexivity. Qed.

Lemma stopScan_registered (scanId : string) (agents : list Proc) (st : State) :
  activeAgents st !! scanId = Some agents ->
  stopScan scanId st
  = {| activeAgents := delete scanId (activeAgents st);
       spawned := spawned st;
       killed := killed st ++ agents |}.
Proof. intros H. unfold stopScan. now rewrite H. Qed.

End ScanLifecycle.

(** X21.  Stopping a scan that was just started kills exactly the five
    agents that start spawned, one per role and in roster order, and
    removes the scan's entry; the entries of other scans are the ones
    held before the start. *)
Theorem stop_after_start_kills_the_five_agents
    (scanId targetUrl : string) (st : Orchestrator.State) :
  let started := Orchestrator.startScan scanId targetUrl st in
  let stopped := Orchestrator.stopScan scanId (snd started) in
  fst started = (scanId, 5%nat)
  /\ Orchestrator.killed stopped
     = Orchestrator.killed st ++ Lifecycle.agentProcesses scanId targetUrl
  /\ Orchestrator.spawned stopped
     = Orchestrator.spawned st ++ Lifecycle.agentProcesses scanId targetUrl
  /\ Orchestrator.role <$> Lifecycle.agentProcesses scanId targetUrl
     = ["sqli"; "xss"; "auth"; "idor"; "csrf"]
  /\ Orchestrator.activeAgents stopped !! scanId = None
  /\ forall other, other <> scanId ->
       Orchestrator.activeAgents stopped !! other
       = Orchestrator.activeAgents st !! other.
Proof.
  intros started stopped. subst started stopped.
  rewrite startScan_state.
  rewrite (stopScan_registered scanId (Lifecycle.agentProcesses scanId targetUrl))
    by (simpl; apply lookup_insert_eq).
  simpl. split_and!; try reflexivity.
  - apply lookup_delete_eq.
  - intros other Hne. rewrite lookup_delete_ne by congruence.
    apply lookup_insert_ne. congruence.
Qed.

(** X22.  Starting a scan again under the same id overwrites the entry:
    ten agents have been spawned, a stop kills only the five of the
    second start, and after it the id has no entry, so that a further
    stop does nothing and the five agents of the first start are not
    killed by it. *)
Theorem restarted_scan_leaves_first_agents_running
    (scanId url1 url2 : string) (st : Orchestrator.State) :
  let st2 := snd (Orchestrator.startScan scanId url2
                    (snd (Orchestrator.startScan scanId url1 st))) in
  let stopped := Orchestrator.stopScan scanId st2 in
  Orchestrator.spawned stopped
  = Orchestrator.spawned st ++ Lifecycle.agentProcesses scanId url1 ++ Lifecycle.agentProcesses scanId url2
  /\ Orchestrator.killed stopped
     = Orchestrator.killed st ++ Lifecycle.agentProcesses scanId url2
  /\ Orchestrator.activeAgents stopped
     = delete scanId (Orchestrator.activeAgents st)
  /\ Orchestrator.stopScan scanId stopped = stopped.
Proof.
  intros st2 stopped. subst st2 stopped.
  rewrite !startScan_state. cbn [Orchestrator.activeAgents
    Orchestrator.spawned Orchestrator.killed].
  rewrite (stopScan_registered scanId (Lifecycle.agentProcesses scanId url2))
    by (simpl; apply lookup_insert_eq).
  cbn [Orchestrator.activeAgents Orchestrator.spawned Orchestrator.killed].
  assert (delete scanId
            (<[scanId:=Lifecycle.agentProcesses scanId url2]>
               (<[scanId:=Lifecycle.agentProcesses scanId url1]> (Orchestrator.activeAgents st)))
          = delete scanId (Orchestrator.activeAgents st)) as Hdel.
  { now rewrite !delete_insert_eq. }
  split_and!.
  - now rewrite <- app_assoc.
  - reflexivity.
  - exact Hdel.
  - apply stopScan_unregistered. simpl. apply lookup_delete_eq.
Qed.

(** ** Browser windows *)

(** X23.  The browser windows of two different agents never overlap:
    with the window size the harness asks for (640 by 480), the
    positions computed by spawnAgent tile a grid of three columns. *)
Theorem agent_windows_never_overlap (a b : Z) :
  a <> b -> ~ Windows.overlap a b.
Proof.
  unfold Windows.overlap, Windows.WINDOW_X, Windows.WINDOW_Y,
    Windows.window_width, Windows.window_height.
  intros Hne (H1 & H2 & H3 & H4).
  assert (Z.rem (a - 1) 3 = Z.rem (b - 1) 3) as Hx by lia.
  assert ((a - 1) / 3 = (b - 1) / 3) as Hy by lia.
  apply Hne. clear H1 H2 H3 H4 Hne.
  pose proof (Z.rem_bound_pos_pos (a - 1) 3).
  pose proof (Z.rem_bound_neg_pos (a - 1) 3).
  pose proof (Z.rem_bound_pos_pos (b - 1) 3).
  pose proof (Z.rem_bound_neg_pos (b - 1) 3).
  Z.to_euclidean_division_equations. lia.
Qed.

Lemma agent_windows_never_overlap_witness :
  ~ Windows.overlap 1 2
  /\ (Windows.WINDOW_X <$> [1; 2; 3; 4; 5]) = [0; 640; 1280; 0; 640]
  /\ (Windows.WINDOW_Y <$> [1; 2; 3; 4; 5]) = [0; 0; 0; 480; 480].
Proof.
  split_and!; [|reflexivity|reflexivity].
  apply (agent_windows_never_overlap 1 2). lia.
Defined.

(** ** Broadcast of agent messages *)

Section BroadcastFacts.
Context {V : Type} (of_string : string -> V) (of_number : Z -> V).

Lemma envelope_timestamp (scanId : string) (message : gmap string V) (now : Z) :
  Broadcast.envelope V of_string of_number scanId message now !! "timestamp"
  = Some (of_number now).
Proof. unfold Broadcast.envelope. apply lookup_insert_eq. Qed.

Lemma envelope_other (scanId : string) (message : gmap string V) (now : Z)
    (k : string) :
  k <> "timestamp" ->
  Broadcast.envelope V of_string of_number scanId message now !! k
  = match message !! k with
    | Some v => Some v
    | None => if String.eqb k "scanId" then Some (of_string scanId) else None
    end.
Proof.
  intros Hk. unfold Broadcast.envelope.
  rewrite lookup_insert_ne by congruence.
  rewrite lookup_union. destruct (message !! k) as [v|] eqn:Hm.
  - now destruct (<["scanId":=of_string scanId]> (∅ : gmap string V) !! k).
  - destruct (String.eqb k "scanId") eqn:Hs.
    + apply String.eqb_eq in Hs. subst k.
      now rewrite lookup_insert_eq.
    + apply String.eqb_neq in Hs.
      rewrite lookup_insert_ne by congruence.
      now rewrite lookup_empty.
Qed.

End BroadcastFacts.

(** X24.  A message passed on by the orchestrator reaches exactly the
    clients whose socket is open, once each.  The object a client gets
    carries the orchestrator's clock as read for that client (a
    timestamp of the agent is overwritten), so two clients may get
    different timestamps; apart from the timestamp every client gets the
    same fields: the scan id is the agent's own when the message has one
    and the orchestrator's otherwise, and every other field is the
    agent's. *)
Theorem broadcast_reaches_open_clients
    {V : Type} (of_string : string -> V) (of_number : Z -> V)
    (scanId : string) (message : gmap string V) (now : nat -> Z)
    (clients : list (Broadcast.Client V)) :
  let sent i := Broadcast.envelope V of_string of_number scanId message (now i) in
  let after :=
    Broadcast.handleAgentMessage V of_string of_number scanId message now
      clients in
  length after = length clients
  /\ (forall i c, clients !! i = Some c ->
        exists c', after !! i = Some c'
          /\ Broadcast.readyState c' = Broadcast.readyState c
          /\ Broadcast.inbox c'
             = if Z.eqb (Broadcast.readyState c) 1
               then Broadcast.inbox c ++ [sent i]
               else Broadcast.inbox c)
  /\ (forall i, sent i !! "timestamp" = Some (of_number (now i)))
  /\ (forall i, sent i !! "scanId"
                = Some (default (of_string scanId) (message !! "scanId")))
  /\ (forall i k, k <> "timestamp" -> k <> "scanId" ->
        sent i !! k = message !! k).
Proof.
  intros sent after. subst sent after. split_and!.
  - unfold Broadcast.handleAgentMessage. apply length_imap.
  - intros i c Hc. unfold Broadcast.handleAgentMessage.
    rewrite list_lookup_imap, Hc. simpl. eexists. split; [reflexivity|].
    now destruct (Z.eqb (Broadcast.readyState c) 1).
  - intros i. apply envelope_timestamp.
  - intros i. rewrite envelope_other by discriminate. simpl.
    now destruct (message !! "scanId").
  - intros i k Ht Hs. rewrite envelope_other by exact Ht.
    apply String.eqb_neq in Hs. rewrite Hs.
    now destruct (message !! k).
Qed.

(** ** Agent selection on the launch page *)

Section SelectionFacts.
Import Selection.

Lemma includes_true_iff (id : string) (l : list string) :
  includes id l = true <-> id ∈ l.
Proof.
  unfold includes. rewrite existsb_exists. split.
  - intros (x & Hx & E). apply String.eqb_eq in E. subst x.
    now apply list_elem_of_In.
  - intros H. exists id. split; [now apply list_elem_of_In|].
    apply String.eqb_refl.
Qed.

Lemma elem_of_toggleAgent (a id : string) (prev : list string) :
  a ∈ toggleAgent id prev
  <-> if String.eqb a id then id ∉ prev else a ∈ prev.
Proof.
  unfold toggleAgent. destruct (includes id prev) eqn:Hi.
  - apply includes_true_iff in Hi.
    rewrite list_elem_of_In, List.filter_In, <- list_elem_of_In.
    destruct (String.eqb a id) eqn:E; simpl.
    + split; [intros [_ ?]; discriminate|intros ?; contradiction].
    + tauto.
  - assert (id ∉ prev) as Hn.
    { intros H. apply includes_true_iff in H. congruence. }
    rewrite elem_of_app, list_elem_of_singleton.
    destruct (String.eqb a id) eqn:E.
    + apply String.eqb_eq in E. subst a. tauto.
    + apply String.eqb_neq in E. tauto.
Qed.

Lemma filter_string_NoDup (f : string -> bool) (l : list string) :
  NoDup l -> NoDup (List.filter f l).
Proof.
  induction 1 as [|x l Hx Hl IH]; [constructor|].
  simpl. destruct (f x); [|exact IH].
  constructor; [|exact IH].
  rewrite list_elem_of_In, List.filter_In, <- list_elem_of_In. tauto.
Qed.

Lemma toggleAgent_NoDup (id : string) (prev : list string) :
  NoDup prev -> NoDup (toggleAgent id prev).
Proof.
  intros H. unfold toggleAgent. destruct (includes id prev) eqn:Hi.
  - now apply filter_string_NoDup.
  - apply NoDup_app. split_and!; [exact H| |apply NoDup_singleton].
    intros x Hx ->%list_elem_of_singleton.
    apply includes_true_iff in Hx. congruence.
Qed.

Lemma toggleAgent_subseteq (id : string) (prev opts : list string) :
  id ∈ opts -> prev ⊆ opts -> toggleAgent id prev ⊆ opts.
Proof.
  intros Hid Hsub a Ha. apply elem_of_toggleAgent in Ha.
  destruct (String.eqb a id) eqn:E.
  - apply String.eqb_eq in E. now subst a.
  - now apply Hsub.
Qed.

Lemma clicks_invariant (ids sel opts : list string) :
  Forall (fun id => id ∈ opts) ids ->
  NoDup sel -> sel ⊆ opts ->
  NoDup (clicks ids sel) /\ clicks ids sel ⊆ opts.
Proof.
  intros Hids. revert sel.
  induction Hids as [|id ids Hid _ IH]; intros sel Hnd Hsub.
  - now split.
  - change (clicks (id :: ids) sel) with (clicks ids (toggleAgent id sel)).
    apply IH.
    + now apply toggleAgent_NoDup.
    + now apply toggleAgent_subseteq.
Qed.

End SelectionFacts.

(** X25.  Whatever agent buttons are clicked on the launch page, the
    selection sent with the run holds no agent twice and only agents of
    the option list, so the counter never shows more than 10 of 10; a
    click on a button flips the selection of its agent and leaves every
    other agent as it was. *)
Theorem agent_selection_stays_a_set_of_options (ids : list string) :
  Forall (fun id => id ∈ Selection.agentOptions) ids ->
  let sel := Selection.clicks ids Selection.initial in
  NoDup sel
  /\ sel ⊆ Selection.agentOptions
  /\ (length sel <= length Selection.agentOptions)%nat
  /\ forall id a,
       a ∈ Selection.toggleAgent id sel
       <-> if String.eqb a id then id ∉ sel else a ∈ sel.
Proof.
  intros Hids sel.
  assert (NoDup Selection.initial) as Hnd.
  { apply NoDup_ListNoDup. unfold Selection.initial.
    repeat (constructor; [simpl; intuition discriminate|]). constructor. }
  destruct (clicks_invariant ids Selection.initial Selection.agentOptions
              Hids Hnd) as [H1 H2]; [reflexivity|].
  split_and!.
  - exact H1.
  - exact H2.
  - apply submseteq_length, NoDup_submseteq; [exact H1|].
    intros x Hx. now apply H2.
  - intros id a. apply elem_of_toggleAgent.
Qed.

Lemma agent_selection_stays_a_set_of_options_witness :
  Selection.clicks ["sqli"; "xss"; "sqli"] Selection.initial
  = ["spider"; "exposure"; "headers_tls"; "cors"; "portscan";
     "auth_abuse"; "llm_analysis"; "red_team"; "sqli"]
  /\ NoDup (Selection.clicks ["sqli"; "xss"; "sqli"] Selection.initial).
Proof.
  split; [reflexivity|].
  apply (agent_selection_stays_a_set_of_options ["sqli"; "xss"; "sqli"]).
  repeat constructor; apply list_elem_of_In; simpl; tauto.
Defined.

(** ** Browser feed *)

Section FeedFacts.
Import Feed.

Local Abbreviation of_agent a := (fun s => String.eqb (agentType s) a).
Local Abbreviation keys m := (fst <$> m).

Lemma map_get_map_set (a k : string) (v : ScreenshotEntry)
    (m : list (string * ScreenshotEntry)) :
  map_get a (map_set k v m) = if String.eqb k a then Some v else map_get a m.
Proof.
  unfold map_get. induction m as [|[k' v'] m IH]; simpl.
  - now destruct (String.eqb k a).
  - destruct (String.eqb k' k) eqn:E; simpl.
    + apply String.eqb_eq in E. subst k'.
      now destruct (String.eqb k a).
    + destruct (String.eqb k' a) eqn:E'; [|exact IH].
      apply String.eqb_eq in E'. subst k'.
      rewrite String.eqb_sym in E. now rewrite E.
Qed.

Lemma collect_snoc (l : list ScreenshotEntry) (x : ScreenshotEntry) m :
  collect (l ++ [x]) m = map_set (agentType x) x (collect l m).
Proof. unfold collect. now rewrite fold_left_app. Qed.

Lemma last_filter_snoc (f : ScreenshotEntry -> bool) l x :
  last (List.filter f (l ++ [x]))
  = if f x then Some x else last (List.filter f l).
Proof.
  rewrite List.filter_app. simpl. destruct (f x).
  - apply last_snoc.
  - now rewrite app_nil_r.
Qed.

Lemma map_get_collect (a : string) (l : list ScreenshotEntry) m :
  map_get a (collect l m)
  = match last (List.filter (of_agent a) l) with
    | Some v => Some v
    | None => map_get a m
    end.
Proof.
  induction l as [|x l IH] using rev_ind; [reflexivity|].
  rewrite collect_snoc, map_get_map_set, last_filter_snoc.
  destruct (String.eqb (agentType x) a); [reflexivity|exact IH].
Qed.

Lemma keys_map_set (k : string) (v : ScreenshotEntry) m :
  keys (map_set k v m)
  = if bool_decide (k ∈ keys m) then keys m else keys m ++ [k].
Proof.
  induction m as [|[k' v'] m IH]; [reflexivity|].
  simpl. destruct (String.eqb k' k) eqn:E.
  - apply String.eqb_eq in E. subst k'.
    rewrite bool_decide_eq_true_2 by apply list_elem_of_here. reflexivity.
  - apply String.eqb_neq in E. rewrite fmap_cons, IH. simpl.
    destruct (bool_decide (k ∈ keys m)) eqn:Hin.
    + apply bool_decide_eq_true_1 in Hin.
      rewrite bool_decide_eq_true_2; [reflexivity|].
      now apply list_elem_of_further.
    + apply bool_decide_eq_false_1 in Hin.
      rewrite bool_decide_eq_false_2; [reflexivity|].
      intros [H|H]%elem_of_cons; [now apply E|contradiction].
Qed.

Lemma keys_map_set_NoDup (k : string) (v : ScreenshotEntry) m :
  NoDup (keys m) -> NoDup (keys (map_set k v m)).
Proof.
  intros H. rewrite keys_map_set.
  destruct (bool_decide (k ∈ keys m)) eqn:Hin; [exact H|].
  apply bool_decide_eq_false_1 in Hin.
  apply NoDup_app. split_and!; [exact H| |apply NoDup_singleton].
  intros y Hy ->%list_elem_of_singleton. contradiction.
Qed.

Lemma keys_collect_NoDup (l : list ScreenshotEntry) m :
  NoDup (keys m) -> NoDup (keys (collect l m)).
Proof.
  intros H. induction l as [|x l IH] using rev_ind; [exact H|].
  rewrite collect_snoc. now apply keys_map_set_NoDup.
Qed.

Lemma keys_collect_elem (k : string) (l : list ScreenshotEntry) m :
  k ∈ keys (collect l m) <-> k ∈ keys m \/ k ∈ agentType <$> l.
Proof.
  induction l as [|x l IH] using rev_ind.
  - simpl. rewrite elem_of_nil. tauto.
  - rewrite collect_snoc, keys_map_set, fmap_app, elem_of_app. simpl.
    rewrite list_elem_of_singleton.
    destruct (bool_decide (agentType x ∈ keys (collect l m))) eqn:Hin.
    + apply bool_decide_eq_true_1 in Hin. rewrite IH.
      split; [tauto|]. intros [H|[H|H]]; [tauto|tauto|].
      subst k. now apply IH.
    + rewrite elem_of_app, list_elem_of_singleton, IH. tauto.
Qed.

Lemma keys_collect_known (l : list ScreenshotEntry) m :
  Forall (fun x => agentType x ∈ keys m) l ->
  keys (collect l m) = keys m.
Proof.
  induction l as [|x l IH] using rev_ind; intros H; [reflexivity|].
  apply Forall_app in H as [Hl Hx]. apply List.Forall_inv in Hx.
  rewrite collect_snoc, keys_map_set, (IH Hl).
  now rewrite bool_decide_eq_true_2.
Qed.

Lemma last_values (k : string) (m : list (string * ScreenshotEntry)) :
  NoDup (keys m) -> last (keys m) = Some k ->
  last (snd <$> m) = map_get k m.
Proof.
  destruct m as [|[k' v'] m'] using rev_ind; [discriminate|].
  clear IHm'. rewrite !fmap_app. simpl. rewrite !last_snoc.
  intros Hnd [= ->]. apply NoDup_app in Hnd as (_ & Hnot & _).
  unfold map_get. induction m' as [|[k1 v1] m1 IH]; simpl.
  - now rewrite String.eqb_refl.
  - destruct (String.eqb k1 k) eqn:E.
    + apply String.eqb_eq in E. subst k1. exfalso.
      apply (Hnot k); [apply list_elem_of_here|apply list_elem_of_here].
    + apply IH. intros y Hy. apply Hnot. now apply list_elem_of_further.
Qed.

End FeedFacts.

(** X26.  Each agent has one tab in the browser feed, and the image
    kept for it is the agent's latest screenshot.  With an agent
    selected, the hero image is the last image of the timeline shown. *)
Theorem selected_agent_hero_is_its_latest_screenshot
    (events : list Feed.FeedEvent) (a : string) :
  a <> "" ->
  NoDup (Feed.agentType <$> Feed.latestScreenshots events)
  /\ Feed.heroScreenshot (Some a) events
     = last (Feed.displayScreenshots (Some a) events)
  /\ (length (Feed.latestScreenshots events)
      <= length (Feed.allScreenshots events))%nat.
Proof.
  intros Ha. apply String.eqb_neq in Ha.
  assert (NoDup (fst <$> Feed.screenshotsByAgent events)) as Hnd.
  { apply keys_collect_NoDup. constructor. }
  assert (Feed.agentType <$> Feed.latestScreenshots events
          = fst <$> Feed.screenshotsByAgent events) as Hkeys.
  { unfold Feed.latestScreenshots, Feed.screenshotsByAgent.
    generalize (Feed.allScreenshots events). intros l.
    induction l as [|x l IH] using rev_ind; [reflexivity|].
    rewrite collect_snoc.
    generalize dependent (Feed.collect l []). intros m IH.
    induction m as [|[k v] m IHm]; [reflexivity|].
    simpl in *. injection IH as Hk Hm.
    destruct (String.eqb k (Feed.agentType x)) eqn:E; simpl.
    - now rewrite Hm.
    - rewrite Hk. f_equal. now apply IHm. }
  split_and!.
  - now rewrite Hkeys.
  - unfold Feed.heroScreenshot, Feed.displayScreenshots. simpl. rewrite Ha.
    unfold Feed.screenshotsByAgent. rewrite map_get_collect.
    now destruct (last _).
  - unfold Feed.latestScreenshots. rewrite length_fmap.
    rewrite <- (length_fmap fst).
    transitivity (length (Feed.agentType <$> Feed.allScreenshots events));
      [|now rewrite length_fmap].
    apply submseteq_length, NoDup_submseteq; [exact Hnd|].
    intros k Hk. apply keys_collect_elem in Hk as [Hk|Hk]; [|exact Hk].
    now apply elem_of_nil in Hk.
Qed.

Lemma selected_agent_hero_is_its_latest_screenshot_witness :
  Feed.heroScreenshot (Some "xss")
    [Feed.shot "xss" "x2" 3; Feed.shot "sqli" "s1" 2; Feed.shot "xss" "x1" 1]
  = last (Feed.displayScreenshots (Some "xss")
    [Feed.shot "xss" "x2" 3; Feed.shot "sqli" "s1" 2; Feed.shot "xss" "x1" 1]).
Proof.
  refine (proj1 (proj2 (selected_agent_hero_is_its_latest_screenshot
    [Feed.shot "xss" "x2" 3; Feed.shot "sqli" "s1" 2; Feed.shot "xss" "x1" 1]
    "xss" _))).
  discriminate.
Defined.

(** X27.  With no agent selected the hero image is the latest screenshot
    of the agent whose first screenshot came last, which need not be the
    newest screenshot: when the screenshots are [pre], then the first
    one [b] of a new agent, then [post] from agents seen before, the
    hero is the last screenshot of [b]'s agent, and it differs from the
    newest one as soon as [post] ends with an image of another agent. *)
Theorem unselected_hero_follows_the_newest_agent
    (events : list Feed.FeedEvent)
    (pre post : list Feed.ScreenshotEntry) (b : Feed.ScreenshotEntry) :
  Feed.allScreenshots events = pre ++ b :: post ->
  Feed.agentType b ∉ Feed.agentType <$> pre ->
  Forall (fun s => Feed.agentType s ∈ Feed.agentType <$> (pre ++ [b])) post ->
  Feed.heroScreenshot None events
  = last (List.filter
            (fun s => String.eqb (Feed.agentType s) (Feed.agentType b))
            (b :: post))
  /\ (forall newest,
        last post = Some newest ->
        Feed.agentType newest <> Feed.agentType b ->
        Feed.heroScreenshot None events
        <> last (Feed.displayScreenshots None events)).
Proof.
  intros Hall Hnew Hpost.
  assert (Feed.screenshotsByAgent events
          = Feed.collect post
              (Feed.map_set (Feed.agentType b) b (Feed.collect pre [])))
    as Hm.
  { unfold Feed.screenshotsByAgent, Feed.collect. rewrite Hall.
    now rewrite fold_left_app. }
  set (m1 := Feed.map_set (Feed.agentType b) b (Feed.collect pre [])) in *.
  assert (NoDup (fst <$> m1)) as Hnd1.
  { apply keys_map_set_NoDup, keys_collect_NoDup. constructor. }
  assert (fst <$> m1 = (fst <$> Feed.collect pre []) ++ [Feed.agentType b])
    as Hk1.
  { unfold m1. rewrite keys_map_set. rewrite bool_decide_eq_false_2;
      [reflexivity|].
    intros [Hk|Hk]%keys_collect_elem; [now apply elem_of_nil in Hk|].
    contradiction. }
  assert (fst <$> Feed.collect post m1 = fst <$> m1) as Hk.
  { apply keys_collect_known. eapply List.Forall_impl; [|exact Hpost].
    intros s Hs. cbv beta in Hs. rewrite Hk1.
    rewrite fmap_app in Hs. apply elem_of_app in Hs as [Hs|Hs].
    - apply elem_of_app. left. apply keys_collect_elem. now right.
    - apply elem_of_app. now right. }
  assert (Feed.heroScreenshot None events
          = last (List.filter
                    (fun s => String.eqb (Feed.agentType s) (Feed.agentType b))
                    (b :: post))) as Hhero.
  { unfold Feed.heroScreenshot, Feed.latestScreenshots. simpl. rewrite Hm.
    rewrite (last_values (Feed.agentType b)).
    - rewrite map_get_collect.
      cbn [List.filter]. rewrite String.eqb_refl.
      destruct (List.filter _ post) as [|y l] eqn:Hf.
      + simpl. unfold m1. rewrite map_get_map_set.
        now rewrite String.eqb_refl.
      + rewrite last_cons_cons.
        destruct (last (y :: l)) eqn:Hl; [reflexivity|].
        now apply last_None in Hl.
    - apply keys_collect_NoDup, Hnd1.
    - rewrite Hk, Hk1. apply last_snoc. }
  split; [exact Hhero|].
  intros newest Hlast Hother. rewrite Hhero.
  unfold Feed.displayScreenshots. simpl. rewrite Hall.
  change (pre ++ b :: post) with (pre ++ [b] ++ post).
  rewrite !app_assoc, last_app, Hlast.
  intros Heq.
  assert (newest ∈ List.filter
            (fun s => String.eqb (Feed.agentType s) (Feed.agentType b))
            (b :: post)) as Hin.
  { apply last_Some_elem_of. exact Heq. }
  apply list_elem_of_In, List.filter_In in Hin as [_ Hin].
  apply String.eqb_eq in Hin. contradiction.
Qed.

Lemma unselected_hero_follows_the_newest_agent_witness :
  let events :=
    [Feed.shot "xss" "x2" 3; Feed.shot "sqli" "s1" 2; Feed.shot "xss" "x1" 1] in
  Feed.heroScreenshot None events
  = Some {| Feed.agentType := "sqli"; Feed.image := "s1";
            Feed.message := "captured"; Feed.timestamp := 2 |}
  /\ Feed.heroScreenshot None events
     <> last (Feed.displayScreenshots None events).
Proof.
  intros events.
  destruct (unselected_hero_follows_the_newest_agent events
    [{| Feed.agentType := "xss"; Feed.image := "x1";
        Feed.message := "captured"; Feed.timestamp := 1 |}]
    [{| Feed.agentType := "xss"; Feed.image := "x2";
        Feed.message := "captured"; Feed.timestamp := 3 |}]
    {| Feed.agentType := "sqli"; Feed.image := "s1";
       Feed.message := "captured"; Feed.timestamp := 2 |}) as [H1 H2].
  - reflexivity.
  - intros H. apply list_elem_of_In in H. simpl in H.
    intuition discriminate.
  - repeat constructor.
  - split; [exact H1|].
    apply (H2 {| Feed.agentType := "xss"; Feed.image := "x2";
                 Feed.message := "captured"; Feed.timestamp := 3 |});
      [reflexivity|discriminate].
Defined.

(** ** Elapsed-time clock *)

Section ClockFacts.
Import ScanPage Clock.

Lemma pretty_N_char_not_colon (x : N) : pretty_N_char x <> ":"%char.
Proof. unfold pretty_N_char. by repeat case_match. Qed.

Lemma pretty_N_go_colon_free (x : N) (s : string) :
  colon_free s -> colon_free (pretty_N_go x s).
Proof.
  revert s. induction (N.lt_wf_0 x) as [x _ IH]; intros s Hs.
  assert (x = 0 \/ 0 < x)%N as [->|Hx] by lia.
  - by rewrite pretty_N_go_0.
  - rewrite pretty_N_go_step by done. apply IH.
    + by apply N.div_lt.
    + split; [apply pretty_N_char_not_colon|exact Hs].
Qed.

Lemma pretty_N_go_length (x : N) (s : string) :
  (String.length s <= String.length (pretty_N_go x s))%nat.
Proof.
  revert s. induction (N.lt_wf_0 x) as [x _ IH]; intros s.
  assert (x = 0 \/ 0 < x)%N as [->|Hx] by lia.
  - by rewrite pretty_N_go_0.
  - rewrite pretty_N_go_step by done.
    pose proof (IH (x `div` 10)%N (N.div_lt x 10 Hx eq_refl)
                  (String (pretty_N_char (x `mod` 10)) s)) as H.
    simpl in H. lia.
Qed.

Lemma pretty_N_go_lead (x : N) (s : string) :
  (0 < x)%N ->
  exists c r, pretty_N_go x s = String c r /\ c <> "0"%char.
Proof.
  revert s. induction (N.lt_wf_0 x) as [x _ IH]; intros s Hx.
  rewrite pretty_N_go_step by done.
  destruct (N.eq_0_gt_0_cases (x `div` 10)) as [E|Hd].
  - rewrite E, pretty_N_go_0. eexists _, _. split; [reflexivity|].
    assert (x < 10)%N as Hlt by (apply N.div_small_iff in E; lia).
    rewrite N.mod_small by exact Hlt.
    assert (x = 1 \/ x = 2 \/ x = 3 \/ x = 4 \/ x = 5 \/ x = 6
            \/ x = 7 \/ x = 8 \/ x = 9)%N
      as [->|[->|[->|[->|[->|[->|[->|[->| ->]]]]]]]] by lia;
      discriminate.
  - apply IH; [|exact Hd]. apply N.div_lt; [done|lia].
Qed.

Lemma pretty_nat_unfold (n : nat) :
  (0 < n)%nat -> pretty n = pretty_N_go (N.of_nat n) "".
Proof.
  intros H. unfold pretty, pretty_nat, pretty, pretty_N.
  destruct (decide (N.of_nat n = 0%N)); [lia|reflexivity].
Qed.

Lemma pretty_nat_colon_free (n : nat) : colon_free (pretty n).
Proof.
  destruct n as [|n]; [by vm_compute|].
  rewrite pretty_nat_unfold by lia. by apply pretty_N_go_colon_free.
Qed.

Lemma pretty_nat_small (n : nat) :
  (n < 10)%nat -> exists c, pretty n = String c "".
Proof.
  intros H. do 10 (destruct n as [|n]; [eexists; by vm_compute|]). lia.
Qed.

Lemma pretty_nat_two (n : nat) :
  (10 <= n)%nat ->
  pretty n
  = pretty_N_go ((N.of_nat n `div` 10) `div` 10)
      (String (pretty_N_char ((N.of_nat n `div` 10) `mod` 10))
         (String (pretty_N_char (N.of_nat n `mod` 10)) "")).
Proof.
  intros H. rewrite pretty_nat_unfold by lia.
  rewrite pretty_N_go_step by lia.
  rewrite pretty_N_go_step; [reflexivity|].
  apply N.div_str_pos. lia.
Qed.

Lemma pretty_nat_big_length (n : nat) :
  (10 <= n)%nat -> (2 <= String.length (pretty n))%nat.
Proof.
  intros H. rewrite pretty_nat_two by exact H.
  etrans; [|apply pretty_N_go_length]. simpl. lia.
Qed.

Lemma pad2_small (n : nat) :
  (n < 10)%nat -> pad2 n = String "0" (pretty n).
Proof.
  intros H. destruct (pretty_nat_small n H) as [c Hc].
  unfold pad2. rewrite Hc. reflexivity.
Qed.

Lemma pad2_big (n : nat) : (10 <= n)%nat -> pad2 n = pretty n.
Proof.
  intros H. pose proof (pretty_nat_big_length n H) as Hl.
  unfold pad2. destruct (String.length (pretty n) <? 2)%nat eqn:E;
    [|reflexivity].
  apply Nat.ltb_lt in E. lia.
Qed.

Lemma pad2_colon_free (n : nat) : colon_free (pad2 n).
Proof.
  destruct (Nat.lt_ge_cases n 10) as [H|H].
  - rewrite pad2_small by exact H.
    split; [discriminate|apply pretty_nat_colon_free].
  - rewrite pad2_big by exact H. apply pretty_nat_colon_free.
Qed.

Lemma pretty_nat_lead (n : nat) (r : string) :
  (10 <= n)%nat -> pretty n <> String "0" r.
Proof.
  intros H. rewrite pretty_nat_unfold by lia.
  destruct (pretty_N_go_lead (N.of_nat n) "") as (c & r' & E & Hc); [lia|].
  rewrite E. intros [= ? ?]. contradiction.
Qed.

Lemma pad2_inj (n m : nat) : pad2 n = pad2 m -> n = m.
Proof.
  destruct (Nat.lt_ge_cases n 10) as [Hn|Hn];
    destruct (Nat.lt_ge_cases m 10) as [Hm|Hm];
    rewrite ?(pad2_small n), ?(pad2_small m), ?(pad2_big n), ?(pad2_big m)
      by assumption.
  - intros [= E]. by apply (inj pretty).
  - intros E. symmetry in E. by apply pretty_nat_lead in E.
  - intros E. by apply pretty_nat_lead in E.
  - apply (inj pretty).
Qed.

Lemma colon_split (a a' b b' : string) :
  colon_free a -> colon_free a' ->
  a +:+ String ":" b = a' +:+ String ":" b' -> a = a' /\ b = b'.
Proof.
  revert a'. induction a as [|c a IH]; intros [|c' a'] Ha Ha'.
  - rewrite !str_app_nil_l. by intros [= ->].
  - rewrite str_app_nil_l, str_app_cons. intros [= <- _].
    destruct Ha' as [Hc _]. contradiction.
  - rewrite str_app_nil_l, str_app_cons. intros [= -> _].
    destruct Ha as [Hc _]. contradiction.
  - rewrite !str_app_cons. intros [= -> E].
    destruct Ha as [_ Ha], Ha' as [_ Ha'].
    destruct (IH a' Ha Ha' E) as [-> ->]. done.
Qed.

Lemma formatTime_inj (s t : nat) : formatTime s = formatTime t -> s = t.
Proof.
  unfold formatTime. intros E.
  change (pad2 (s / 60) +:+ String ":" (pad2 (s mod 60))
          = pad2 (t / 60) +:+ String ":" (pad2 (t mod 60))) in E.
  apply colon_split in E as [E1 E2]; try apply pad2_colon_free.
  apply pad2_inj in E1. apply pad2_inj in E2.
  rewrite (Nat.div_mod_eq s 60), (Nat.div_mod_eq t 60). lia.
Qed.

Lemma str_length_app (a b : string) :
  String.length (a +:+ b) = (String.length a + String.length b)%nat.
Proof.
  induction a as [|c a IH]; [by rewrite str_app_nil_l|].
  rewrite str_app_cons. simpl. by rewrite IH.
Qed.

Lemma pad2_length (n : nat) :
  (2 <= String.length (pad2 n))%nat
  /\ (String.length (pad2 n) = 2%nat <-> (n < 100)%nat).
Proof.
  destruct (Nat.lt_ge_cases n 10) as [H|H].
  - rewrite pad2_small by exact H.
    destruct (pretty_nat_small n H) as [c ->]. simpl. split; [lia|].
    split; intros; lia.
  - rewrite pad2_big by exact H. split; [by apply pretty_nat_big_length|].
    rewrite pretty_nat_two by exact H.
    destruct (Nat.lt_ge_cases n 100) as [H'|H'].
    + assert ((N.of_nat n `div` 10) `div` 10 = 0)%N as ->.
      { rewrite N.Div0.div_div. apply N.div_small. lia. }
      rewrite pretty_N_go_0. simpl. split; intros; lia.
    + rewrite pretty_N_go_step.
      2:{ rewrite N.Div0.div_div. apply N.div_str_pos. lia. }
      match goal with
      | |- context [pretty_N_go ?x ?s] =>
          pose proof (pretty_N_go_length x s) as Hl
      end.
      simpl in Hl. split; intros; lia.
Qed.

End ClockFacts.

(** X28.  The elapsed-time clock is faithful: two different numbers of
    seconds are never shown as the same text.  The text has the five
    characters of mm:ss exactly while less than 100 minutes have
    elapsed; from then on the minutes field grows and the text is
    longer. *)
Theorem clock_shows_different_times_differently (s t : nat) :
  s <> t ->
  ScanPage.formatTime s <> ScanPage.formatTime t
  /\ (String.length (ScanPage.formatTime s) = 5%nat <-> (s < 100 * 60)%nat)
  /\ (5 <= String.length (ScanPage.formatTime s))%nat.
Proof.
  intros Hne.
  assert (String.length (ScanPage.formatTime s)
          = (String.length (ScanPage.pad2 (s / 60)) + 1
             + String.length (ScanPage.pad2 (s mod 60)))%nat) as Hlen.
  { unfold ScanPage.formatTime. rewrite !str_length_app. simpl. lia. }
  destruct (pad2_length (s / 60)) as [Hm1 Hm2].
  destruct (pad2_length (s mod 60)) as [Hs1 Hs2].
  assert (s mod 60 < 60)%nat as Hmod by (apply Nat.mod_upper_bound; lia).
  assert (String.length (ScanPage.pad2 (s mod 60)) = 2%nat) as Hsec
    by (apply Hs2; lia).
  assert (s / 60 < 100 <-> s < 100 * 60)%nat as Hdiv.
  { pose proof (Nat.div_mod_eq s 60) as Hs. revert Hs Hmod.
    generalize (s / 60)%nat (s mod 60)%nat. intros q r Hs Hmod. lia. }
  split_and!.
  - intros E. apply Hne. by apply formatTime_inj.
  - rewrite Hlen, Hsec, <- Hdiv, <- Hm2. lia.
  - lia.
Qed.

Lemma clock_shows_different_times_differently_witness :
  ScanPage.formatTime 59 = "00:59"
  /\ ScanPage.formatTime 60 = "01:00"
  /\ ScanPage.formatTime 59 <> ScanPage.formatTime 60.
Proof.
  split_and!; [by vm_compute|by vm_compute|].
  refine (proj1 (clock_shows_different_times_differently 59 60 _)). lia.
Defined.

(** ** The console of the dashboard and the messages of a run *)

Section ConsoleFacts.
Import Text Wire Harness RunTypes.
Context (env : Env) (cfg : Config).
Local Abbreviation B := (browser env).

Lemma speaks_refl (a : Agent B) : speaks a a.
Proof. exists []. rewrite app_nil_r. split; [reflexivity|constructor]. Qed.

Lemma speaks_trans (a b c : Agent B) : speaks a b -> speaks b c -> speaks a c.
Proof.
  intros (t1 & H1 & F1) (t2 & H2 & F2). exists (t1 ++ t2).
  rewrite H2, H1, <- app_assoc. split; [reflexivity|by apply Forall_app].
Qed.

Lemma speaks_same (a b : Agent B) : sent b = sent a -> speaks a b.
Proof.
  intros H. exists []. rewrite app_nil_r. split; [exact H|constructor].
Qed.

Lemma speaks_send (t : string) (d : EventData) (a : Agent B) :
  In t harness_types -> speaks a (send_event env cfg t d a).
Proof.
  intros Ht.
  exists [{| e_type := t; e_agentId := agent_id cfg; e_role := role cfg;
             e_scanId := scan_id cfg; e_data := d |}].
  split; [reflexivity|]. constructor; [exact Ht|constructor].
Qed.

Ltac listed := simpl; tauto.

Lemma speaks_issue (c : BrowserCall) (a : Agent B) :
  speaks a (fst (issue env c a)).
Proof. apply speaks_same. by destruct (issue_calls env c a) as (_ & ? & _). Qed.

Lemma speaks_execute_action (decision : gmap string string) (a : Agent B) :
  speaks a (execute_action env cfg decision a).
Proof.
  unfold execute_action.
  set (a1 := send_event env cfg "agent.action" _ a).
  assert (speaks a a1) as H1 by (apply (speaks_send "agent.action"); listed).
  destruct (if String.eqb (getitem decision "action") "fill" then _ else _)
    as [c|]; [|exact H1].
  pose proof (speaks_issue c a1) as H2.
  destruct (issue env c a1) as [a2 [e|]]; simpl in H2.
  - eapply speaks_trans; [eapply speaks_trans; [exact H1|exact H2]|].
    apply (speaks_send "agent.error"); listed.
  - eapply speaks_trans; [exact H1|exact H2].
Qed.

Lemma speaks_take_screenshot (label : string) (a : Agent B) :
  speaks a (take_screenshot env cfg label a).
Proof.
  unfold take_screenshot. destruct (screenshot B (page a)).
  - apply (speaks_send "agent.screenshot"); listed.
  - apply speaks_refl.
Qed.

Lemma speaks_act_on (decision : gmap string string) (state : Snapshot)
    (a : Agent B) :
  speaks a (act_on env cfg decision state a).
Proof.
  unfold act_on.
  set (a1 := send_event env cfg "agent.decision" _ a).
  set (a2 := execute_action env cfg decision a1).
  assert (speaks a a2) as H2.
  { apply (speaks_trans a a1 a2);
      [apply (speaks_send "agent.decision"); listed|].
    apply speaks_execute_action. }
  eapply speaks_trans; [|apply speaks_take_screenshot].
  destruct (check_for_vulnerability env cfg (page a2) decision state)
    as [v|]; [|exact H2].
  eapply speaks_trans; [exact H2|].
  apply (speaks_trans a2 (add_finding env v a2));
    [by apply speaks_same|].
  apply (speaks_send "vulnerability.found"); listed.
Qed.

Lemma speaks_get_next_action (iteration : nat) (state : Snapshot) (a : Agent B) :
  speaks a (snd (get_next_action env cfg iteration state a)).
Proof.
  unfold get_next_action.
  set (a1 := send_event env cfg "agent.thinking" _ a).
  assert (speaks a a1) as H1 by (apply (speaks_send "agent.thinking"); listed).
  destruct (claude env iteration (role cfg) state (length (findings a)));
    simpl; [|exact H1].
  eapply speaks_trans; [exact H1|].
  apply (speaks_send "agent.thought"); listed.
Qed.

Lemma speaks_loop_body (iteration : nat) (a : Agent B) :
  speaks a (loop_body env cfg iteration a).
Proof.
  unfold loop_body.
  set (a1 := set_iteration_count env (Z.of_nat iteration + 1) a).
  assert (speaks a a1) as H0 by (by apply speaks_same).
  pose proof (speaks_get_next_action iteration
                (capture_state env (page a1)) a1) as H1.
  destruct (get_next_action env cfg iteration (capture_state env (page a1)) a1)
    as [[decision|] a2]; simpl in H1.
  - destruct (bool_decide (decision = ∅)).
    + eapply speaks_trans; [exact H0|exact H1].
    + eapply speaks_trans; [eapply speaks_trans; [exact H0|exact H1]|].
      apply speaks_act_on.
  - eapply speaks_trans; [exact H0|exact H1].
Qed.

Lemma speaks_loop_over (its : list nat) (a : Agent B) :
  speaks a (loop_over env cfg its a).
Proof.
  revert a. induction its as [|i its IH]; intros a.
  - apply speaks_refl.
  - change (loop_over env cfg (i :: its) a)
      with (loop_over env cfg its (loop_body env cfg i a)).
    eapply speaks_trans; [apply speaks_loop_body|apply IH].
Qed.

Lemma speaks_run (a : Agent B) : speaks a (RunEnd.final (run env cfg a)).
Proof.
  unfold run, main_loop.
  set (a1 := send_event env cfg "agent.started" _ a).
  assert (speaks a a1) as H1 by (apply (speaks_send "agent.started"); listed).
  pose proof (speaks_issue (Goto (target_url cfg)) a1) as H2.
  destruct (issue env (Goto (target_url cfg)) a1) as [a2 [e|]];
    cbn [fst] in H2; cbn [RunEnd.final].
  - eapply speaks_trans; [exact H1|exact H2].
  - set (a3 := take_screenshot env cfg "initial_load" a2).
    set (a4 := loop_over env cfg iterations a3).
    apply (speaks_trans a a2); [eapply speaks_trans; [exact H1|exact H2]|].
    apply (speaks_trans a2 a3); [apply speaks_take_screenshot|].
    apply (speaks_trans a3 a4); [apply speaks_loop_over|].
    apply (speaks_send "agent.complete"); listed.
Qed.

Lemma after_events (l : list AgentEvent) (ws : WsClient.ScanWsState) :
  WsClient.events (ScanPage.after l ws) = WsClient.events ws ++ l.
Proof.
  revert ws. induction l as [|e l IH]; intros ws.
  - simpl. by rewrite app_nil_r.
  - change (ScanPage.after (e :: l) ws)
      with (ScanPage.after l (WsClient.handleEvent e ws)).
    rewrite IH, handleEvent_events, <- app_assoc. reflexivity.
Qed.

Lemma console_filter (l : list AgentEvent) :
  Forall (fun e => In (e_type e) harness_types) l ->
  List.filter
    (fun e => existsb (String.eqb (e_type e)) ScanPage.console_types) l
  = List.filter (fun e => negb (is_screenshot e)) l.
Proof.
  induction 1 as [|e l He _ IH]; [reflexivity|].
  cbn [List.filter]. rewrite IH.
  assert (existsb (String.eqb (e_type e)) ScanPage.console_types
          = negb (is_screenshot e)) as ->; [|reflexivity].
  unfold is_screenshot. simpl in He.
  destruct He as [<-|[<-|[<-|[<-|[<-|[<-|[<-|[<-|[<-|[]]]]]]]]]]; reflexivity.
Qed.

End ConsoleFacts.

Section ConsoleOnTheWire.
Import Wire RunTypes.

Lemma console_drops_network (e : AgentEvent) :
  is_network e = true ->
  existsb (String.eqb (e_type e)) ScanPage.console_types = false.
Proof. intros [H|H]%network_type; rewrite H; reflexivity. Qed.

Lemma console_filter_traffic (wire : list AgentEvent) :
  List.filter
    (fun e => existsb (String.eqb (e_type e)) ScanPage.console_types) wire
  = List.filter
      (fun e => existsb (String.eqb (e_type e)) ScanPage.console_types)
      (List.filter (fun e => negb (is_network e)) wire).
Proof.
  induction wire as [|e wire IH]; [reflexivity|].
  cbn [List.filter]. destruct (is_network e) eqn:He; cbn [negb].
  - by rewrite (console_drops_network e He).
  - cbn [List.filter]. by rewrite IH.
Qed.

End ConsoleOnTheWire.

(** X29.  When a run returns, the console of the dashboard shows, of
    what the run has put on the wire, exactly the messages of the
    agent's own control flow except the screenshots, in the order sent:
    the network messages that the page listeners add in between are in
    the event log of the socket client, which holds the whole wire, but
    not in the console. *)
Theorem console_shows_run_messages_but_screenshots
    (env : Harness.Env) (cfg : Harness.Config)
    (blank : Harness.Page (Harness.browser env))
    (a' : Harness.Agent (Harness.browser env))
    (wire : list Wire.AgentEvent) :
  Harness.run env cfg (Harness.init (Harness.browser env) blank)
    = Harness.Returned a' ->
  RunTypes.on_the_wire (Harness.sent a') wire ->
  WsClient.events (Props.dashboard_after wire) = wire
  /\ ScanPage.consoleEvents (Props.dashboard_after wire)
     = List.filter (fun e => negb (RunTypes.is_screenshot e)) (Harness.sent a').
Proof.
  intros Hrun Hwire.
  assert (WsClient.events (Props.dashboard_after wire) = wire) as Hev.
  { change (Props.dashboard_after wire)
      with (ScanPage.after wire WsClient.initial).
    by rewrite after_events. }
  split; [exact Hev|].
  unfold ScanPage.consoleEvents. rewrite Hev, console_filter_traffic, Hwire.
  apply console_filter.
  destruct (speaks_run env cfg (Harness.init (Harness.browser env) blank))
    as (tail & Hs & Ht).
  rewrite Hrun in Hs. simpl in Hs. rewrite Hs. exact Ht.
Qed.

Lemma console_shows_run_messages_but_screenshots_witness :
  let a' := RunEnd.final
              (Harness.run Demo.env Demo.cfg
                 (Harness.init (Harness.browser Demo.env) Demo.blank_page)) in
  ScanPage.consoleEvents
    (Props.dashboard_after (Probe.request_event Wire.no_data :: Harness.sent a'))
  = List.filter (fun e => negb (RunTypes.is_screenshot e)) (Harness.sent a').
Proof.
  intros a'.
  refine (proj2 (console_shows_run_messages_but_screenshots Demo.env Demo.cfg
                   Demo.blank_page a'
                   (Probe.request_event Wire.no_data :: Harness.sent a')
                   eq_refl _)).
  by vm_compute.
Defined.

(** ** Fenced code in the report *)

Section CodeBlockFacts.
Import CodeBlock.

Lemma starts_fence_true (s : string) :
  starts_fence s = true <-> exists r, s = fence +:+ r.
Proof.
  split.
  - destruct s as [|a [|b [|c r]]]; try discriminate. simpl.
    intros [[Ha Hb]%andb_true_iff Hc]%andb_true_iff.
    apply Ascii.eqb_eq in Ha, Hb, Hc. subst. by exists r.
  - intros [r ->]. reflexivity.
Qed.

Lemma cut_cons (c : ascii) (r : string) :
  cut (String c r)
  = if starts_fence (String c r) then Some (EmptyString, skip 3 (String c r))
    else match cut r with
         | Some (before, rest) => Some (String c before, rest)
         | None => None
         end.
Proof. reflexivity. Qed.

Lemma cut_Some (s before rest : string) :
  cut s = Some (before, rest) -> s = before +:+ fence +:+ rest.
Proof.
  revert before. induction s as [|c r IH]; intros before; [discriminate|].
  rewrite cut_cons. destruct (starts_fence (String c r)) eqn:Hf.
  - apply starts_fence_true in Hf as [r' Hr]. rewrite Hr.
    intros [= <- <-]. reflexivity.
  - destruct (cut r) as [[b a]|]; [|discriminate].
    intros [= <- <-]. rewrite str_app_cons. f_equal. by apply IH.
Qed.

Lemma cut_length (s before rest : string) :
  cut s = Some (before, rest) ->
  String.length s = (String.length before + 3 + String.length rest)%nat.
Proof.
  intros ->%cut_Some. rewrite !str_length_app. simpl. lia.
Qed.

Lemma concat_empty_cons (x : string) (xs : list string) :
  String.concat EmptyString (x :: xs) = x +:+ String.concat EmptyString xs.
Proof.
  destruct xs as [|y ys]; simpl; [by rewrite str_app_nil_r|reflexivity].
Qed.

Lemma split_rounds_concat (rounds : nat) (s : string) :
  String.concat EmptyString (split_rounds rounds s) = s.
Proof.
  revert s. induction rounds as [|n IH]; intros s; [reflexivity|].
  simpl. destruct (cut s) as [[before r1]|] eqn:H1; [|reflexivity].
  destruct (cut r1) as [[body r2]|] eqn:H2; [|reflexivity].
  rewrite !concat_empty_cons, IH.
  apply cut_Some in H1, H2. rewrite H1, H2.
  by rewrite !str_app_assoc.
Qed.

Lemma split_rounds_enough (n m : nat) (s : string) :
  (String.length s <= n)%nat -> (String.length s <= m)%nat ->
  split_rounds n s = split_rounds m s.
Proof.
  revert m s. induction n as [|n IH]; intros m s Hn Hm.
  - destruct s; [|simpl in Hn; lia]. by destruct m.
  - destruct m as [|m].
    + destruct s; [|simpl in Hm; lia]. reflexivity.
    + simpl. destruct (cut s) as [[before r1]|] eqn:H1; [|reflexivity].
      destruct (cut r1) as [[body r2]|] eqn:H2; [|reflexivity].
      apply cut_length in H1, H2. do 2 f_equal. apply IH; lia.
Qed.

Lemma split_fences_step (s before r1 body r2 : string) :
  cut s = Some (before, r1) -> cut r1 = Some (body, r2) ->
  split_fences s = before :: (fence +:+ body +:+ fence) :: split_fences r2.
Proof.
  intros H1 H2. unfold split_fences.
  pose proof (cut_length _ _ _ H1) as L1.
  pose proof (cut_length _ _ _ H2) as L2.
  destruct (String.length s) as [|n] eqn:E; [lia|].
  simpl. rewrite H1, H2. do 2 f_equal. apply split_rounds_enough; lia.
Qed.

Lemma starts_fence_window (c : ascii) (r post : string) :
  starts_fence (String c (r +:+ "``"))
  = starts_fence (String c (r +:+ fence +:+ post)).
Proof. by destruct r as [|d [|e r']]. Qed.

Lemma cut_app_fence (m post : string) :
  cut (m +:+ "``") = None -> cut (m +:+ fence +:+ post) = Some (m, post).
Proof.
  induction m as [|c r IH]; [reflexivity|].
  rewrite !str_app_cons, !cut_cons, <- starts_fence_window.
  destruct (starts_fence (String c (r +:+ "``"))); [discriminate|].
  destruct (cut (r +:+ "``")) as [[b a]|] eqn:E; [discriminate|].
  intros _. by rewrite IH.
Qed.

Lemma starts_fence_newline (c : ascii) (r : string) :
  starts_fence (String c r) = false ->
  starts_fence (String c ((r +:+ String newline EmptyString) +:+ "``")) = false.
Proof.
  destruct r as [|d [|e r']]; simpl; try done.
  all: intros _; by rewrite !andb_false_r.
Qed.

Lemma cut_newline_end (m : string) :
  cut m = None ->
  cut ((m +:+ String newline EmptyString) +:+ "``") = None.
Proof.
  induction m as [|c r IH]; [reflexivity|].
  rewrite cut_cons. destruct (starts_fence (String c r)) eqn:Hf; [discriminate|].
  destruct (cut r) as [[b a]|] eqn:E; [discriminate|]. intros _.
  rewrite !str_app_cons, cut_cons, (starts_fence_newline _ _ Hf).
  by rewrite IH.
Qed.

Lemma split_lines_nonempty (s : string) : split_lines s <> [].
Proof.
  induction s as [|c r IH]; [discriminate|]. simpl.
  destruct (Ascii.eqb c newline); [discriminate|].
  by destruct (split_lines r).
Qed.

Lemma split_lines_app (a b : string) :
  split_lines (a +:+ String newline b) = split_lines a ++ split_lines b.
Proof.
  induction a as [|c a IH].
  - rewrite str_app_nil_l. simpl. reflexivity.
  - rewrite str_app_cons. simpl. rewrite IH.
    destruct (Ascii.eqb c newline); [reflexivity|].
    pose proof (split_lines_nonempty a).
    by destruct (split_lines a).
Qed.

Lemma split_lines_newline_free (s : string) :
  newline_free s = true -> split_lines s = [s].
Proof.
  induction s as [|c r IH]; [reflexivity|]. simpl.
  intros [Hc Hr]%andb_true_iff. apply negb_true_iff in Hc.
  by rewrite Hc, (IH Hr).
Qed.

Lemma join_split_lines (s : string) :
  String.concat (String newline EmptyString) (split_lines s) = s.
Proof.
  induction s as [|c r IH]; [reflexivity|]. simpl.
  pose proof (split_lines_nonempty r) as Hne.
  destruct (Ascii.eqb c newline) eqn:E.
  - apply Ascii.eqb_eq in E. subst c.
    destruct (split_lines r) as [|l ls]; [done|].
    change (String.concat (String newline "") ("" :: l :: ls))
      with (String newline (String.concat (String newline "") (l :: ls))).
    by rewrite IH.
  - destruct (split_lines r) as [|l ls]; [done|].
    rewrite <- IH. by destruct ls.
Qed.

Lemma newline_free_app (a b : string) :
  newline_free a = true -> newline_free b = true ->
  newline_free (a +:+ b) = true.
Proof.
  induction a as [|c a IH]; [by rewrite str_app_nil_l|].
  rewrite str_app_cons. simpl. intros [Hc Ha]%andb_true_iff Hb.
  by rewrite Hc, IH.
Qed.

Lemma codeContent_block (lang body : string) :
  newline_free lang = true -> codeContent (block lang body) = body.
Proof.
  intros Hl. unfold codeContent, block.
  replace (fence +:+ lang +:+ String newline body +:+ String newline fence)
    with ((fence +:+ lang) +:+ String newline (body +:+ String newline fence)).
  2:{ by rewrite !str_app_assoc, str_app_cons. }
  rewrite !split_lines_app.
  rewrite (split_lines_newline_free (fence +:+ lang))
    by (by apply newline_free_app).
  rewrite (split_lines_newline_free fence) by reflexivity.
  unfold slice_1_m1. cbn [tl app]. rewrite removelast_last.
  apply join_split_lines.
Qed.

End CodeBlockFacts.

(** X30.  A fenced block of the remediation text is shown whole: when
    the text before the block and the block's language line and body
    hold no fence of their own, the split yields the text before, the
    block and the pieces of the rest; the block is rendered as code and
    the code shown is exactly its body.  The split itself never loses
    anything: its pieces, joined, are the text. *)
Theorem fenced_block_is_shown_whole (text lang body post : string) :
  CodeBlock.cut text = None ->
  CodeBlock.newline_free lang = true ->
  CodeBlock.cut (lang +:+ String CodeBlock.newline body) = None ->
  let shown := CodeBlock.block lang body in
  let code := text +:+ String CodeBlock.newline (shown +:+ post) in
  CodeBlock.split_fences code
  = (text +:+ String CodeBlock.newline EmptyString)
      :: shown :: CodeBlock.split_fences post
  /\ CodeBlock.is_code shown = true
  /\ CodeBlock.codeContent shown = body
  /\ forall other,
       String.concat EmptyString (CodeBlock.split_fences other) = other.
Proof.
  intros Htext Hlang Hbody shown code. subst shown code. split_and!.
  - pose proof (cut_app_fence _
      ((lang +:+ String CodeBlock.newline body)
         +:+ String CodeBlock.newline EmptyString
         +:+ CodeBlock.fence +:+ post)
      (cut_newline_end _ Htext)) as H1.
    pose proof (cut_app_fence _ post (cut_newline_end _ Hbody)) as H2.
    unfold CodeBlock.block.
    repeat (rewrite str_app_assoc in H1 || rewrite str_app_cons in H1
            || rewrite str_app_nil_l in H1).
    repeat (rewrite str_app_assoc in H2 || rewrite str_app_cons in H2
            || rewrite str_app_nil_l in H2).
    repeat (rewrite str_app_assoc || rewrite str_app_cons
            || rewrite str_app_nil_l).
    rewrite (split_fences_step _ _ _ _ _ H1 H2).
    repeat (rewrite str_app_assoc || rewrite str_app_cons
            || rewrite str_app_nil_l).
    reflexivity.
  - reflexivity.
  - by apply codeContent_block.
  - intros other. apply split_rounds_concat.
Qed.

Lemma fenced_block_is_shown_whole_witness :
  CodeBlock.split_fences
    ("Bind the id:" +:+ String CodeBlock.newline
       (CodeBlock.block "python" "cur.execute(q, (uid,))" +:+ " Done."))
  = ["Bind the id:" +:+ String CodeBlock.newline EmptyString;
     CodeBlock.block "python" "cur.execute(q, (uid,))"; " Done."]
  /\ CodeBlock.codeContent (CodeBlock.block "python" "cur.execute(q, (uid,))")
     = "cur.execute(q, (uid,))".
Proof.
  destruct (fenced_block_is_shown_whole "Bind the id:" "python"
              "cur.execute(q, (uid,))" " Done.") as (H1 & _ & H3 & _);
    [reflexivity..|].
  split; [exact H1|exact H3].
Defined.
